(** * The code-generation route of the server (server/aiRoutes.ts)

    A shallow embedding of [generateCodeSchema], [modelEndpoints],
    [generateCode] and [generateCodeHandler], and the properties of the
    generation-dispatch core proved about them.  After them come the
    request log (server/index.ts), the development logger
    (server/vite.ts), the database client (db.ts), the storage methods
    and the insert schemas the data routes use, and the routes
    [/api/ai-models], [/api/init-models], [/api/init-plans] and
    [/api/subscribe] (server/routes.ts).

    Conventions of the embedding.
    - A JavaScript string is a [string]; every character stands for one
      UTF-16 code unit below 256.
    - A JavaScript number is kept by the decimal text that
      [Number.prototype.toString] prints for it; the program only tests
      numbers for truthiness and prints them.
    - An [async] function is a computation in the monad [M]: it logs the
      effects it performs and returns, throws, or never settles.
    - The collaborators (process environment, provider, response object)
      are the fields of [Env]. *)

From Stdlib Require Import String Ascii List Bool NArith Lia DecimalString.
Import ListNotations.
Local Open Scope list_scope.
Local Open Scope string_scope.

#[local] Set Warnings "-register-all".

(** ** Strings *)

Module Str.

Definition chr (n : nat) : string := String (ascii_of_nat n) "".

(** The characters that cannot be typed inside a literal. *)
Definition nl : string := chr 10.
Definition dquote : string := chr 34.
Definition backslash : string := chr 92.

(** WhiteSpace and LineTerminator code units below 256 (ECMA-262, 12.2 and
    12.3): TAB, LF, VT, FF, CR, SP and NBSP. *)
Definition is_whitespace (c : ascii) : bool :=
  let n := N_of_ascii c in
  (((9 <=? n) && (n <=? 13)) || (n =? 32) || (n =? 160))%N.

Fixpoint trimStart (s : string) : string :=
  match s with
  | "" => ""
  | String c r => if is_whitespace c then trimStart r else s
  end.

Fixpoint trimEnd (s : string) : string :=
  match s with
  | "" => ""
  | String c r =>
      match trimEnd r with
      | "" => if is_whitespace c then "" else String c ""
      | r' => String c r'
      end
  end.

(** [String.prototype.trim]. *)
Definition trim (s : string) : string := trimEnd (trimStart s).

Fixpoint all_whitespace (s : string) : bool :=
  match s with
  | "" => true
  | String c r => is_whitespace c && all_whitespace r
  end.

(** [hay] has [needle] as a contiguous part. *)
Definition contains (hay needle : string) : Prop :=
  exists pre post, hay = pre ++ needle ++ post.

(** Decimal text of a natural number, as a template literal prints it. *)
Definition of_N (n : N) : string := NilEmpty.string_of_uint (N.to_uint n).

Definition hex_digit (n : N) : string :=
  match n with
  | 0 => "0" | 1 => "1" | 2 => "2" | 3 => "3" | 4 => "4" | 5 => "5"
  | 6 => "6" | 7 => "7" | 8 => "8" | 9 => "9" | 10 => "a" | 11 => "b"
  | 12 => "c" | 13 => "d" | 14 => "e" | _ => "f"
  end%N.

(** QuoteJSONString (ECMA-262, 25.5.2.3) on one code unit. *)
Definition json_escape_char (c : ascii) : string :=
  let n := N_of_ascii c in
  if (n =? 34)%N then backslash ++ dquote
  else if (n =? 92)%N then backslash ++ backslash
  else if (n =? 8)%N then backslash ++ "b"
  else if (n =? 9)%N then backslash ++ "t"
  else if (n =? 10)%N then backslash ++ "n"
  else if (n =? 12)%N then backslash ++ "f"
  else if (n =? 13)%N then backslash ++ "r"
  else if (n <? 32)%N then
    backslash ++ "u00" ++ hex_digit (n / 16) ++ hex_digit (n mod 16)
  else String c "".

Fixpoint json_escape (s : string) : string :=
  match s with
  | "" => ""
  | String c r => json_escape_char c ++ json_escape r
  end.

Definition json_quote (s : string) : string :=
  dquote ++ json_escape s ++ dquote.

Definition is_empty (s : string) : bool :=
  match s with "" => true | _ => false end.

End Str.

(** ** JavaScript values *)

(** The values the route handles: what [JSON.parse] builds, and
    [undefined].  An object keeps its own properties in insertion order;
    the first pair with a key is the property. *)
Inductive JsValue : Type :=
| JUndefined
| JNull
| JBool (b : bool)
| JNum (text : string)
| JStr (s : string)
| JArr (items : list JsValue)
| JObj (fields : list (string * JsValue)).

(** An [Error] instance: its [name] and [message]. *)
Record JsError : Type := mkError { err_name : string; err_message : string }.

(** [new Error(message)]. *)
Definition Error (message : string) : JsError := mkError "Error" message.
Definition TypeError (message : string) : JsError := mkError "TypeError" message.

(** ToBoolean: [undefined], [null], [false], zero and [''] are falsy.  A
    number printed as [NaN] is falsy too. *)
Definition truthy (v : JsValue) : bool :=
  match v with
  | JUndefined | JNull => false
  | JBool b => b
  | JNum t => negb ((t =? "0") || (t =? "NaN"))
  | JStr s => negb (Str.is_empty s)
  | JArr _ | JObj _ => true
  end.

(** [a || b]. *)
Definition js_or (a b : JsValue) : JsValue := if truthy a then a else b.

(** [typeof]-like tag, as zod's [getParsedType] names it. *)
Definition parsedType (v : JsValue) : string :=
  match v with
  | JUndefined => "undefined"
  | JNull => "null"
  | JBool _ => "boolean"
  | JNum t => if t =? "NaN" then "nan" else "number"
  | JStr _ => "string"
  | JArr _ => "array"
  | JObj _ => "object"
  end.

Fixpoint own_property (fields : list (string * JsValue)) (key : string)
  : option JsValue :=
  match fields with
  | [] => None
  | (k, v) :: rest => if k =? key then Some v else own_property rest key
  end.

(** ** JSON.stringify *)

Module JSON.

Definition join (sep : string) (parts : list string) : string :=
  String.concat sep parts.

(** The bracketed form of SerializeJSONArray and SerializeJSONObject. *)
Definition wrap (opening closing gap indent : string) (parts : list string)
  : string :=
  match parts with
  | [] => opening ++ closing
  | _ =>
      if Str.is_empty gap then opening ++ join "," parts ++ closing
      else
        let stepback := indent in
        let indent' := indent ++ gap in
        opening ++ Str.nl ++ indent'
        ++ join ("," ++ Str.nl ++ indent') parts
        ++ Str.nl ++ stepback ++ closing
  end.

(** SerializeJSONProperty for a value that is not [undefined]; an
    [undefined] array element prints as [null], an [undefined] property
    is left out. *)
Fixpoint serialize (gap indent : string) (v : JsValue) {struct v} : string :=
  match v with
  | JUndefined | JNull => "null"
  | JBool true => "true"
  | JBool false => "false"
  | JNum t => if t =? "NaN" then "null" else t
  | JStr s => Str.json_quote s
  | JArr items =>
      wrap "[" "]" gap indent
        ((fix each (l : list JsValue) : list string :=
            match l with
            | [] => []
            | x :: r => serialize gap (indent ++ gap) x :: each r
            end) items)
  | JObj fields =>
      wrap "{" "}" gap indent
        ((fix each (l : list (string * JsValue)) : list string :=
            match l with
            | [] => []
            | (_, JUndefined) :: r => each r
            | (k, x) :: r =>
                (Str.json_quote k ++ ":"
                 ++ (if Str.is_empty gap then "" else " ")
                 ++ serialize gap (indent ++ gap) x) :: each r
            end) fields)
  end.

(** [JSON.stringify(v)]. *)
Definition stringify (v : JsValue) : string := serialize "" "" v.

(** [JSON.stringify(v, replacer, 2)] with a replacer that leaves the
    values of this program alone. *)
Definition stringify2 (v : JsValue) : string := serialize "  " "" v.

End JSON.

(** ** Effects *)

(** A request handed to [fetch]. *)
Record HttpRequest : Type := mkRequest {
  req_url : string;
  req_method : string;
  req_headers : list (string * string);
  req_body : string
}.

(** What the route does to the outside world, and what the provider does
    to an open call, in the order it happens. *)
Inductive Event : Type :=
| ESetTimeout (ms : N)                       (* setTimeout(abort, ms) *)
| EClearTimeout                              (* clearTimeout(timeoutId) *)
| EFetch (r : HttpRequest)                   (* the HTTP call is issued *)
| EResponse (status : N)                     (* the provider's response arrives *)
| ENetworkError (e : JsError)                (* the call fails on its own *)
| EAbort                                     (* the timer runs controller.abort() *)
| EConsoleError (label : string) (e : JsError)
| EResJson (status : N) (body : JsValue)     (* res.status(status).json(body) *)
| ENext (e : JsError).                       (* next(e) *)

(** How an awaited computation ends.  [Pending]: the promise never
    settles, so nothing after the [await] runs. *)
Inductive Outcome (A : Type) : Type :=
| Returns (a : A)
| Throws (e : JsError)
| Pending.
Arguments Returns {A} a.
Arguments Throws {A} e.
Arguments Pending {A}.

(** A computation: the events it logs and how it ends. *)
Definition M (A : Type) : Type := (list Event * Outcome A)%type.

Definition ret {A} (a : A) : M A := ([], Returns a).
Definition throw {A} (e : JsError) : M A := ([], Throws e).
Definition emit (ev : Event) : M unit := ([ev], Returns tt).
(** [await p] for a promise that settles as [p]. *)
Definition await {A} (p : Outcome A) : M A := ([], p).

Definition bind {A B} (m : M A) (k : A -> M B) : M B :=
  match m with
  | (log, Returns a) => let (log', o) := k a in ((log ++ log')%list, o)
  | (log, Throws e) => (log, Throws e)
  | (log, Pending) => (log, Pending)
  end.

(** [try { m } catch (e) { handler e }]. *)
Definition try_catch {A} (m : M A) (handler : JsError -> M A) : M A :=
  match m with
  | (log, Throws e) => let (log', o) := handler e in ((log ++ log')%list, o)
  | settled => settled
  end.

Declare Scope js_scope.
Delimit Scope js_scope with js.
Notation "x <- m ;; k" := (bind m (fun x => k))
  (at level 61, m at next level, right associativity) : js_scope.
Notation "m ;; k" := (bind m (fun _ => k))
  (at level 61, right associativity) : js_scope.
Local Open Scope js_scope.

Definition events {A} (m : M A) : list Event := fst m.
Definition outcome {A} (m : M A) : Outcome A := snd m.

Definition console_error (label : string) (e : JsError) : M unit :=
  emit (EConsoleError label e).

(** ** The collaborators *)

(** A response of the provider, as node-fetch hands it over once the
    headers are in: the body is read afterwards, by [text()] or [json()],
    and either read may fail or never end. *)
Record HttpResponse : Type := mkResponse {
  status : N;
  statusText : string;
  text : Outcome string;
  json : Outcome JsValue
}.

(** [response.ok]. *)
Definition ok (r : HttpResponse) : bool :=
  ((200 <=? status r) && (status r <=? 299))%N.

(** What the provider does with a call: answer after [ms] milliseconds,
    break the connection after [ms] milliseconds, or stay silent. *)
Inductive ProviderBehaviour : Type :=
| Responds (ms : N) (r : HttpResponse)
| Fails (ms : N) (e : JsError)
| Silent.

Record Env : Type := mkEnv {
  (** [process.env]. *)
  process_env : string -> option string;
  (** The provider behind each request. *)
  provider : HttpRequest -> ProviderBehaviour;
  (** Whether [res.status(status).json(body)] throws.  Express does not
      throw on these calls; the handler's nested [catch] blocks are
      written for a response object that may. *)
  res_json_throws : N -> JsValue -> option JsError
}.

(** The rejection of an aborted node-fetch call. *)
Definition AbortError : JsError :=
  mkError "AbortError" "The user aborted a request.".

(** The rejection of [fetch(undefined, ...)]: no request is built.  The
    text of the message differs between node-fetch releases. *)
Definition InvalidUrl : JsError := TypeError "Invalid URL".

(** [fetch(url, { method: 'POST', headers, body, signal })] where the
    signal is aborted [abort_after] milliseconds after the call.  A
    response that is due at the very millisecond of the abort loses.
    The URL and the header values are taken to be texts node-fetch
    accepts ([http_url] and [header_text] below describe such texts); a
    text it refuses makes it reject before anything is sent, like the
    absent URL here. *)
Definition fetch (env : Env) (url : option string)
    (headers : list (string * string)) (body : string) (abort_after : N)
  : M HttpResponse :=
  match url with
  | None => throw InvalidUrl
  | Some u =>
      let request := mkRequest u "POST" headers body in
      emit (EFetch request) ;;
      match provider env request with
      | Responds ms r =>
          if (ms <? abort_after)%N then emit (EResponse (status r)) ;; ret r
          else emit EAbort ;; throw AbortError
      | Fails ms e =>
          if (ms <? abort_after)%N then emit (ENetworkError e) ;; throw e
          else emit EAbort ;; throw AbortError
      | Silent => emit EAbort ;; throw AbortError
      end
  end.

(** [res.status(status).json(body)]; [res.json(body)] is the case
    [status = 200]. *)
Definition res_json (env : Env) (status : N) (body : JsValue) : M unit :=
  emit (EResJson status body) ;;
  match res_json_throws env status body with
  | Some e => throw e
  | None => ret tt
  end.

Definition next (e : JsError) : M unit := emit (ENext e).

(** ** Property access *)

(** [v.key] for a key that none of the built-in prototypes defines (the
    program reads [output], [generated_text] and [text]): reading from
    [undefined] or [null] throws, an object answers with its own
    property, everything else with [undefined]. *)
Definition get_prop (v : JsValue) (key : string) : M JsValue :=
  match v with
  | JUndefined | JNull =>
      throw (TypeError ("Cannot read properties of " ++ parsedType v
                        ++ " (reading '" ++ key ++ "')"))
  | JObj fields =>
      match own_property fields key with
      | Some x => ret x
      | None => ret JUndefined
      end
  | _ => ret JUndefined
  end.

(** [v?.key]. *)
Definition get_prop_opt (v : JsValue) (key : string) : M JsValue :=
  match v with
  | JUndefined | JNull => ret JUndefined
  | _ => get_prop v key
  end.

(** [v.trim()]: only a string has the method; a JSON object may own a
    property [trim], which is never a function. *)
Definition call_trim (name : string) (v : JsValue) : M string :=
  match v with
  | JStr s => ret (Str.trim s)
  | JUndefined | JNull =>
      throw (TypeError ("Cannot read properties of " ++ parsedType v
                        ++ " (reading 'trim')"))
  | _ => throw (TypeError (name ++ ".trim is not a function"))
  end.

(** ** The model registry *)

Record ModelEndpoint : Type := mkEndpoint {
  url : string;
  headers : list (string * string);
  transform : JsValue -> M JsValue
}.

(** [process.env.NAME || fallback]: an unset or empty variable is falsy. *)
Definition env_or (penv : string -> option string) (name fallback : string)
  : string :=
  match penv name with
  | Some v => if Str.is_empty v then fallback else v
  | None => fallback
  end.

(** [${process.env.NAME}] inside a template literal. *)
Definition env_text (penv : string -> option string) (name : string) : string :=
  match penv name with
  | Some v => v
  | None => "undefined"
  end.

(** The three [transform] closures of the registry. *)
Definition transform_codellama (response : JsValue) : M JsValue :=
  output <- get_prop response "output" ;;
  ret (js_or output (JStr "")).

Definition transform_starcoder (response : JsValue) : M JsValue :=
  generated_text <- get_prop response "generated_text" ;;
  ret (js_or generated_text (JStr "")).

Definition transform_wizard_coder (response : JsValue) : M JsValue :=
  output <- get_prop response "output" ;;
  text <- get_prop_opt output "text" ;;
  ret (js_or text (JStr "")).

(** The own properties of [modelEndpoints], built when the module loads. *)
Definition modelEndpoints (penv : string -> option string)
  : list (string * ModelEndpoint) :=
  [ ("codellama",
     mkEndpoint
       (env_or penv "CODELLAMA_API_URL" "https://api.replicate.com/v1/predictions")
       [ ("Authorization", "Token " ++ env_text penv "REPLICATE_API_KEY");
         ("Content-Type", "application/json") ]
       transform_codellama);
    ("starcoder",
     mkEndpoint
       (env_or penv "STARCODER_API_URL"
          "https://api.huggingface.co/models/bigcode/starcoder")
       [ ("Authorization", "Bearer " ++ env_text penv "HUGGINGFACE_API_KEY");
         ("Content-Type", "application/json") ]
       transform_starcoder);
    ("wizard-coder",
     mkEndpoint
       (env_or penv "WIZARD_CODER_API_URL" "https://api.together.xyz/inference")
       [ ("Authorization", "Bearer " ++ env_text penv "TOGETHER_API_KEY");
         ("Content-Type", "application/json") ]
       transform_wizard_coder) ].

(** The properties every object literal inherits from [Object.prototype]. *)
Definition object_prototype_keys : list string :=
  [ "constructor"; "__proto__"; "hasOwnProperty"; "isPrototypeOf";
    "propertyIsEnumerable"; "toLocaleString"; "toString"; "valueOf";
    "__defineGetter__"; "__defineSetter__"; "__lookupGetter__";
    "__lookupSetter__" ].

(** What [modelEndpoints[model]] evaluates to when it is not [undefined]:
    an endpoint of the registry, or a member inherited from
    [Object.prototype] (a function or the prototype itself: truthy, and
    without [url], [headers] or [transform]). *)
Inductive Member : Type :=
| Own (endpoint : ModelEndpoint)
| Inherited.

Fixpoint own_endpoint (registry : list (string * ModelEndpoint)) (model : string)
  : option ModelEndpoint :=
  match registry with
  | [] => None
  | (k, ep) :: rest => if k =? model then Some ep else own_endpoint rest model
  end.

Definition inherited (key : string) : bool :=
  existsb (String.eqb key) object_prototype_keys.

(** [modelEndpoints[model]]; [None] is [undefined]. *)
Definition lookup (registry : list (string * ModelEndpoint)) (model : string)
  : option Member :=
  match own_endpoint registry model with
  | Some ep => Some (Own ep)
  | None => if inherited model then Some Inherited else None
  end.

(** [endpoint.url], [endpoint.headers] and [endpoint.transform(data)]. *)
Definition member_url (m : Member) : option string :=
  match m with Own ep => Some (url ep) | Inherited => None end.

Definition member_headers (m : Member) : list (string * string) :=
  match m with Own ep => headers ep | Inherited => [] end.

Definition member_transform (m : Member) (data : JsValue) : M JsValue :=
  match m with
  | Own ep => transform ep data
  | Inherited => throw (TypeError "endpoint.transform is not a function")
  end.

(** ** generateCode *)

Definition TIMEOUT_MS : N := 30000.

(** The instruction wrapped around the prompt. *)
Definition instruction (language prompt : string) : string :=
  "Write " ++ language ++ " code for: " ++ prompt ++ Str.nl
  ++ "Only respond with code, no explanations.".

(** The object handed to [JSON.stringify] for the request body. *)
Definition request_payload (language prompt : string) : JsValue :=
  JObj [ ("prompt", JStr (instruction language prompt));
         ("max_new_tokens", JNum "1000");
         ("temperature", JNum "0.2");
         ("top_p", JNum "0.95") ].

Definition unsupported_model (model : string) : JsError :=
  Error ("Unsupported model: " ++ model).

Definition provider_error (r : HttpResponse) (errorText : string) : JsError :=
  Error ("API request failed (" ++ Str.of_N (status r) ++ "): " ++ errorText).

Definition empty_result : JsError := Error "Empty response from AI model".

Definition timeout_error (model : string) : JsError :=
  Error ("Request to " ++ model ++ " API timed out after 30 seconds").

(** [await response.text().catch(() => response.statusText)]. *)
Definition text_or_statusText (r : HttpResponse) : M string :=
  try_catch (await (text r)) (fun _ => ret (statusText r)).

(** What [generateCode] does with a response (lines 73-87): clear the
    timer, turn an error status into an exception, parse and transform
    the body, refuse an empty result. *)
Definition handle_response (endpoint : Member) (response : HttpResponse)
  : M JsValue :=
  emit EClearTimeout ;;
  (if negb (ok response)
   then errorText <- text_or_statusText response ;;
        throw (provider_error response errorText)
   else ret tt) ;;
  data <- await (json response) ;;
  result <- member_transform endpoint data ;;
  (if negb (truthy result) then throw empty_result
   else trimmed <- call_trim "result" result ;;
        if Str.is_empty trimmed then throw empty_result
        else ret result).

Definition generateCode (env : Env) (prompt language model : string)
  : M JsValue :=
  match lookup (modelEndpoints (process_env env)) model with
  | None => throw (unsupported_model model)
  | Some endpoint =>
      try_catch
        (emit (ESetTimeout TIMEOUT_MS) ;;
         try_catch
           (response <-
              fetch env (member_url endpoint) (member_headers endpoint)
                (JSON.stringify (request_payload language prompt)) TIMEOUT_MS ;;
            handle_response endpoint response)
           (fun fetchError =>
              if err_name fetchError =? "AbortError"
              then throw (timeout_error model)
              else throw fetchError))
        (fun error =>
           console_error ("Error generating code with " ++ model ++ ":") error ;;
           throw error)
  end.

(** ** generateCodeSchema *)

(** [z.infer<typeof generateCodeSchema>]. *)
Record GenerateCodeRequest : Type := mkJob {
  prompt : string;
  language : string;
  model : string
}.

(** The part of zod (release 3) that [generateCodeSchema] uses: each
    schema either accepts a value or reports issues, an object schema
    visits its keys in order and gathers the issues of all of them, and
    a [ZodError] prints its issues, indented by two, as its message. *)
Module Zod.

Definition Parsed (A : Type) : Type := (A + list JsValue)%type.

Definition issue_path (keys : list string) : JsValue := JArr (map JStr keys).

Definition invalid_type (expected : string) (received : JsValue)
    (path : list string) : JsValue :=
  JObj [ ("code", JStr "invalid_type");
         ("expected", JStr expected);
         ("received", JStr (parsedType received));
         ("path", issue_path path);
         ("message",
          JStr (match received with
                | JUndefined => "Required"
                | _ => "Expected " ++ expected ++ ", received "
                       ++ parsedType received
                end)) ].

Definition too_small (minimum : N) (message : string) (path : list string)
  : JsValue :=
  JObj [ ("code", JStr "too_small");
         ("minimum", JNum (Str.of_N minimum));
         ("type", JStr "string");
         ("inclusive", JBool true);
         ("exact", JBool false);
         ("message", JStr message);
         ("path", issue_path path) ].

(** [z.string().min(minimum, message)]. *)
Definition string_min (minimum : N) (message : string) (path : list string)
    (v : JsValue) : Parsed string :=
  match v with
  | JStr s =>
      if (N.of_nat (String.length s) <? minimum)%N
      then inr [too_small minimum message path]
      else inl s
  | _ => inr [invalid_type "string" v path]
  end.

(** [z.string().optional().default(fallback)]. *)
Definition string_optional_default (fallback : string) (path : list string)
    (v : JsValue) : Parsed string :=
  match v with
  | JUndefined => inl fallback
  | JStr s => inl s
  | _ => inr [invalid_type "string" v path]
  end.

Definition issues_of {A} (p : Parsed A) : list JsValue :=
  match p with inl _ => [] | inr issues => issues end.

(** [error.message] of [new ZodError(issues)]. *)
Definition ZodError (issues : list JsValue) : JsError :=
  mkError "ZodError" (JSON.stringify2 (JArr issues)).

End Zod.

(** [data[key]] on the request body, for the keys of the schema. *)
Definition field (fields : list (string * JsValue)) (key : string) : JsValue :=
  match own_property fields key with
  | Some v => v
  | None => JUndefined
  end.

(** The issues of [generateCodeSchema] on a value, or the job it parses to. *)
Definition generateCodeSchema (input : JsValue)
  : Zod.Parsed GenerateCodeRequest :=
  match input with
  | JObj fields =>
      let p := Zod.string_min 1 "Prompt is required" ["prompt"]
                 (field fields "prompt") in
      let l := Zod.string_optional_default "javascript" ["language"]
                 (field fields "language") in
      let m := Zod.string_optional_default "codellama" ["model"]
                 (field fields "model") in
      match p, l, m with
      | inl prompt, inl language, inl model => inl (mkJob prompt language model)
      | _, _, _ =>
          inr (Zod.issues_of p ++ Zod.issues_of l ++ Zod.issues_of m)%list
      end
  | _ => inr [Zod.invalid_type "object" input []]
  end.

(** [generateCodeSchema.parse(input)]. *)
Definition parse (input : JsValue) : M GenerateCodeRequest :=
  match generateCodeSchema input with
  | inl job => ret job
  | inr issues => throw (Zod.ZodError issues)
  end.

(** ** generateCodeHandler *)

(** [message || fallback] on strings. *)
Definition message_or (message fallback : string) : string :=
  if Str.is_empty message then fallback else message.

Definition success_body (code : JsValue) (language : string) : JsValue :=
  JObj [ ("code", code); ("language", JStr language) ].

Definition generation_failure_body (genError : JsError) (model : string)
  : JsValue :=
  JObj [ ("error", JStr "Failed to generate code");
         ("message",
          JStr (message_or (err_message genError) "Unknown error occurred"));
         ("model", JStr model) ].

Definition validation_failure_body (validationError : JsError) : JsValue :=
  JObj [ ("error", JStr "Invalid request data");
         ("message",
          JStr (message_or (err_message validationError) "Validation failed")) ].

(** The innermost [try] (lines 107-117): generate, then write the
    result; any exception in there is reported as a failed generation. *)
Definition generation_block (env : Env) (job : GenerateCodeRequest) : M unit :=
  try_catch
    (code <- generateCode env (prompt job) (language job) (model job) ;;
     res_json env 200 (success_body code (language job)))
    (fun genError =>
       console_error "Code generation error:" genError ;;
       res_json env 500 (generation_failure_body genError (model job))).

(** The middle [try] (lines 103-124): validate, then run the innermost
    block; any exception that leaves it is reported as invalid input. *)
Definition validation_block (env : Env) (body : JsValue) : M unit :=
  try_catch
    (job <- parse body ;;
     generation_block env job)
    (fun validationError =>
       console_error "Validation error:" validationError ;;
       res_json env 400 (validation_failure_body validationError)).

(** The handler of [POST /generate-code] on a request whose body is
    [body]: the outermost [try] hands what is left to [next]. *)
Definition generateCodeHandler (env : Env) (body : JsValue) : M unit :=
  try_catch
    (validation_block env body)
    (fun error =>
       console_error "Unexpected error in generateCodeHandler:" error ;;
       next error).

(** The responses the handler wrote, oldest first. *)
Fixpoint responses (log : list Event) : list (N * JsValue) :=
  match log with
  | [] => []
  | EResJson status body :: rest => (status, body) :: responses rest
  | _ :: rest => responses rest
  end.

(** The requests that went out to a provider. *)
Fixpoint requests (log : list Event) : list HttpRequest :=
  match log with
  | [] => []
  | EFetch r :: rest => r :: requests rest
  | _ :: rest => requests rest
  end.

(** Whether a provider call is still open at the end of a log. *)
Fixpoint in_flight (open : bool) (log : list Event) : bool :=
  match log with
  | [] => open
  | EFetch _ :: rest => in_flight true rest
  | (EResponse _ | ENetworkError _ | EAbort) :: rest => in_flight false rest
  | _ :: rest => in_flight open rest
  end.

(** [m] writes [(status, body)] as its first response; when that write
    does not throw it is the only response and [m] returns. *)
Definition responds_with (env : Env) (m : M unit) (status : N) (body : JsValue)
  : Prop :=
  hd_error (responses (events m)) = Some (status, body) /\
  (res_json_throws env status body = None ->
   responses (events m) = [(status, body)] /\ outcome m = Returns tt).

(** [m] run after the events of [log]. *)
Definition after {A} (log : list Event) (m : M A) : M A :=
  ((log ++ events m)%list, outcome m).

(** Kinds of events. *)
Definition is_response (ev : Event) : bool :=
  match ev with EResJson _ _ => true | _ => false end.

Definition is_next (ev : Event) : bool :=
  match ev with ENext _ => true | _ => false end.

Definition is_reply (ev : Event) : bool := is_response ev || is_next ev.

Definition is_fetch (ev : Event) : bool :=
  match ev with EFetch _ => true | _ => false end.

(** [m] logs no event of kind [P]. *)
Definition avoids {A} (P : Event -> bool) (m : M A) : Prop :=
  Forall (fun ev => P ev = false) (events m).

(** ** Sample collaborators *)

Definition no_variables : string -> option string := fun _ => None.

(** An environment in which every request meets the same behaviour and
    every response write goes through. *)
Definition plain_env (b : ProviderBehaviour) : Env :=
  mkEnv no_variables (fun _ => b) (fun _ _ => None).

(** A response with status 200 whose body parses to [data]. *)
Definition json_response (data : JsValue) : HttpResponse :=
  mkResponse 200 "OK" (Returns (JSON.stringify data)) (Returns data).

(** A response with an error status and a plain-text body. *)
Definition error_response (code : N) (reason body : string) : HttpResponse :=
  mkResponse code reason (Returns body) (Throws (mkError "SyntaxError" body)).

(** An environment whose response object throws on every write. *)
Definition broken_res_env (b : ProviderBehaviour) (e : JsError) : Env :=
  mkEnv no_variables (fun _ => b) (fun _ _ => Some e).

Definition job_body (prompt : string) (rest : list (string * JsValue)) : JsValue :=
  JObj (("prompt", JStr prompt) :: rest).

(** ** Vocabulary of the statements *)

(** The request [generateCode] sends to an endpoint. *)
Definition outbound (ep : ModelEndpoint) (language prompt : string)
  : HttpRequest :=
  mkRequest (url ep) "POST" (headers ep)
    (JSON.stringify (request_payload language prompt)).

(** The call is still open when the timer fires: the provider has
    neither answered nor broken the connection within the 30 seconds. *)
Definition unanswered (b : ProviderBehaviour) : Prop :=
  match b with
  | Responds ms _ | Fails ms _ => (TIMEOUT_MS < ms)%N
  | Silent => True
  end.

(** [t] is the text of the body of [r], or its status text when reading
    the body fails. *)
Definition error_text (r : HttpResponse) (t : string) : Prop :=
  text r = Returns t \/ (exists e, text r = Throws e /\ t = statusText r).

(** The label of the log line [generateCode] writes before rethrowing. *)
Definition log_label (model : string) : string :=
  "Error generating code with " ++ model ++ ":".

(** The tail of a run of the handler from the 400 write on. *)
Definition report_invalid (env : Env) (e : JsError) : M unit :=
  ([EConsoleError "Validation error:" e;
    EResJson 400 (validation_failure_body e)],
   match res_json_throws env 400 (validation_failure_body e) with
   | Some e' => Throws e'
   | None => Returns tt
   end).

(** The tail of a run from the 500 write on: when the write throws, the
    enclosing [catch] goes on with the 400 write. *)
Definition report_failure (env : Env) (model : string) (e : JsError) : M unit :=
  after [EConsoleError "Code generation error:" e;
         EResJson 500 (generation_failure_body e model)]
    match res_json_throws env 500 (generation_failure_body e model) with
    | Some e' => report_invalid env e'
    | None => ret tt
    end.

(** The tail of a run from the 200 write on. *)
Definition report_success (env : Env) (job : GenerateCodeRequest)
    (code : JsValue) : M unit :=
  after [EResJson 200 (success_body code (language job))]
    match res_json_throws env 200 (success_body code (language job)) with
    | Some e => report_failure env (model job) e
    | None => ret tt
    end.

(** ** Sample requests and responses *)

Definition reverse_request : JsValue :=
  JObj [ ("prompt", JStr "reverse a string");
         ("language", JStr "python");
         ("model", JStr "codellama") ].

Definition reverse_code : string := "def reverse(s): return s[::-1]".

Definition reverse_env : Env :=
  plain_env (Responds 0 (json_response (JObj [("output", JStr reverse_code)]))).

Definition starcoder_request : JsValue :=
  JObj [ ("prompt", JStr "sum a list"); ("model", JStr "starcoder") ].

Definition starcoder_env : Env :=
  plain_env
    (Responds 1200
       (json_response (JObj [("generated_text", JStr "const sum = xs => 0;")]))).

Definition empty_prompt_request : JsValue := JObj [("prompt", JStr "")].

(** A name between double quotes, and lines joined by line feeds. *)
Definition quoted (s : string) : string := Str.dquote ++ s ++ Str.dquote.

Definition lines (ls : list string) : string := String.concat Str.nl ls.

(** The message of the [ZodError] for an empty prompt, as zod 3 prints it. *)
Definition prompt_required_text : string :=
  lines
    [ "[";
      "  {";
      "    " ++ quoted "code" ++ ": " ++ quoted "too_small" ++ ",";
      "    " ++ quoted "minimum" ++ ": 1,";
      "    " ++ quoted "type" ++ ": " ++ quoted "string" ++ ",";
      "    " ++ quoted "inclusive" ++ ": true,";
      "    " ++ quoted "exact" ++ ": false,";
      "    " ++ quoted "message" ++ ": " ++ quoted "Prompt is required" ++ ",";
      "    " ++ quoted "path" ++ ": [";
      "      " ++ quoted "prompt";
      "    ]";
      "  }";
      "]" ].

Definition slow_env : Env :=
  plain_env (Responds 45000 (json_response (JObj [("output", JStr "late")]))).

Definition codellama_endpoint : ModelEndpoint :=
  mkEndpoint "https://api.replicate.com/v1/predictions"
    [("Authorization", "Token undefined"); ("Content-Type", "application/json")]
    transform_codellama.

Definition prompt_only_request : JsValue := JObj [("prompt", JStr "fizzbuzz")].

Definition default_job : GenerateCodeRequest :=
  mkJob "fizzbuzz" "javascript" "codellama".

Definition unavailable : HttpResponse :=
  error_response 503 "Service Unavailable" "upstream overloaded".

Definition unavailable_env : Env := plain_env (Responds 80 unavailable).

Definition constructor_request : JsValue :=
  JObj [("prompt", JStr "fizzbuzz"); ("model", JStr "constructor")].

Definition unknown_model_request : JsValue :=
  JObj [("prompt", JStr "fizzbuzz"); ("model", JStr "unknown-model")].

Definition blank_env : Env :=
  plain_env
    (Responds 80 (json_response (JObj [("output", JStr ("  " ++ Str.nl))]))).

Definition failing_read : HttpResponse :=
  mkResponse 502 "Bad Gateway" (Throws (mkError "FetchError" "socket hang up"))
    (Throws (mkError "FetchError" "socket hang up")).

(** [input.key] for a key of the request schema or of a provider body:
    the own property of an object, [undefined] on anything else that is
    not [null]. *)
Definition property (input : JsValue) (key : string) : JsValue :=
  match input with
  | JObj fields => field fields key
  | _ => JUndefined
  end.

(** The input is accepted by the schema. *)
Definition accepted (input : JsValue) : Prop :=
  exists job, generateCodeSchema input = inl job.

(** The prompt of the input is a string of length at least 1. *)
Definition has_prompt (input : JsValue) : Prop :=
  exists s, property input "prompt" = JStr s /\ 1 <= String.length s.

(** A property that is absent or a string. *)
Definition string_or_absent (v : JsValue) : Prop :=
  v = JUndefined \/ exists s, v = JStr s.

(** The value a defaulted key ends with: the string given, or the
    default when the key is absent. *)
Definition filled (fallback : string) (v : JsValue) (result : string) : Prop :=
  (v = JUndefined -> result = fallback) /\ (forall s, v = JStr s -> result = s).

Definition numeric_language_request : JsValue :=
  JObj [("prompt", JStr "hi"); ("language", JNum "42")].

Definition absent_or_null (v : JsValue) : Prop := v = JUndefined \/ v = JNull.

(** The field of a provider body that the transform of a model reads:
    [output] for codellama, [generated_text] for starcoder and
    [output.text] for wizard-coder. *)
Definition field_read (model : string) (data : JsValue) : JsValue :=
  if model =? "codellama" then property data "output"
  else if model =? "starcoder" then property data "generated_text"
  else property (property data "output") "text".

Definition null_body_env : Env := plain_env (Responds 0 (json_response JNull)).

Definition write_failed : JsError := Error "write after end".

Definition stalled_body : HttpResponse := mkResponse 200 "OK" Pending Pending.

Definition refused : JsError :=
  mkError "FetchError" "request failed, reason: connect ECONNREFUSED".

(** ** Vocabulary of the further properties *)

(** The responses whose write went through, oldest first. *)
Fixpoint delivered (env : Env) (log : list Event) : list (N * JsValue) :=
  match log with
  | [] => []
  | EResJson status body :: rest =>
      match res_json_throws env status body with
      | None => (status, body) :: delivered env rest
      | Some _ => delivered env rest
      end
  | _ :: rest => delivered env rest
  end.

(** The exceptions handed to [next], oldest first. *)
Fixpoint forwarded (log : list Event) : list JsError :=
  match log with
  | [] => []
  | ENext e :: rest => e :: forwarded rest
  | _ :: rest => forwarded rest
  end.

(** The provider answers the request of a registered model before the
    timer fires. *)
Definition answered_in_time (env : Env) (p l m : string) (r : HttpResponse)
  : Prop :=
  exists ep ms,
    own_endpoint (modelEndpoints (process_env env)) m = Some ep
    /\ provider env (outbound ep l p) = Responds ms r
    /\ (ms < TIMEOUT_MS)%N.

(** The read that [generateCode] makes of the body of [r] never ends. *)
Definition body_stalls (r : HttpResponse) : Prop :=
  (ok r = false /\ text r = Pending) \/ (ok r = true /\ json r = Pending).

(** The job as the object a client would send to get it. *)
Definition job_object (job : GenerateCodeRequest) : JsValue :=
  JObj [ ("prompt", JStr (prompt job));
         ("language", JStr (language job));
         ("model", JStr (model job)) ].






Definition chunked_output_env : Env :=
  plain_env
    (Responds 10 (json_response (JObj [("output", JArr [JStr "def f():"; JStr " pass"])]))).



(** ** Texts node-fetch takes

    node-fetch rejects, before it sends anything, a URL that is not an
    absolute http(s) URL and a header value with a character that may
    not stand in a header.  The texts below pass both checks in every
    release; the registry's own URLs are among them. *)
















(** * The request log and the development logger (server/index.ts,
      server/vite.ts) *)

From Stdlib Require Import PeanoNat.

(** What reaches the console. *)
Inductive ConsoleCall : Type :=
| ConsoleLog (message : string)
| ConsoleWarn (message : string)
| ConsoleErrorLine (message : string)
| StdoutWrite (chunk : string).

(** [log(message)] of vite.ts: the call of [console.log] it makes. *)
Definition log (message : string) : ConsoleCall :=
  ConsoleLog ("[server] " ++ message).

(** [Date.now() - start], printed: both readings are whole milliseconds,
    and the clock may have been set back in between. *)
Definition duration_text (start finish : N) : string :=
  if (start <=? finish)%N then Str.of_N (finish - start)
  else "-" ++ Str.of_N (start - finish).

(** The line before it is cut (index.ts, lines 42-45). *)
Definition full_log_line (method path : string) (statusCode start finish : N)
    (capturedJsonResponse : JsValue) : string :=
  let logLine :=
    method ++ " " ++ path ++ " " ++ Str.of_N statusCode ++ " in "
    ++ duration_text start finish ++ "ms" in
  if truthy capturedJsonResponse
  then logLine ++ " :: " ++ JSON.stringify capturedJsonResponse
  else logLine.

(** [logLine.slice(0, 79) + ellipsis] when [logLine.length > 80]. *)
Definition cut_log_line (ellipsis logLine : string) : string :=
  if Nat.ltb 80 (String.length logLine) then substring 0 79 logLine ++ ellipsis
  else logLine.

(** The listener of [finish] that the logging middleware installs
    (index.ts, lines 39-53), run when the response of a request has been
    sent: what it logs.  [ellipsis] is the string the source appends to a
    cut line; it is three code units long, one of them above 255, so it
    is kept as a parameter. *)
Definition on_finish (ellipsis method path : string) (statusCode start finish : N)
    (capturedJsonResponse : JsValue) : list ConsoleCall :=
  if prefix "/api" path
  then [log (cut_log_line ellipsis
               (full_log_line method path statusCode start finish
                  capturedJsonResponse))]
  else [].

(** The two flags of [viteLogger]. *)
Record ViteLogger : Type := mkLogger {
  hasWarned : bool;
  hasErrorLogged : bool
}.

Definition fresh_logger : ViteLogger := mkLogger false false.

(** The [options] argument of a logger method: absent, or an object whose
    [clear] is absent or a boolean.  [options?.clear] is truthy only for
    [{ clear: true }]. *)
Definition clear_requested (options : option (option bool)) : bool :=
  match options with
  | Some (Some true) => true
  | _ => false
  end.

(** [viteLogger.info]. *)
Definition viteLogger_info (msg : string) (st : ViteLogger)
  : list ConsoleCall * ViteLogger :=
  ([ConsoleLog ("[vite] " ++ msg)], st).

(** [viteLogger.warn]. *)
Definition viteLogger_warn (msg : string) (options : option (option bool))
    (st : ViteLogger) : list ConsoleCall * ViteLogger :=
  let st := if clear_requested options
            then mkLogger false (hasErrorLogged st) else st in
  if negb (hasWarned st)
  then ([ConsoleWarn ("[vite] " ++ msg)], mkLogger true (hasErrorLogged st))
  else ([], st).

(** [viteLogger.error]. *)
Definition viteLogger_error (msg : string) (options : option (option bool))
    (st : ViteLogger) : list ConsoleCall * ViteLogger :=
  let st := if clear_requested options
            then mkLogger (hasWarned st) false else st in
  if negb (hasErrorLogged st)
  then ([ConsoleErrorLine ("[vite] " ++ msg)], mkLogger (hasWarned st) true)
  else ([], st).

(** [viteLogger.clearScreen]. *)
Definition viteLogger_clearScreen (st : ViteLogger)
  : list ConsoleCall * ViteLogger :=
  ([StdoutWrite (Str.chr 27 ++ "c")], st).

(** [hay.includes(needle)]. *)
Fixpoint includes (hay needle : string) : bool :=
  prefix needle hay
  || match hay with
     | "" => false
     | String _ rest => includes rest needle
     end.

(** The messages after which [customLogger.error] returns early. *)
Definition compilation_error (msg : string) : bool :=
  includes msg "Could not resolve"
  || includes msg "Failed to compile"
  || includes msg "syntax error"
  || includes msg "module not found".

(** The [error] method of the [customLogger] handed to Vite
    (vite.ts, lines 70-81). *)
Definition customLogger_error (msg : string) (options : option (option bool))
    (st : ViteLogger) : list ConsoleCall * ViteLogger :=
  let (out, st') := viteLogger_error msg options st in
  if compilation_error msg then (out, st')
  else ((out ++ [ConsoleErrorLine ("Critical Vite error: " ++ msg)])%list, st').

(** A call of a logger method: its message and its options. *)
Definition LoggerCall : Type := (string * option (option bool))%type.

(** A sequence of calls of one method, threading the flags. *)
Fixpoint run_logger
    (method : string -> option (option bool) -> ViteLogger
              -> list ConsoleCall * ViteLogger)
    (calls : list LoggerCall) (st : ViteLogger)
  : list ConsoleCall * ViteLogger :=
  match calls with
  | [] => ([], st)
  | (msg, options) :: rest =>
      let (out, st') := method msg options st in
      let (out', st'') := run_logger method rest st' in
      ((out ++ out')%list, st'')
  end.

(** The calls of a sequence that ask for [clear]. *)
Definition clearing (calls : list LoggerCall) : list LoggerCall :=
  filter (fun c => clear_requested (snd c)) calls.

(** What [customLogger.error] adds for a message that is not a
    compilation error. *)
Definition critical_line (msg : string) : list ConsoleCall :=
  if compilation_error msg then []
  else [ConsoleErrorLine ("Critical Vite error: " ++ msg)].

(** The lines [viteLogger.warn] and [viteLogger.error] print for a call. *)
Definition warn_line (c : LoggerCall) : ConsoleCall :=
  ConsoleWarn ("[vite] " ++ fst c).

Definition error_line (c : LoggerCall) : ConsoleCall :=
  ConsoleErrorLine ("[vite] " ++ fst c).

(** * The other routes (server/routes.ts), the storage they call and the
      database client behind it *)

(** ** Computations over any kind of event *)

(** [M] with the kind of event left open: the routes below log database
    statements, which [generateCode] has no use for. *)
Module Run.
Section Over.
Context {E : Type}.

Definition t (A : Type) : Type := (list E * Outcome A)%type.

Definition ret {A} (a : A) : t A := ([], Returns a).
Definition throw {A} (e : JsError) : t A := ([], Throws e).
Definition emit (ev : E) : t unit := ([ev], Returns tt).
Definition await {A} (p : Outcome A) : t A := ([], p).

Definition bind {A B} (m : t A) (k : A -> t B) : t B :=
  match m with
  | (log, Returns a) => let (log', o) := k a in ((log ++ log')%list, o)
  | (log, Throws e) => (log, Throws e)
  | (log, Pending) => (log, Pending)
  end.

Definition try_catch {A} (m : t A) (handler : JsError -> t A) : t A :=
  match m with
  | (log, Throws e) => let (log', o) := handler e in ((log ++ log')%list, o)
  | settled => settled
  end.

Definition events {A} (m : t A) : list E := fst m.
Definition outcome {A} (m : t A) : Outcome A := snd m.

End Over.
Arguments t : clear implicits.
End Run.

Declare Scope run_scope.
Delimit Scope run_scope with run.
Notation "x <- m ;; k" := (Run.bind m (fun x => k))
  (at level 61, m at next level, right associativity) : run_scope.
Notation "m ;; k" := (Run.bind m (fun _ => k))
  (at level 61, right associativity) : run_scope.

(** ** The database client (db.ts) *)

(** [skipDbConnection]. *)
Definition skipDbConnection (penv : string -> option string) : bool :=
  match penv "NODE_ENV" with
  | Some "development" =>
      match penv "SKIP_DB_CONNECTION" with
      | Some "true" => true
      | _ => match penv "DATABASE_URL" with
             | Some "" | None => true
             | Some _ => false
             end
      end
  | _ => false
  end.

(** A statement built with the query builder of drizzle. *)
Inductive DbStatement : Type :=
| SelectFrom (table : string) (filter : option (string * JsValue))
| InsertInto (table : string) (values : JsValue)
| UpdateSet (table : string) (changes : JsValue) (column : string)
    (value : JsValue).

(** The method of [db] a statement starts with. *)
Definition builder (q : DbStatement) : string :=
  match q with
  | SelectFrom _ _ => "select"
  | InsertInto _ _ => "insert"
  | UpdateSet _ _ _ _ => "update"
  end.

(** What the routes do. *)
Inductive RouteEvent : Type :=
| RQuery (q : DbStatement)                        (* the statement is sent *)
| RConsoleError (label : string) (e : JsError)
| RResJson (status : N) (body : JsValue).         (* res.status(status).json(body) *)

(** [db]: the drizzle instance over a pool, whose statements are sent to
    the database and come back with rows, fail or never come back; or
    the object used when the connection is skipped, which has [query]
    and one key per export of the schema, and none of the methods of the
    query builder. *)
Inductive DbClient : Type :=
| Drizzle (database : DbStatement -> Outcome (list JsValue))
| Skipped.

(** Loading db.ts over a database: it throws when [DATABASE_URL] is unset
    or empty and the connection is not skipped; otherwise it exports the
    client, the stand-in when the connection is skipped. *)
Definition load_db (penv : string -> option string)
    (database : DbStatement -> Outcome (list JsValue)) : JsError + DbClient :=
  match penv "DATABASE_URL" with
  | Some "" | None =>
      if skipDbConnection penv then inr Skipped
      else inl (Error "DATABASE_URL must be set. Did you forget to provision a database?")
  | Some _ => inr (if skipDbConnection penv then Skipped else Drizzle database)
  end.

(** [await db.<statement>]. *)
Definition run_statement (db : DbClient) (q : DbStatement)
  : Run.t RouteEvent (list JsValue) :=
  match db with
  | Drizzle database =>
      (Run.emit (RQuery q) ;; Run.await (database q))%run
  | Skipped => Run.throw (TypeError ("db." ++ builder q ++ " is not a function"))
  end.

(** ** The storage (DatabaseStorage) *)

Module Storage.
Local Open Scope run_scope.

(** [const [row] = rows]. *)
Definition first (rows : list JsValue) : JsValue :=
  match rows with
  | [] => JUndefined
  | row :: _ => row
  end.

(** The [catch] every method ends with. *)
Definition failing {A} (label message : string) (error : JsError)
  : Run.t RouteEvent A :=
  Run.emit (RConsoleError label error) ;; Run.throw (Error message).

Definition createAIModel (db : DbClient) (model : JsValue)
  : Run.t RouteEvent JsValue :=
  Run.try_catch
    (rows <- run_statement db (InsertInto "ai_models" model) ;;
     Run.ret (first rows))
    (failing "Error creating AI model:" "Failed to create AI model").

Definition getAllAIModels (db : DbClient) : Run.t RouteEvent (list JsValue) :=
  Run.try_catch
    (run_statement db (SelectFrom "ai_models" None))
    (failing "Error fetching all AI models:" "Failed to fetch AI models").

Definition createPlan (db : DbClient) (plan : JsValue)
  : Run.t RouteEvent JsValue :=
  Run.try_catch
    (rows <- run_statement db (InsertInto "plans" plan) ;;
     Run.ret (first rows))
    (failing "Error creating plan:" "Failed to create subscription plan").

Definition getPlan (db : DbClient) (id : JsValue) : Run.t RouteEvent JsValue :=
  Run.try_catch
    (rows <- run_statement db (SelectFrom "plans" (Some ("id", id))) ;;
     Run.ret (first rows))
    (failing "Error fetching plan:" "Failed to fetch subscription plan").

Definition getAllPlans (db : DbClient) : Run.t RouteEvent (list JsValue) :=
  Run.try_catch
    (run_statement db (SelectFrom "plans" None))
    (failing "Error fetching all plans:" "Failed to fetch subscription plans").

(** [updateUserSubscription(userId, isSubscribed, endDate)]; a [Date] is
    truthy, so [endDate] is spread in whenever it is given. *)
Definition updateUserSubscription (db : DbClient) (userId : JsValue)
    (isSubscribed : bool) (endDate : option JsValue)
  : Run.t RouteEvent unit :=
  Run.try_catch
    (let updateData :=
       JObj (("isSubscribed", JBool isSubscribed)
             :: match endDate with
                | Some d => [("subscriptionEndDate", d)]
                | None => []
                end) in
     _ <- run_statement db (UpdateSet "users" updateData "id" userId) ;;
     Run.ret tt)
    (failing "Error updating user subscription:"
       "Failed to update user subscription").

End Storage.

(** ** The insert schemas (shared/schema.ts) *)

(** More of zod (release 3): numbers, booleans, enums and arrays, with
    paths that may hold array indices. *)
Module ZodTypes.

Definition Schema : Type := list JsValue -> JsValue -> Zod.Parsed JsValue.

Definition invalid_type (expected : string) (received : JsValue)
    (path : list JsValue) : JsValue :=
  JObj [ ("code", JStr "invalid_type");
         ("expected", JStr expected);
         ("received", JStr (parsedType received));
         ("path", JArr path);
         ("message",
          JStr (match received with
                | JUndefined => "Required"
                | _ => "Expected " ++ expected ++ ", received "
                       ++ parsedType received
                end)) ].

Definition too_small (type : string) (minimum : N) (inclusive : bool)
    (message : string) (path : list JsValue) : JsValue :=
  JObj [ ("code", JStr "too_small");
         ("minimum", JNum (Str.of_N minimum));
         ("type", JStr type);
         ("inclusive", JBool inclusive);
         ("exact", JBool false);
         ("message", JStr message);
         ("path", JArr path) ].

(** [z.string().min(minimum)]. *)
Definition string_min (minimum : N) : Schema := fun path v =>
  match v with
  | JStr s =>
      if (N.of_nat (String.length s) <? minimum)%N
      then inr [too_small "string" minimum true
                  ("String must contain at least " ++ Str.of_N minimum
                   ++ " character(s)") path]
      else inl v
  | _ => inr [invalid_type "string" v path]
  end.

(** [z.string()]. *)
Definition str : Schema := fun path v =>
  match v with
  | JStr _ => inl v
  | _ => inr [invalid_type "string" v path]
  end.

(** A number, by its printed text, is greater than zero. *)
Definition positive_text (t : string) : bool :=
  negb (t =? "0") && negb (prefix "-" t) && negb (t =? "NaN").

(** [z.number()]. *)
Definition number : Schema := fun path v =>
  match v with
  | JNum t => if t =? "NaN" then inr [invalid_type "number" v path] else inl v
  | _ => inr [invalid_type "number" v path]
  end.

(** [z.number().positive()]. *)
Definition number_positive : Schema := fun path v =>
  match number path v with
  | inl (JNum t) =>
      if positive_text t then inl v
      else inr [too_small "number" 0 false "Number must be greater than 0" path]
  | other => other
  end.

(** [z.boolean()]. *)
Definition boolean : Schema := fun path v =>
  match v with
  | JBool _ => inl v
  | _ => inr [invalid_type "boolean" v path]
  end.

(** [util.joinValues]. *)
Definition joinValues (options : list string) : string :=
  String.concat " | " (map (fun o => "'" ++ o ++ "'") options).

(** [z.enum(options)]. *)
Definition enum (options : list string) : Schema := fun path v =>
  match v with
  | JStr s =>
      if existsb (String.eqb s) options then inl v
      else inr [JObj [ ("received", v);
                       ("code", JStr "invalid_enum_value");
                       ("options", JArr (map JStr options));
                       ("path", JArr path);
                       ("message",
                        JStr ("Invalid enum value. Expected "
                              ++ joinValues options ++ ", received '" ++ s
                              ++ "'")) ]]
  | _ =>
      inr [JObj [ ("expected", JStr (joinValues options));
                  ("received", JStr (parsedType v));
                  ("code", JStr "invalid_type");
                  ("path", JArr path);
                  ("message",
                   JStr (match v with
                         | JUndefined => "Required"
                         | _ => "Expected " ++ joinValues options
                                ++ ", received " ++ parsedType v
                         end)) ]]
  end.

(** The items of an array, each under its index. *)
Fixpoint items (item : Schema) (path : list JsValue) (index : N)
    (values : list JsValue) : list JsValue * list JsValue :=
  match values with
  | [] => ([], [])
  | v :: rest =>
      let (out, issues) := items item path (index + 1) rest in
      match item (path ++ [JNum (Str.of_N index)])%list v with
      | inl x => (x :: out, issues)
      | inr found => (out, (found ++ issues)%list)
      end
  end.

(** [z.array(item)]. *)
Definition array (item : Schema) : Schema := fun path v =>
  match v with
  | JArr values =>
      match items item path 0 values with
      | (out, []) => inl (JArr out)
      | (_, issues) => inr issues
      end
  | _ => inr [invalid_type "array" v path]
  end.

(** [schema.optional()]. *)
Definition optional (schema : Schema) : Schema := fun path v =>
  match v with
  | JUndefined => inl JUndefined
  | _ => schema path v
  end.

(** The keys of an object schema, in order: the parsed properties and the
    issues.  A key that is absent from the data and parses to
    [undefined] is left out of the result. *)
Fixpoint shape (keys : list (string * Schema)) (data : list (string * JsValue))
  : list (string * JsValue) * list JsValue :=
  match keys with
  | [] => ([], [])
  | (key, schema) :: rest =>
      let (out, issues) := shape rest data in
      match schema [JStr key] (field data key) with
      | inl JUndefined =>
          match own_property data key with
          | Some _ => ((key, JUndefined) :: out, issues)
          | None => (out, issues)
          end
      | inl x => ((key, x) :: out, issues)
      | inr found => (out, (found ++ issues)%list)
      end
  end.

(** [z.object(keys)], which strips the keys it does not know. *)
Definition object (keys : list (string * Schema)) (input : JsValue)
  : Zod.Parsed JsValue :=
  match input with
  | JObj data =>
      match shape keys data with
      | (out, []) => inl (JObj out)
      | (_, issues) => inr issues
      end
  | _ => inr [invalid_type "object" input []]
  end.

(** [schema.parse(input)], running in any kind of computation. *)
Definition parse {E} (schema : JsValue -> Zod.Parsed JsValue) (input : JsValue)
  : Run.t E JsValue :=
  match schema input with
  | inl value => Run.ret value
  | inr issues => Run.throw (Zod.ZodError issues)
  end.

End ZodTypes.

(** [createInsertSchema(table, refine)] of drizzle-zod, for the two
    tables the routes write to: one key per column, in the order of the
    columns; a column named in [refine] takes the schema given there; a
    column that is not null and has no default is required, a column
    with a default is optional.  The serial [id] is a number with a
    default. *)
Definition insertPlanSchema : JsValue -> Zod.Parsed JsValue :=
  ZodTypes.object
    [ ("id", ZodTypes.optional ZodTypes.number);
      ("name", ZodTypes.string_min 1);
      ("description", ZodTypes.string_min 1);
      ("price", ZodTypes.number_positive);
      ("features", ZodTypes.array ZodTypes.str);
      ("stripePriceId", ZodTypes.string_min 1) ].

Definition insertAIModelSchema : JsValue -> Zod.Parsed JsValue :=
  ZodTypes.object
    [ ("id", ZodTypes.optional ZodTypes.number);
      ("name", ZodTypes.string_min 1);
      ("description", ZodTypes.string_min 1);
      ("type", ZodTypes.enum ["code"; "chat"; "image-to-code"]);
      ("isDefault", ZodTypes.optional ZodTypes.boolean);
      ("requiresSubscription", ZodTypes.optional ZodTypes.boolean) ].

(** ** The routes *)

Module Routes.
Local Open Scope run_scope.

(** What a route reads of the request. *)
Record Request : Type := mkRequest {
  isAuthenticated : bool;        (* req.isAuthenticated() *)
  user : JsValue;                (* req.user *)
  body : JsValue                 (* req.body *)
}.

(** [res.status(status).json(body)]; the response object of Express does
    not throw on these writes. *)
Definition respond (status : N) (reply : JsValue) : Run.t RouteEvent unit :=
  Run.emit (RResJson status reply).

Definition console_error (label : string) (e : JsError) : Run.t RouteEvent unit :=
  Run.emit (RConsoleError label e).

(** [requireAuth] in front of a handler: [next()] runs the handler. *)
Definition requireAuth (req : Request) (handler : Run.t RouteEvent unit)
  : Run.t RouteEvent unit :=
  if negb (isAuthenticated req)
  then respond 401 (JObj [("error", JStr "Authentication required")])
  else handler.

(** [GET /api/user]. *)
Definition get_user (req : Request) : Run.t RouteEvent unit :=
  requireAuth req (respond 200 (JObj [("user", user req)])).

(** [GET /api/ai-models]. *)
Definition get_ai_models (db : DbClient) : Run.t RouteEvent unit :=
  Run.try_catch
    (models <- Storage.getAllAIModels db ;;
     respond 200 (JArr models))
    (fun error =>
       console_error "Error fetching AI models:" error ;;
       respond 500 (JObj [("error", JStr "Failed to fetch AI models")])).

(** The five objects [POST /api/init-models] validates and stores. *)
Definition default_model (name provider modelId description : string)
    (tags : list string) : JsValue :=
  JObj [ ("name", JStr name);
         ("provider", JStr provider);
         ("modelId", JStr modelId);
         ("description", JStr description);
         ("maxTokens", JNum "4000");
         ("temperature", JNum "0.7");
         ("tags", JArr (map JStr tags)) ].

Definition default_models : list JsValue :=
  [ default_model "GPT-4o" "openai" "gpt-4o"
      "OpenAI's GPT-4o model - most capable model for code generation"
      ["general"; "code"; "premium"];
    default_model "Claude 3 Opus" "anthropic" "claude-3-opus-20240229"
      "Anthropic's Claude 3 Opus - advanced reasoning and code generation"
      ["general"; "code"; "premium"];
    default_model "Claude 3 Sonnet" "anthropic" "claude-3-sonnet-20240229"
      "Anthropic's Claude 3 Sonnet - balanced performance and cost"
      ["general"; "code"];
    default_model "Mistral Large" "mistral" "mistral-large-latest"
      "Mistral's flagship model for code and general tasks"
      ["general"; "code"];
    default_model "Mistral Small" "mistral" "mistral-small-latest"
      "Mistral's efficient model for code and general tasks"
      ["general"; "code"; "free"] ].

(** [await storage.create(schema.parse(object))] for each object in turn. *)
Fixpoint create_each (schema : JsValue -> Zod.Parsed JsValue)
    (create : JsValue -> Run.t RouteEvent JsValue) (objects : list JsValue)
  : Run.t RouteEvent unit :=
  match objects with
  | [] => Run.ret tt
  | object :: rest =>
      parsed <- ZodTypes.parse schema object ;;
      _ <- create parsed ;;
      create_each schema create rest
  end.

(** [POST /api/init-models]. *)
Definition init_models (db : DbClient) : Run.t RouteEvent unit :=
  Run.try_catch
    (existingModels <- Storage.getAllAIModels db ;;
     if Nat.eqb (List.length existingModels) 0
     then create_each insertAIModelSchema (Storage.createAIModel db)
            default_models ;;
          respond 200 (JObj [("message", JStr "AI models initialized successfully")])
     else respond 200 (JObj [("message", JStr "AI models already exist")]))
    (fun error =>
       console_error "Error initializing AI models:" error ;;
       respond 500 (JObj [("error", JStr "Failed to initialize AI models")])).

(** The two objects [POST /api/init-plans] validates and stores. *)
Definition default_plans : list JsValue :=
  [ JObj [ ("name", JStr "Basic");
           ("description", JStr "Basic plan for occasional users");
           ("price", JNum "0");
           ("features",
            JArr [ JStr "Access to basic models";
                   JStr "Limited to 50 requests per day";
                   JStr "Standard support" ]);
           ("stripePriceId", JStr "free_plan") ];
    JObj [ ("name", JStr "Pro");
           ("description", JStr "Pro plan for professional developers");
           ("price", JNum "29.99");
           ("features",
            JArr [ JStr "Access to all models";
                   JStr "Unlimited requests";
                   JStr "Priority support";
                   JStr "Custom instructions" ]);
           ("stripePriceId", JStr "pro_plan") ] ].

(** [POST /api/init-plans]. *)
Definition init_plans (db : DbClient) : Run.t RouteEvent unit :=
  Run.try_catch
    (existingPlans <- Storage.getAllPlans db ;;
     if Nat.eqb (List.length existingPlans) 0
     then create_each insertPlanSchema (Storage.createPlan db) default_plans ;;
          respond 200 (JObj [("message", JStr "Plans initialized successfully")])
     else respond 200 (JObj [("message", JStr "Plans already exist")]))
    (fun error =>
       console_error "Error initializing plans:" error ;;
       respond 500 (JObj [("error", JStr "Failed to initialize plans")])).

(** [const { planId } = req.body]. *)
Definition destructure (name : string) (v : JsValue) (key : string)
  : Run.t RouteEvent JsValue :=
  match v with
  | JUndefined | JNull =>
      Run.throw (TypeError ("Cannot destructure property '" ++ key ++ "' of '"
                            ++ name ++ "' as it is " ++ parsedType v ++ "."))
  | _ => Run.ret (property v key)
  end.

(** The own enumerable properties [{ ...v }] copies: those of an object,
    the indexed characters of a string, the indexed items of an array,
    none of a number or a boolean. *)
Fixpoint indexed (index : N) (values : list JsValue) : list (string * JsValue) :=
  match values with
  | [] => []
  | v :: rest => (Str.of_N index, v) :: indexed (index + 1) rest
  end.

Fixpoint characters (s : string) : list JsValue :=
  match s with
  | "" => []
  | String c rest => JStr (String c "") :: characters rest
  end.

Definition spread (v : JsValue) : list (string * JsValue) :=
  match v with
  | JObj fields => fields
  | JStr s => indexed 0 (characters s)
  | JArr values => indexed 0 values
  | _ => []
  end.

(** [{ ...fields, key: value }]: a key that is there keeps its place. *)
Fixpoint assign (fields : list (string * JsValue)) (key : string) (value : JsValue)
  : list (string * JsValue) :=
  match fields with
  | [] => [(key, value)]
  | (k, v) :: rest =>
      if k =? key then (k, value) :: rest else (k, v) :: assign rest key value
  end.

(** [POST /api/subscribe].  [Number] is the conversion of the language,
    which is left open: the plan id it yields only goes into the
    statement. *)
Definition subscribe (Number : JsValue -> JsValue) (db : DbClient) (req : Request)
  : Run.t RouteEvent unit :=
  requireAuth req
    (Run.try_catch
       (if negb (truthy (user req))
        then respond 401 (JObj [("error", JStr "User not found")])
        else
          planId <- destructure "req.body" (body req) "planId" ;;
          if negb (truthy planId)
          then respond 400 (JObj [("error", JStr "Plan ID is required")])
          else
            plan <- Storage.getPlan db (Number planId) ;;
            if negb (truthy plan)
            then respond 404 (JObj [("error", JStr "Plan not found")])
            else
              Storage.updateUserSubscription db (property (user req) "id")
                true None ;;
              respond 200
                (JObj [ ("message", JStr "Subscription updated successfully");
                        ("user",
                         JObj (assign (spread (user req)) "isSubscribed"
                                 (JBool true))) ]))
       (fun error =>
          console_error "Error updating subscription:" error ;;
          respond 500 (JObj [("error", JStr "Failed to update subscription")]))).

(** The statements a run sent to the database, and its responses. *)
Fixpoint statements (log : list RouteEvent) : list DbStatement :=
  match log with
  | [] => []
  | RQuery q :: rest => q :: statements rest
  | _ :: rest => statements rest
  end.

Fixpoint replies (log : list RouteEvent) : list (N * JsValue) :=
  match log with
  | [] => []
  | RResJson status reply :: rest => (status, reply) :: replies rest
  | _ :: rest => replies rest
  end.

Definition writes (q : DbStatement) : bool :=
  match q with
  | SelectFrom _ _ => false
  | InsertInto _ _ | UpdateSet _ _ _ _ => true
  end.

End Routes.

(** * Properties *)

(** ** Strings *)

Lemma append_assoc (a b c : string) : (a ++ b) ++ c = a ++ b ++ c.
Proof. induction a as [|x a IH]; simpl; [reflexivity | now rewrite IH]. Qed.

Lemma append_empty_r (a : string) : a ++ "" = a.
Proof. induction a as [|x a IH]; simpl; [reflexivity | now rewrite IH]. Qed.

Lemma is_empty_true (s : string) : Str.is_empty s = true <-> s = "".
Proof. destruct s; simpl; split; congruence. Qed.

Lemma is_empty_false (s : string) : Str.is_empty s = false <-> s <> "".
Proof. destruct s; simpl; split; congruence. Qed.

Lemma trimStart_whitespace (s : string) :
  Str.all_whitespace s = true -> Str.trimStart s = "".
Proof.
  induction s as [|c r IH]; simpl; [reflexivity|].
  intros H. apply andb_true_iff in H as [Hc Hr]. rewrite Hc. auto.
Qed.

Lemma trimStart_keeps_ink (s : string) :
  Str.all_whitespace s = false -> Str.all_whitespace (Str.trimStart s) = false.
Proof.
  induction s as [|c r IH]; simpl; [discriminate|].
  destruct (Str.is_whitespace c) eqn:Hc; simpl; [exact IH|].
  intros _. now rewrite Hc.
Qed.

Lemma trimEnd_empty (s : string) :
  Str.trimEnd s = "" <-> Str.all_whitespace s = true.
Proof.
  induction s as [|c r IH]; simpl; [tauto|].
  destruct (Str.trimEnd r) eqn:E.
  - destruct (Str.is_whitespace c); simpl.
    + rewrite <- IH. tauto.
    + split; discriminate.
  - split; [discriminate|]. intros H.
    apply andb_true_iff in H as [_ H]. apply IH in H. discriminate.
Qed.

(** [trim] leaves nothing exactly of the strings made of whitespace. *)
Lemma trim_empty (s : string) :
  Str.trim s = "" <-> Str.all_whitespace s = true.
Proof.
  unfold Str.trim. split.
  - intros H. apply trimEnd_empty in H.
    destruct (Str.all_whitespace s) eqn:E; [reflexivity|].
    apply trimStart_keeps_ink in E. congruence.
  - intros H. now rewrite (trimStart_whitespace s H).
Qed.

Lemma contains_middle (pre needle post : string) :
  Str.contains (pre ++ needle ++ post) needle.
Proof. now exists pre, post. Qed.

Lemma contains_end (pre needle : string) : Str.contains (pre ++ needle) needle.
Proof. exists pre, "". now rewrite append_empty_r. Qed.

(** ** The monad *)

Section Laws.
Context {A B : Type}.
Implicit Types (k : A -> M B) (h : JsError -> M A) (log : list Event).

Lemma bind_returns log (a : A) k : bind (log, Returns a) k = after log (k a).
Proof. unfold bind, after, events, outcome. now destruct (k a). Qed.

Lemma bind_throws log e k : bind (log, Throws e) k = (log, Throws e).
Proof. reflexivity. Qed.

Lemma bind_pending log k : bind (log, Pending) k = (log, Pending).
Proof. reflexivity. Qed.

Lemma try_returns log (a : A) h : try_catch (log, Returns a) h = (log, Returns a).
Proof. reflexivity. Qed.

Lemma try_throws log e h : try_catch (log, Throws e) h = after log (h e).
Proof. unfold try_catch, after, events, outcome. now destruct (h e). Qed.

Lemma try_pending log h : try_catch (log, Pending) h = (log, Pending).
Proof. reflexivity. Qed.

Lemma after_pair log log' (o : Outcome A) :
  after log (log', o) = ((log ++ log')%list, o).
Proof. reflexivity. Qed.

Lemma bind_after log (m : M A) k : bind (after log m) k = after log (bind m k).
Proof.
  unfold bind, after, events, outcome.
  destruct m as [l [a|e|]]; simpl; try reflexivity.
  destruct (k a); simpl. now rewrite app_assoc.
Qed.

Lemma try_after log (m : M A) h :
  try_catch (after log m) h = after log (try_catch m h).
Proof.
  unfold try_catch, after, events, outcome.
  destruct m as [l [a|e|]]; simpl; try reflexivity.
  destruct (h e); simpl. now rewrite app_assoc.
Qed.

Lemma after_after l1 l2 (m : M A) : after l1 (after l2 m) = after (l1 ++ l2) m.
Proof. unfold after, events, outcome. simpl. now rewrite app_assoc. Qed.

Lemma after_nil (m : M A) : after [] m = m.
Proof. now destruct m. Qed.

Lemma events_after log (m : M A) : events (after log m) = (log ++ events m)%list.
Proof. reflexivity. Qed.

Lemma outcome_after log (m : M A) : outcome (after log m) = outcome m.
Proof. reflexivity. Qed.

End Laws.

Create Rewrite HintDb js.
#[local] Hint Rewrite @bind_returns @bind_throws @bind_pending @try_returns
  @try_throws @try_pending @after_pair @bind_after @try_after @after_after
  @after_nil : js.

(** Runs a computation as far as its known parts allow. *)
Ltac js_simp :=
  repeat (progress (unfold ret, throw, emit, await, console_error, next;
                    autorewrite with js; cbn [app negb])).

(** Closes an equation between two runs once both sides are known. *)
Ltac js_done :=
  js_simp; cbn [events outcome fst snd];
  rewrite <- ?app_assoc, ?app_nil_r; cbn [app]; reflexivity.

(** ** The registry *)

Lemma lookup_own registry model ep :
  own_endpoint registry model = Some ep -> lookup registry model = Some (Own ep).
Proof. intros H. unfold lookup. now rewrite H. Qed.

(** The registry has exactly three entries. *)
Lemma own_endpoint_cases penv model ep :
  own_endpoint (modelEndpoints penv) model = Some ep ->
  (model = "codellama" /\ transform ep = transform_codellama) \/
  (model = "starcoder" /\ transform ep = transform_starcoder) \/
  (model = "wizard-coder" /\ transform ep = transform_wizard_coder).
Proof.
  unfold modelEndpoints, own_endpoint.
  destruct ("codellama" =? model) eqn:E1;
    [apply String.eqb_eq in E1; intros [= <-]; auto|].
  destruct ("starcoder" =? model) eqn:E2;
    [apply String.eqb_eq in E2; intros [= <-]; auto|].
  destruct ("wizard-coder" =? model) eqn:E3;
    [apply String.eqb_eq in E3; intros [= <-]; auto|].
  discriminate.
Qed.

(** No key of the registry is a property of [Object.prototype]. *)
Lemma own_not_inherited penv model ep :
  own_endpoint (modelEndpoints penv) model = Some ep -> inherited model = false.
Proof.
  intros H. apply own_endpoint_cases in H as [[-> _] | [[-> _] | [-> _]]];
    reflexivity.
Qed.

Lemma get_prop_pure v key :
  (exists x, get_prop v key = ret x) \/ (exists e, get_prop v key = throw e).
Proof.
  destruct v; cbn; eauto.
  destruct (own_property fields key); eauto.
Qed.

Lemma get_prop_opt_pure v key :
  (exists x, get_prop_opt v key = ret x) \/ (exists e, get_prop_opt v key = throw e).
Proof. destruct v; cbn; eauto. destruct (own_property fields key); eauto. Qed.

(** A transform only computes: it logs nothing and it settles. *)
Lemma transform_pure penv model ep data :
  own_endpoint (modelEndpoints penv) model = Some ep ->
  (exists v, transform ep data = ret v) \/ (exists e, transform ep data = throw e).
Proof.
  intros H. apply own_endpoint_cases in H as [[_ ->] | [[_ ->] | [_ ->]]].
  - unfold transform_codellama.
    destruct (get_prop_pure data "output") as [[x ->] | [e ->]]; js_simp; eauto.
  - unfold transform_starcoder.
    destruct (get_prop_pure data "generated_text") as [[x ->] | [e ->]];
      js_simp; eauto.
  - unfold transform_wizard_coder.
    destruct (get_prop_pure data "output") as [[x ->] | [e ->]]; js_simp; eauto.
    destruct (get_prop_opt_pure x "text") as [[y ->] | [e ->]]; js_simp; eauto.
Qed.

(** ** generateCode, case by case *)

Section Dispatch.
Variables (env : Env) (prompt language model : string).

Let registry := modelEndpoints (process_env env).

(** The guard on the registry: nothing is logged, nothing is sent. *)
Lemma generateCode_unsupported :
  lookup registry model = None ->
  generateCode env prompt language model = throw (unsupported_model model).
Proof. intros H. unfold generateCode. fold registry. now rewrite H. Qed.

(** A member inherited from [Object.prototype] passes the guard and
    fails at [fetch], which is handed no URL. *)
Lemma generateCode_inherited :
  lookup registry model = Some Inherited ->
  generateCode env prompt language model
  = ([ESetTimeout TIMEOUT_MS; EConsoleError (log_label model) InvalidUrl],
     Throws InvalidUrl).
Proof.
  intros H. unfold generateCode. fold registry. rewrite H.
  unfold member_url, fetch. js_simp. cbn [err_name InvalidUrl TypeError String.eqb Ascii.eqb Bool.eqb].
  js_simp. reflexivity.
Qed.

Variable ep : ModelEndpoint.
Hypothesis registered : own_endpoint registry model = Some ep.

Let request := outbound ep language prompt.

(** The timer fires on an open call. *)
Lemma generateCode_timeout :
  unanswered (provider env request) ->
  generateCode env prompt language model
  = ([ESetTimeout TIMEOUT_MS; EFetch request; EAbort;
      EConsoleError (log_label model) (timeout_error model)],
     Throws (timeout_error model)).
Proof.
  intros H. unfold generateCode. fold registry.
  rewrite (lookup_own _ _ _ registered).
  unfold member_url, member_headers, fetch. fold (outbound ep language prompt).
  fold request. unfold unanswered in H.
  destruct (provider env request) as [ms r | ms e |].
  - assert (Hms : (ms <? TIMEOUT_MS)%N = false) by (apply N.ltb_ge; lia).
    rewrite Hms. js_simp. reflexivity.
  - assert (Hms : (ms <? TIMEOUT_MS)%N = false) by (apply N.ltb_ge; lia).
    rewrite Hms. js_simp. reflexivity.
  - js_simp. reflexivity.
Qed.

(** The events of a call that is answered in time, up to the point where
    the timer is cleared. *)
Let answered (r : HttpResponse) : list Event :=
  [ESetTimeout TIMEOUT_MS; EFetch request; EResponse (status r); EClearTimeout].

Lemma generateCode_answered ms r :
  provider env request = Responds ms r -> (ms < TIMEOUT_MS)%N ->
  generateCode env prompt language model
  = after [ESetTimeout TIMEOUT_MS; EFetch request; EResponse (status r)]
      (try_catch
         (try_catch
            (handle_response (Own ep) r)
            (fun fetchError =>
               if err_name fetchError =? "AbortError"
               then throw (timeout_error model)
               else throw fetchError))
         (fun error =>
            console_error (log_label model) error ;; throw error))%js.
Proof.
  intros Hp Hms. unfold generateCode. fold registry.
  rewrite (lookup_own _ _ _ registered).
  unfold member_url, member_headers, fetch.
  fold (outbound ep language prompt). fold request. rewrite Hp.
  apply N.ltb_lt in Hms. rewrite Hms.
  unfold emit, ret. autorewrite with js. cbn [app]. reflexivity.
Qed.

(** A non-success status: the body text, or the status text, goes into
    the error. *)
Lemma generateCode_provider_error ms r t :
  provider env request = Responds ms r -> (ms < TIMEOUT_MS)%N ->
  ok r = false -> error_text r t ->
  generateCode env prompt language model
  = ((answered r ++ [EConsoleError (log_label model) (provider_error r t)])%list,
     Throws (provider_error r t)).
Proof.
  intros Hp Hms Hok Ht. rewrite (generateCode_answered ms r Hp Hms).
  unfold handle_response, member_transform. rewrite Hok. unfold text_or_statusText.
  destruct Ht as [Ht | [e [Ht ->]]]; rewrite Ht; js_simp; reflexivity.
Qed.

(** A success status and a usable body. *)
Lemma generateCode_success ms r data code :
  provider env request = Responds ms r -> (ms < TIMEOUT_MS)%N ->
  ok r = true -> json r = Returns data ->
  transform ep data = ret (JStr code) -> Str.trim code <> "" ->
  generateCode env prompt language model = (answered r, Returns (JStr code)).
Proof.
  intros Hp Hms Hok Hj Ht Hc. rewrite (generateCode_answered ms r Hp Hms).
  unfold handle_response, member_transform. rewrite Hok, Hj. js_simp. rewrite Ht. js_simp. unfold truthy, call_trim.
  assert (Hne : Str.is_empty code = false).
  { destruct code; [now elim Hc | reflexivity]. }
  rewrite Hne. apply is_empty_false in Hc. js_simp. rewrite Hc. reflexivity.
Qed.

(** A success status and a body that transforms to nothing but blanks. *)
Lemma generateCode_empty ms r data s :
  provider env request = Responds ms r -> (ms < TIMEOUT_MS)%N ->
  ok r = true -> json r = Returns data ->
  transform ep data = ret (JStr s) -> Str.all_whitespace s = true ->
  generateCode env prompt language model
  = ((answered r ++ [EConsoleError (log_label model) empty_result])%list,
     Throws empty_result).
Proof.
  intros Hp Hms Hok Hj Ht Hs. rewrite (generateCode_answered ms r Hp Hms).
  unfold handle_response, member_transform. rewrite Hok, Hj. js_simp. rewrite Ht. js_simp. unfold truthy, call_trim.
  destruct (Str.is_empty s) eqn:He; js_simp; [reflexivity|].
  apply trim_empty in Hs. rewrite Hs. reflexivity.
Qed.

(** A transform that throws: the exception leaves [generateCode] as it
    is, unless it calls itself an abort. *)
Lemma generateCode_transform_throws ms r data e :
  provider env request = Responds ms r -> (ms < TIMEOUT_MS)%N ->
  ok r = true -> json r = Returns data ->
  transform ep data = throw e -> err_name e <> "AbortError" ->
  generateCode env prompt language model
  = ((answered r ++ [EConsoleError (log_label model) e])%list, Throws e).
Proof.
  intros Hp Hms Hok Hj Ht Hn. rewrite (generateCode_answered ms r Hp Hms).
  unfold handle_response, member_transform. rewrite Hok, Hj. js_simp. rewrite Ht. js_simp. apply String.eqb_neq in Hn. rewrite Hn.
  js_simp. reflexivity.
Qed.

End Dispatch.

(** ** What a computation can and cannot do *)

Lemma outcome_bind_returns {A B} (m : M A) (k : A -> M B) b :
  outcome (bind m k) = Returns b ->
  exists a, outcome m = Returns a /\ outcome (k a) = Returns b.
Proof.
  destruct m as [log [a|e|]]; cbn; try discriminate.
  destruct (k a) as [log' o] eqn:E. cbn. intros ->. exists a. now rewrite E.
Qed.

(** A handler that only rethrows does not turn a failure into a result. *)
Lemma outcome_try_returns {A} (m : M A) (h : JsError -> M A) a :
  (forall e, exists e', outcome (h e) = Throws e') ->
  outcome (try_catch m h) = Returns a -> outcome m = Returns a.
Proof.
  intros Hh. destruct m as [log [x|e|]]; cbn; try discriminate; [easy|].
  destruct (Hh e) as [e' He']. destruct (h e) as [log' o]. cbn in *.
  congruence.
Qed.

Lemma responses_app (l1 l2 : list Event) :
  responses (l1 ++ l2) = (responses l1 ++ responses l2)%list.
Proof.
  induction l1 as [|ev l1 IH]; [reflexivity|].
  destruct ev; cbn; rewrite IH; reflexivity.
Qed.

Lemma requests_app (l1 l2 : list Event) :
  requests (l1 ++ l2) = (requests l1 ++ requests l2)%list.
Proof.
  induction l1 as [|ev l1 IH]; [reflexivity|].
  destruct ev; cbn; rewrite IH; reflexivity.
Qed.

Section Avoids.
Variable P : Event -> bool.

Lemma avoids_pure {A} (o : Outcome A) : avoids P (([], o) : M A).
Proof. constructor. Qed.

Lemma avoids_after {A} log (m : M A) :
  Forall (fun ev => P ev = false) log -> avoids P m -> avoids P (after log m).
Proof. intros Hl Hm. unfold avoids. rewrite events_after. now apply Forall_app. Qed.

Lemma avoids_bind {A B} (m : M A) (k : A -> M B) :
  avoids P m -> (forall a, avoids P (k a)) -> avoids P (bind m k).
Proof.
  intros Hm Hk. destruct m as [log [a|e|]]; cbn; try exact Hm.
  specialize (Hk a). destruct (k a) as [log' o].
  exact (avoids_after log (log', o) Hm Hk).
Qed.

Lemma avoids_try {A} (m : M A) (h : JsError -> M A) :
  avoids P m -> (forall e, avoids P (h e)) -> avoids P (try_catch m h).
Proof.
  intros Hm Hh. destruct m as [log [a|e|]]; cbn; try exact Hm.
  specialize (Hh e). destruct (h e) as [log' o].
  exact (avoids_after log (log', o) Hm Hh).
Qed.

Lemma avoids_emit ev : P ev = false -> avoids P (emit ev).
Proof. intros H. repeat constructor. exact H. Qed.

End Avoids.

Lemma avoids_weaken {A} (P Q : Event -> bool) (m : M A) :
  (forall ev, P ev = false -> Q ev = false) -> avoids P m -> avoids Q m.
Proof. intros H. unfold avoids. apply Forall_impl. exact H. Qed.

Lemma no_response_responses (log : list Event) :
  Forall (fun ev => is_response ev = false) log -> responses log = [].
Proof.
  induction 1 as [|ev log Hev _ IH]; [reflexivity|].
  destruct ev; try discriminate; exact IH.
Qed.

Lemma no_next_in (log : list Event) e :
  Forall (fun ev => is_next ev = false) log -> ~ In (ENext e) log.
Proof.
  intros H Hin. rewrite Forall_forall in H. specialize (H _ Hin). discriminate.
Qed.

Lemma avoids_fetch env url headers body abort_after :
  avoids is_reply (fetch env url headers body abort_after).
Proof.
  unfold fetch. destruct url as [u|]; [|apply avoids_pure].
  apply avoids_bind; [now apply avoids_emit | intros _].
  destruct (provider env _) as [ms r | ms e |];
    try destruct (ms <? abort_after)%N;
    (apply avoids_bind; [now apply avoids_emit | intros _; apply avoids_pure]).
Qed.

Lemma lookup_inv registry model ep :
  lookup registry model = Some (Own ep) -> own_endpoint registry model = Some ep.
Proof.
  unfold lookup. destruct (own_endpoint registry model); [congruence|].
  destruct (inherited model); discriminate.
Qed.

Lemma avoids_member_transform P penv model endpoint data :
  lookup (modelEndpoints penv) model = Some endpoint ->
  avoids P (member_transform endpoint data).
Proof.
  destruct endpoint as [ep|]; [|intros _; apply avoids_pure].
  intros H. apply lookup_inv in H.
  destruct (transform_pure penv model ep data H) as [[v Hv] | [e He]];
    cbn [member_transform]; [rewrite Hv | rewrite He]; apply avoids_pure.
Qed.

Lemma avoids_handle_response P penv model endpoint response :
  P EClearTimeout = false ->
  lookup (modelEndpoints penv) model = Some endpoint ->
  avoids P (handle_response endpoint response).
Proof.
  intros HP L. unfold handle_response.
  apply avoids_bind; [now apply avoids_emit | intros _].
  apply avoids_bind.
  { destruct (negb (ok response)); [|apply avoids_pure].
    apply avoids_bind; [|intros t; apply avoids_pure].
    unfold text_or_statusText. apply avoids_try; [apply avoids_pure|].
    intros e. apply avoids_pure. }
  intros _. apply avoids_bind; [apply avoids_pure | intros data].
  apply avoids_bind;
    [apply (avoids_member_transform _ _ _ _ _ L) | intros result].
  destruct (negb (truthy result)); [apply avoids_pure|].
  apply avoids_bind.
  { destruct result; apply avoids_pure. }
  intros trimmed. destruct (Str.is_empty trimmed); apply avoids_pure.
Qed.

(** [generateCode] neither answers the request nor calls [next]. *)
Lemma generateCode_quiet env prompt language model :
  avoids is_reply (generateCode env prompt language model).
Proof.
  unfold generateCode.
  destruct (lookup _ model) as [endpoint|] eqn:L; [|apply avoids_pure].
  apply avoids_try.
  - apply avoids_bind; [now apply avoids_emit | intros _].
    apply avoids_try.
    + apply avoids_bind; [apply avoids_fetch | intros response].
      now apply (avoids_handle_response _ _ _ _ _ eq_refl L).
    + intros e. destruct (err_name e =? "AbortError"); apply avoids_pure.
  - intros e. apply avoids_bind; [now apply avoids_emit|].
    intros _. apply avoids_pure.
Qed.

Lemma is_reply_response ev : is_reply ev = false -> is_response ev = false.
Proof. unfold is_reply. now intros [H _]%orb_false_iff. Qed.

Lemma is_reply_next ev : is_reply ev = false -> is_next ev = false.
Proof. unfold is_reply. now intros [_ H]%orb_false_iff. Qed.

Lemma generateCode_no_response env prompt language model :
  responses (events (generateCode env prompt language model)) = [].
Proof.
  apply no_response_responses.
  apply (avoids_weaken is_reply is_response _ is_reply_response).
  apply generateCode_quiet.
Qed.

(** What [generateCode] returns is a string with something left after
    trimming. *)
Lemma generateCode_returns_code env prompt language model v :
  outcome (generateCode env prompt language model) = Returns v ->
  exists s, v = JStr s /\ Str.trim s <> "".
Proof.
  unfold generateCode.
  destruct (lookup _ model) as [endpoint|]; [|discriminate].
  intros H.
  apply outcome_try_returns in H;
    [|intros e; eexists; unfold console_error, emit, throw; reflexivity].
  apply outcome_bind_returns in H as [_ [_ H]].
  apply outcome_try_returns in H;
    [|intros e; destruct (err_name e =? "AbortError"); eexists; reflexivity].
  apply outcome_bind_returns in H as [response [_ H]].
  unfold handle_response in H.
  apply outcome_bind_returns in H as [_ [_ H]].
  apply outcome_bind_returns in H as [_ [_ H]].
  apply outcome_bind_returns in H as [data [_ H]].
  apply outcome_bind_returns in H as [result [_ H]].
  destruct (negb (truthy result)); [discriminate|].
  apply outcome_bind_returns in H as [trimmed [Ht H]].
  destruct result; try discriminate. cbn in Ht. injection Ht as <-.
  destruct (Str.is_empty (Str.trim s)) eqn:E; [discriminate|].
  cbn in H. injection H as <-. exists s. split; [reflexivity|].
  now apply is_empty_false.
Qed.

(** ** The handler, case by case *)

Section Handler.
Variables (env : Env) (body : JsValue).

(** The outermost handler ends every run it is given. *)
Lemma handler_forwards log e :
  validation_block env body = (log, Throws e) ->
  generateCodeHandler env body
  = ((log ++ [EConsoleError "Unexpected error in generateCodeHandler:" e;
              ENext e])%list,
     Returns tt).
Proof. intros H. unfold generateCodeHandler. rewrite H. reflexivity. Qed.

Lemma handler_passes log o :
  validation_block env body = (log, o) -> (forall e, o <> Throws e) ->
  generateCodeHandler env body = (log, o).
Proof.
  intros H Ho. unfold generateCodeHandler. rewrite H.
  destruct o as [[]|e|]; try reflexivity. now elim (Ho e).
Qed.

(** Invalid input: one log line and the 400 write. *)
Lemma validation_block_invalid issues :
  generateCodeSchema body = inr issues ->
  validation_block env body = report_invalid env (Zod.ZodError issues).
Proof.
  intros H. unfold validation_block, parse. rewrite H.
  unfold res_json, report_invalid. js_simp.
  destruct (res_json_throws env 400 _); js_done.
Qed.

Variable job : GenerateCodeRequest.
Hypothesis valid : generateCodeSchema body = inl job.

Abbreviation run := (generateCode env (prompt job) (language job) (model job)).

Lemma validation_block_failure e :
  outcome run = Throws e ->
  validation_block env body
  = after (events run) (report_failure env (model job) e).
Proof.
  intros H. unfold validation_block, parse. rewrite valid. js_simp.
  unfold generation_block. destruct run as [log o]. cbn in H. subst o.
  unfold res_json, report_success, report_failure, report_invalid. js_simp.
  destruct (res_json_throws env 500 _); js_simp; [|js_done].
  destruct (res_json_throws env 400 _); js_done.
Qed.

Lemma validation_block_success code :
  outcome run = Returns code ->
  validation_block env body
  = after (events run) (report_success env job code).
Proof.
  intros H. unfold validation_block, parse. rewrite valid. js_simp.
  unfold generation_block. destruct run as [log o]. cbn in H. subst o.
  unfold res_json, report_success, report_failure, report_invalid. js_simp.
  destruct (res_json_throws env 200 _); js_simp; [|js_done].
  destruct (res_json_throws env 500 _); js_simp; [|js_done].
  destruct (res_json_throws env 400 _); js_done.
Qed.

Lemma validation_block_pending :
  outcome run = Pending ->
  validation_block env body = (events run, Pending).
Proof.
  intros H. unfold validation_block, parse. rewrite valid. js_simp.
  unfold generation_block. destruct run as [log o]. cbn in H. subst o.
  js_simp. reflexivity.
Qed.

End Handler.

(** The outermost handler writes no response of its own, and no run of
    the handler ends in an exception. *)
Lemma handler_responses env body :
  responses (events (generateCodeHandler env body))
  = responses (events (validation_block env body)).
Proof.
  destruct (validation_block env body) as [log o] eqn:V.
  destruct o as [[]|e|].
  - rewrite (handler_passes env body log _ V); [reflexivity | discriminate].
  - rewrite (handler_forwards env body log e V). cbn [events fst].
    rewrite responses_app. cbn. now rewrite app_nil_r.
  - rewrite (handler_passes env body log _ V); [reflexivity | discriminate].
Qed.

Lemma handler_returns env body :
  outcome (validation_block env body) = Returns tt ->
  outcome (generateCodeHandler env body) = Returns tt.
Proof.
  destruct (validation_block env body) as [log o] eqn:V. cbn. intros ->.
  rewrite (handler_passes env body log _ V); [reflexivity | discriminate].
Qed.

Lemma handler_never_throws env body e :
  outcome (generateCodeHandler env body) <> Throws e.
Proof.
  destruct (validation_block env body) as [log o] eqn:V.
  destruct o as [[]|e'|].
  - rewrite (handler_passes env body log _ V); discriminate.
  - rewrite (handler_forwards env body log e' V). discriminate.
  - rewrite (handler_passes env body log _ V); discriminate.
Qed.

Lemma report_invalid_responds env e :
  responds_with env (report_invalid env e) 400 (validation_failure_body e).
Proof.
  unfold responds_with, report_invalid. cbn. split; [reflexivity|].
  intros ->. split; reflexivity.
Qed.

Lemma report_failure_responds env model e :
  responds_with env (report_failure env model e) 500
    (generation_failure_body e model).
Proof.
  unfold responds_with, report_failure. cbn. split; [reflexivity|].
  intros ->. split; reflexivity.
Qed.

Lemma report_success_responds env job code :
  responds_with env (report_success env job code) 200
    (success_body code (language job)).
Proof.
  unfold responds_with, report_success. cbn. split; [reflexivity|].
  intros ->. split; reflexivity.
Qed.

(** A run that is silent up to its tail answers as its tail does. *)
Lemma responds_after env body log tail status reply :
  validation_block env body = after log tail ->
  responses log = [] ->
  responds_with env tail status reply ->
  responds_with env (generateCodeHandler env body) status reply.
Proof.
  intros V Hlog [Hhd Honly]. unfold responds_with.
  rewrite handler_responses, V, events_after, responses_app, Hlog.
  cbn [app]. split; [exact Hhd|].
  intros Hw. destruct (Honly Hw) as [Hr Ho]. split; [exact Hr|].
  apply handler_returns. now rewrite V, outcome_after.
Qed.

Lemma handler_responds_invalid env body issues :
  generateCodeSchema body = inr issues ->
  responds_with env (generateCodeHandler env body) 400
    (validation_failure_body (Zod.ZodError issues)).
Proof.
  intros H. apply (responds_after env body [] (report_invalid env (Zod.ZodError issues))).
  - rewrite after_nil. now apply validation_block_invalid.
  - reflexivity.
  - apply report_invalid_responds.
Qed.

Lemma handler_responds_failure env body job e :
  generateCodeSchema body = inl job ->
  outcome (generateCode env (prompt job) (language job) (model job)) = Throws e ->
  responds_with env (generateCodeHandler env body) 500
    (generation_failure_body e (model job)).
Proof.
  intros Hv He.
  eapply responds_after.
  - exact (validation_block_failure env body job Hv e He).
  - apply generateCode_no_response.
  - apply report_failure_responds.
Qed.

Lemma handler_responds_success env body job code :
  generateCodeSchema body = inl job ->
  outcome (generateCode env (prompt job) (language job) (model job))
  = Returns code ->
  responds_with env (generateCodeHandler env body) 200
    (success_body code (language job)).
Proof.
  intros Hv Hc.
  eapply responds_after.
  - exact (validation_block_success env body job Hv code Hc).
  - apply generateCode_no_response.
  - apply report_success_responds.
Qed.

(** * The claims *)

(** C1. A validated job whose model is in the registry, answered in time
    with a success status and a JSON body that the endpoint's transform
    maps to a string with something left after trimming: [generateCode]
    returns exactly that string and the handler answers 200 with
    [{ code, language }].  In particular the request
    [{ prompt: "reverse a string", language: "python", model: "codellama" }]
    against a provider answering [{ output: "def reverse(s): return s[::-1]" }]
    is answered [{ code: "def reverse(s): return s[::-1]", language: "python" }]. *)
Theorem success_returns_transform_output :
  (forall env body job ep ms r data code,
      generateCodeSchema body = inl job ->
      own_endpoint (modelEndpoints (process_env env)) (model job) = Some ep ->
      provider env (outbound ep (language job) (prompt job)) = Responds ms r ->
      (ms < TIMEOUT_MS)%N ->
      ok r = true ->
      json r = Returns data ->
      transform ep data = ret (JStr code) ->
      Str.trim code <> "" ->
      outcome (generateCode env (prompt job) (language job) (model job))
      = Returns (JStr code)
      /\ responds_with env (generateCodeHandler env body) 200
           (JObj [("code", JStr code); ("language", JStr (language job))]))
  /\ outcome (generateCode reverse_env "reverse a string" "python" "codellama")
     = Returns (JStr "def reverse(s): return s[::-1]")
  /\ responses (events (generateCodeHandler reverse_env reverse_request))
     = [(200%N, JObj [("code", JStr "def reverse(s): return s[::-1]");
                    ("language", JStr "python")])]
  /\ outcome (generateCodeHandler reverse_env reverse_request) = Returns tt.
Proof.
  split; [|repeat split; reflexivity].
  intros env body job ep ms r data code Hv Hown Hp Hms Hok Hj Ht Hc.
  assert (G : outcome (generateCode env (prompt job) (language job) (model job))
              = Returns (JStr code)).
  { now rewrite (generateCode_success env _ _ _ ep Hown ms r data code Hp Hms Hok Hj Ht Hc). }
  split; [exact G|].
  exact (handler_responds_success env body job (JStr code) Hv G).
Qed.

(** The hypotheses of C1 hold for a starcoder job. *)
Lemma success_returns_transform_output_witness :
  outcome (generateCode starcoder_env "sum a list" "javascript" "starcoder")
  = Returns (JStr "const sum = xs => 0;")
  /\ responds_with starcoder_env
       (generateCodeHandler starcoder_env starcoder_request) 200
       (JObj [("code", JStr "const sum = xs => 0;");
              ("language", JStr "javascript")]).
Proof.
  refine (proj1 success_returns_transform_output starcoder_env starcoder_request
            (mkJob "sum a list" "javascript" "starcoder")
            (mkEndpoint "https://api.huggingface.co/models/bigcode/starcoder"
               [("Authorization", "Bearer undefined");
                ("Content-Type", "application/json")]
               transform_starcoder)
            1200%N
            (json_response (JObj [("generated_text", JStr "const sum = xs => 0;")]))
            (JObj [("generated_text", JStr "const sum = xs => 0;")])
            "const sum = xs => 0;" _ _ _ _ _ _ _ _);
    try reflexivity.
  vm_compute. discriminate.
Defined.

(** C2, as stated, fails: for the body [{ prompt: "" }] the [message] of
    the 400 response is not the string "Prompt is required". *)
Lemma empty_prompt_message_is_not_the_bare_text :
  responses (events (generateCodeHandler (plain_env Silent) empty_prompt_request))
  <> [(400%N, JObj [("error", JStr "Invalid request data");
                    ("message", JStr "Prompt is required")])].
Proof. vm_compute. discriminate. Qed.

(** C2, amended.  For the body [{ prompt: "" }] the handler answers 400
    with [{ error: "Invalid request data", message }] where [message] is
    the message of the [ZodError]: the JSON text, indented by two, of the
    list of its one issue, which has code [too_small], message
    "Prompt is required" and path [["prompt"]].  That text contains
    "Prompt is required" and is longer than it. *)
Theorem empty_prompt_answers_400_with_issue_list :
  forall env,
    responds_with env (generateCodeHandler env empty_prompt_request) 400
      (JObj [("error", JStr "Invalid request data");
             ("message", JStr prompt_required_text)])
    /\ responses (events (generateCodeHandler env empty_prompt_request))
       = [(400%N, JObj [("error", JStr "Invalid request data");
                        ("message", JStr prompt_required_text)])]
    /\ requests (events (generateCodeHandler env empty_prompt_request)) = []
    /\ prompt_required_text
       = JSON.stringify2
           (JArr [JObj [("code", JStr "too_small");
                        ("minimum", JNum "1");
                        ("type", JStr "string");
                        ("inclusive", JBool true);
                        ("exact", JBool false);
                        ("message", JStr "Prompt is required");
                        ("path", JArr [JStr "prompt"])]])
    /\ Str.contains prompt_required_text "Prompt is required"
    /\ prompt_required_text <> "Prompt is required".
Proof.
  intros env.
  assert (Hs : generateCodeSchema empty_prompt_request
               = inr [Zod.too_small 1 "Prompt is required" ["prompt"]])
    by reflexivity.
  assert (Hb : validation_failure_body
                 (Zod.ZodError [Zod.too_small 1 "Prompt is required" ["prompt"]])
               = JObj [("error", JStr "Invalid request data");
                       ("message", JStr prompt_required_text)])
    by reflexivity.
  assert (Hv := validation_block_invalid env _ _ Hs).
  split; [|split; [|split; [|split; [reflexivity|split]]]].
  - rewrite <- Hb. apply (handler_responds_invalid env _ _ Hs).
  - rewrite handler_responses, Hv. unfold report_invalid. cbn [events fst responses].
    now rewrite Hb.
  - unfold generateCodeHandler. rewrite Hv. unfold report_invalid.
    destruct (res_json_throws env 400 _); reflexivity.
  - exists ("[" ++ Str.nl ++ "  {" ++ Str.nl ++ "    " ++ quoted "code" ++ ": "
            ++ quoted "too_small" ++ "," ++ Str.nl ++ "    " ++ quoted "minimum"
            ++ ": 1," ++ Str.nl ++ "    " ++ quoted "type" ++ ": "
            ++ quoted "string" ++ "," ++ Str.nl ++ "    " ++ quoted "inclusive"
            ++ ": true," ++ Str.nl ++ "    " ++ quoted "exact" ++ ": false,"
            ++ Str.nl ++ "    " ++ quoted "message" ++ ": " ++ Str.dquote).
    exists (Str.dquote ++ "," ++ Str.nl ++ "    " ++ quoted "path" ++ ": ["
            ++ Str.nl ++ "      " ++ quoted "prompt" ++ Str.nl ++ "    ]"
            ++ Str.nl ++ "  }" ++ Str.nl ++ "]").
    reflexivity.
  - discriminate.
Qed.

Lemma timeout_message_names_model model :
  Str.contains (err_message (timeout_error model)) model
  /\ Str.contains (err_message (timeout_error model)) "30 seconds".
Proof.
  split.
  - apply contains_middle.
  - exists ("Request to " ++ model ++ " API timed out after "), "".
    cbn. rewrite !append_assoc. reflexivity.
Qed.

(** C3. A dispatch whose call is still open when the 30-second timer
    fires: the timer aborts the call, so no call is in flight when
    [generateCode] fails; the failure is an [Error] whose message names
    the model and the 30 seconds; the handler answers 500 with it. *)
Theorem timeout_aborts_the_call_and_reports_it :
  forall env body job ep,
    generateCodeSchema body = inl job ->
    own_endpoint (modelEndpoints (process_env env)) (model job) = Some ep ->
    unanswered (provider env (outbound ep (language job) (prompt job))) ->
    let run := generateCode env (prompt job) (language job) (model job) in
    let message := "Request to " ++ model job ++ " API timed out after 30 seconds" in
    events run
    = [ESetTimeout 30000; EFetch (outbound ep (language job) (prompt job));
       EAbort; EConsoleError (log_label (model job)) (Error message)]
    /\ outcome run = Throws (Error message)
    /\ in_flight false (events run) = false
    /\ Str.contains message (model job)
    /\ Str.contains message "30 seconds"
    /\ responds_with env (generateCodeHandler env body) 500
         (JObj [("error", JStr "Failed to generate code");
                ("message", JStr message);
                ("model", JStr (model job))]).
Proof.
  intros env body job ep Hv Hown Hu run message.
  assert (G := generateCode_timeout env (prompt job) (language job) (model job)
                 ep Hown Hu).
  fold run in G.
  assert (Ho : outcome run = Throws (timeout_error (model job)))
    by now rewrite G.
  split; [now rewrite G|]. split; [exact Ho|].
  split; [now rewrite G|].
  split; [apply (timeout_message_names_model (model job))|].
  split; [apply (timeout_message_names_model (model job))|].
  exact (handler_responds_failure env body job _ Hv Ho).
Qed.

(** The hypotheses of C3 hold for a provider that answers after 45 s. *)
Lemma timeout_aborts_the_call_and_reports_it_witness :
  outcome (generateCode slow_env "fizzbuzz" "javascript" "codellama")
  = Throws (Error "Request to codellama API timed out after 30 seconds")
  /\ in_flight false
       (events (generateCode slow_env "fizzbuzz" "javascript" "codellama"))
     = false.
Proof.
  pose proof (timeout_aborts_the_call_and_reports_it slow_env prompt_only_request
                default_job codellama_endpoint eq_refl eq_refl) as H.
  cbv zeta in H.
  assert (U : unanswered
                (provider slow_env
                   (outbound codellama_endpoint (language default_job)
                      (prompt default_job)))).
  { cbn. unfold TIMEOUT_MS. lia. }
  destruct (H U) as (_ & Ho & Hf & _). split; [exact Ho | exact Hf].
Defined.

(** C4 on the code: the model id "constructor" is no key of the registry,
    yet [modelEndpoints["constructor"]] is the inherited
    [Object.prototype.constructor], which is truthy.  The guard lets it
    pass and [generateCode] fails at [fetch] with a [TypeError], not with
    "Unsupported model: constructor"; no HTTP call is made and the
    handler answers 500. *)
Theorem constructor_passes_the_registry_guard :
  forall env p l,
    own_endpoint (modelEndpoints (process_env env)) "constructor" = None
    /\ generateCode env p l "constructor"
       = ([ESetTimeout 30000;
           EConsoleError "Error generating code with constructor:"
             (TypeError "Invalid URL")],
          Throws (TypeError "Invalid URL"))
    /\ outcome (generateCode env p l "constructor")
       <> Throws (Error "Unsupported model: constructor")
    /\ requests (events (generateCode env p l "constructor")) = []
    /\ responds_with env (generateCodeHandler env constructor_request) 500
         (JObj [("error", JStr "Failed to generate code");
                ("message", JStr "Invalid URL");
                ("model", JStr "constructor")]).
Proof.
  intros env p l.
  assert (G := generateCode_inherited env p l "constructor" eq_refl).
  split; [reflexivity|]. split; [exact G|].
  split; [rewrite G; discriminate|]. split; [now rewrite G|].
  apply (handler_responds_failure env constructor_request
           (mkJob "fizzbuzz" "javascript" "constructor") (TypeError "Invalid URL")
           eq_refl).
  cbn [prompt language model].
  now rewrite (generateCode_inherited env "fizzbuzz" "javascript" "constructor"
                 eq_refl).
Qed.

(** The guard of the registry on the ids it does catch: a model id that
    is neither a key of the registry nor a property of
    [Object.prototype] fails with "Unsupported model: <id>" before any
    HTTP call, and the handler answers 500, not 400. *)
Theorem unknown_model_is_unsupported :
  forall env body job,
    generateCodeSchema body = inl job ->
    own_endpoint (modelEndpoints (process_env env)) (model job) = None ->
    inherited (model job) = false ->
    generateCode env (prompt job) (language job) (model job)
    = ([], Throws (Error ("Unsupported model: " ++ model job)))
    /\ requests (events (generateCodeHandler env body)) = []
    /\ responds_with env (generateCodeHandler env body) 500
         (JObj [("error", JStr "Failed to generate code");
                ("message", JStr ("Unsupported model: " ++ model job));
                ("model", JStr (model job))])
    /\ (forall reply,
           hd_error (responses (events (generateCodeHandler env body)))
           <> Some (400%N, reply)).
Proof.
  intros env body job Hv Hown Hin.
  assert (L : lookup (modelEndpoints (process_env env)) (model job) = None).
  { unfold lookup. now rewrite Hown, Hin. }
  assert (G := generateCode_unsupported env (prompt job) (language job)
                 (model job) L).
  assert (Ho : outcome (generateCode env (prompt job) (language job) (model job))
               = Throws (unsupported_model (model job))) by now rewrite G.
  assert (R := handler_responds_failure env body job _ Hv Ho).
  split; [exact G|]. split; [|split; [exact R|]].
  - unfold generateCodeHandler.
    rewrite (validation_block_failure env body job Hv _ Ho), G.
    unfold report_failure, report_invalid.
    destruct (res_json_throws env 500 _); [|reflexivity].
    destruct (res_json_throws env 400 _); reflexivity.
  - intros reply. destruct R as [R _]. rewrite R. discriminate.
Qed.

Lemma unknown_model_is_unsupported_witness :
  generateCode (plain_env Silent) "fizzbuzz" "javascript" "unknown-model"
  = ([], Throws (Error "Unsupported model: unknown-model"))
  /\ responses (events (generateCodeHandler (plain_env Silent) unknown_model_request))
     = [(500%N, JObj [("error", JStr "Failed to generate code");
                      ("message", JStr "Unsupported model: unknown-model");
                      ("model", JStr "unknown-model")])].
Proof.
  destruct (unknown_model_is_unsupported (plain_env Silent) unknown_model_request
              (mkJob "fizzbuzz" "javascript" "unknown-model")
              eq_refl eq_refl eq_refl) as (G & _ & R & _).
  split; [exact G|]. now apply R.
Defined.

(** C5. A dispatch answered in time with a non-success status:
    [generateCode] reads the body as text, takes the status text instead
    when that read fails, and throws an [Error] whose message holds the
    status code and that text; the handler answers 500 with it. *)
Theorem error_status_becomes_provider_error :
  forall env body job ep ms r t,
    generateCodeSchema body = inl job ->
    own_endpoint (modelEndpoints (process_env env)) (model job) = Some ep ->
    provider env (outbound ep (language job) (prompt job)) = Responds ms r ->
    (ms < TIMEOUT_MS)%N ->
    ok r = false ->
    (text r = Returns t \/ exists e, text r = Throws e /\ t = statusText r) ->
    let message := "API request failed (" ++ Str.of_N (status r) ++ "): " ++ t in
    outcome (generateCode env (prompt job) (language job) (model job))
    = Throws (Error message)
    /\ Str.contains message (Str.of_N (status r))
    /\ Str.contains message t
    /\ responds_with env (generateCodeHandler env body) 500
         (JObj [("error", JStr "Failed to generate code");
                ("message", JStr message);
                ("model", JStr (model job))]).
Proof.
  intros env body job ep ms r t Hv Hown Hp Hms Hok Ht message.
  assert (G := generateCode_provider_error env (prompt job) (language job)
                 (model job) ep Hown ms r t Hp Hms Hok Ht).
  assert (Ho : outcome (generateCode env (prompt job) (language job) (model job))
               = Throws (provider_error r t)) by now rewrite G.
  split; [exact Ho|].
  split; [apply contains_middle|].
  split.
  - exists ("API request failed (" ++ Str.of_N (status r) ++ "): "), "".
    unfold message. rewrite append_empty_r, !append_assoc. reflexivity.
  - exact (handler_responds_failure env body job _ Hv Ho).
Qed.

(** The hypotheses of C5 hold for a 503 with a text body. *)
Lemma error_status_becomes_provider_error_witness :
  outcome (generateCode unavailable_env "fizzbuzz" "javascript" "codellama")
  = Throws (Error "API request failed (503): upstream overloaded")
  /\ responds_with unavailable_env
       (generateCodeHandler unavailable_env prompt_only_request) 500
       (JObj [("error", JStr "Failed to generate code");
              ("message",
               JStr "API request failed (503): upstream overloaded");
              ("model", JStr "codellama")]).
Proof.
  destruct (error_status_becomes_provider_error unavailable_env
              prompt_only_request default_job codellama_endpoint 80%N
              unavailable "upstream overloaded" eq_refl eq_refl eq_refl
              eq_refl eq_refl (or_introl eq_refl)) as (Ho & _ & _ & R).
  split; [exact Ho | exact R].
Defined.

(** The status text stands in when the body cannot be read. *)
Example error_status_falls_back_to_status_text :
  outcome (generateCode (plain_env (Responds 10 failing_read))
             "fizzbuzz" "javascript" "wizard-coder")
  = Throws (Error "API request failed (502): Bad Gateway").
Proof. reflexivity. Qed.

(** C6. A success response whose transformed string is empty or all
    whitespace makes [generateCode] throw "Empty response from AI model";
    hence whatever [generateCode] returns is a string that is not empty
    after trimming. *)
Theorem blank_result_is_refused :
  (forall env p l m ep ms r data s,
      own_endpoint (modelEndpoints (process_env env)) m = Some ep ->
      provider env (outbound ep l p) = Responds ms r ->
      (ms < TIMEOUT_MS)%N ->
      ok r = true ->
      json r = Returns data ->
      transform ep data = ret (JStr s) ->
      s = "" \/ Str.all_whitespace s = true ->
      outcome (generateCode env p l m)
      = Throws (Error "Empty response from AI model"))
  /\ (forall env p l m v,
         outcome (generateCode env p l m) = Returns v ->
         exists code,
           v = JStr code /\ Str.trim code <> ""
           /\ code <> "" /\ Str.all_whitespace code = false).
Proof.
  split.
  - intros env p l m ep ms r data s Hown Hp Hms Hok Hj Ht Hs.
    assert (Hw : Str.all_whitespace s = true) by (destruct Hs as [-> | Hs]; auto).
    now rewrite (generateCode_empty env p l m ep Hown ms r data s Hp Hms Hok Hj Ht Hw).
  - intros env p l m v H.
    destruct (generateCode_returns_code env p l m v H) as [code [-> Hc]].
    exists code. split; [reflexivity|]. split; [exact Hc|]. split.
    + intros ->. now apply Hc.
    + destruct (Str.all_whitespace code) eqn:E; [|reflexivity].
      apply trim_empty in E. contradiction.
Qed.

(** Both halves of C6 on concrete runs: a body of blanks is refused, a
    body with code is returned. *)
Lemma blank_result_is_refused_witness :
  outcome (generateCode blank_env "fizzbuzz" "javascript" "codellama")
  = Throws (Error "Empty response from AI model")
  /\ exists code,
       JStr reverse_code = JStr code /\ Str.trim code <> ""
       /\ code <> "" /\ Str.all_whitespace code = false.
Proof.
  split.
  - exact (proj1 blank_result_is_refused blank_env "fizzbuzz" "javascript"
             "codellama" codellama_endpoint 80%N
             (json_response (JObj [("output", JStr ("  " ++ Str.nl))]))
             (JObj [("output", JStr ("  " ++ Str.nl))]) ("  " ++ Str.nl)
             eq_refl eq_refl eq_refl eq_refl eq_refl eq_refl
             (or_intror eq_refl)).
  - exact (proj2 blank_result_is_refused reverse_env "reverse a string"
             "python" "codellama" (JStr reverse_code) eq_refl).
Defined.

(** ** The schema *)

Lemma string_min_accepts path v s :
  Zod.string_min 1 "Prompt is required" path v = inl s <->
  v = JStr s /\ 1 <= String.length s.
Proof.
  unfold Zod.string_min. destruct v; try (split; [discriminate | intros [[=] _]]).
  destruct (N.ltb_spec (N.of_nat (String.length s0)) 1) as [Hlt | Hge].
  - split; [discriminate|]. intros [[= ->] Hlen]. lia.
  - split.
    + intros [= ->]. split; [reflexivity | lia].
    + now intros [[= ->] _].
Qed.

Lemma string_optional_default_accepts fallback path v s :
  Zod.string_optional_default fallback path v = inl s <->
  (v = JUndefined /\ s = fallback) \/ v = JStr s.
Proof.
  unfold Zod.string_optional_default. split.
  - destruct v; try discriminate; intros [= <-]; auto.
  - intros [[-> ->] | ->]; reflexivity.
Qed.

Lemma string_optional_default_rejects fallback path v issues :
  Zod.string_optional_default fallback path v = inr issues ->
  ~ string_or_absent v /\ issues <> [].
Proof.
  unfold Zod.string_optional_default, string_or_absent.
  destruct v; try discriminate; intros [= <-]; (split; [|discriminate]);
    intros [H | [s H]]; discriminate.
Qed.

(** The schema accepts an object exactly when its three keys parse. *)
Lemma generateCodeSchema_accepts input job :
  generateCodeSchema input = inl job <->
  exists fields,
    input = JObj fields
    /\ Zod.string_min 1 "Prompt is required" ["prompt"] (field fields "prompt")
       = inl (prompt job)
    /\ Zod.string_optional_default "javascript" ["language"]
         (field fields "language") = inl (language job)
    /\ Zod.string_optional_default "codellama" ["model"] (field fields "model")
       = inl (model job).
Proof.
  destruct job as [p l m]. cbn [prompt language model]. split.
  - destruct input; try discriminate. cbn [generateCodeSchema]. intros H.
    exists fields. split; [reflexivity|].
    destruct (Zod.string_min _ _ _ _) as [p'|];
      destruct (Zod.string_optional_default "javascript" _ _) as [l'|];
      destruct (Zod.string_optional_default "codellama" _ _) as [m'|];
      try discriminate.
    now injection H as -> -> ->.
  - intros (fields & -> & Hp & Hl & Hm). cbn [generateCodeSchema].
    now rewrite Hp, Hl, Hm.
Qed.

(** A rejection always names an issue. *)
Lemma generateCodeSchema_rejects input issues :
  generateCodeSchema input = inr issues -> issues <> [].
Proof.
  destruct input; try (intros [= <-]; discriminate).
  cbn [generateCodeSchema].
  destruct (Zod.string_min _ _ _ _) as [p|ip] eqn:Ep;
    destruct (Zod.string_optional_default "javascript" _ _) as [l|il] eqn:El;
    destruct (Zod.string_optional_default "codellama" _ _) as [m|im] eqn:Em;
    try discriminate; intros [= <-]; cbn [Zod.issues_of app].
  all: try (apply string_optional_default_rejects in Em as [_ Em]).
  all: try (apply string_optional_default_rejects in El as [_ El]).
  all: try (rewrite ?app_nil_r; assumption).
  all: try (destruct il; [congruence | discriminate]).
  all: unfold Zod.string_min in Ep; destruct (field fields "prompt");
    try (injection Ep as <-; discriminate).
  all: destruct (_ <? _)%N; [injection Ep as <-; discriminate | discriminate].
Qed.

(** C7, as stated, fails: [{ prompt: "hi", language: 42 }] has a prompt
    that is a string of length 2, and validation rejects it. *)
Lemma nonempty_prompt_is_not_enough :
  ~ (accepted numeric_language_request <-> has_prompt numeric_language_request).
Proof.
  intros [_ H].
  destruct H as [job Hjob].
  - exists "hi". split; [reflexivity | cbn; lia].
  - discriminate Hjob.
Qed.

(** C7, amended.  Validation accepts exactly the inputs whose prompt is a
    string of length at least 1 and whose language and model are each
    absent or a string; on those it keeps the prompt, fills language
    with "javascript" and model with "codellama" when absent and keeps
    the strings given; every other input fails with a [ZodError] that
    lists at least one issue, and the handler answers 400. *)
Theorem validation_accepts_well_typed_jobs :
  forall input,
    (accepted input <->
     has_prompt input
     /\ string_or_absent (property input "language")
     /\ string_or_absent (property input "model"))
    /\ (forall job,
           generateCodeSchema input = inl job ->
           parse input = ret job
           /\ property input "prompt" = JStr (prompt job)
           /\ filled "javascript" (property input "language") (language job)
           /\ filled "codellama" (property input "model") (model job))
    /\ (forall issues,
           generateCodeSchema input = inr issues ->
           issues <> []
           /\ parse input = throw (mkError "ZodError" (JSON.stringify2 (JArr issues)))
           /\ forall env,
               responds_with env (generateCodeHandler env input) 400
                 (JObj [("error", JStr "Invalid request data");
                        ("message",
                         JStr (message_or (JSON.stringify2 (JArr issues))
                                 "Validation failed"))])).
Proof.
  intros input. split; [|split].
  - split.
    + intros [job Hjob].
      apply generateCodeSchema_accepts in Hjob as (fields & -> & Hp & Hl & Hm).
      apply string_min_accepts in Hp as [Hp Hlen].
      apply string_optional_default_accepts in Hl, Hm.
      cbn [property]. split; [exists (prompt job); auto|].
      split; [destruct Hl as [[Hl _] | Hl] | destruct Hm as [[Hm _] | Hm]];
        unfold string_or_absent; eauto.
    + intros ([s [Hp Hlen]] & Hl & Hm).
      destruct input; try discriminate. cbn [property] in *.
      assert (exists l, Zod.string_optional_default "javascript" ["language"]
                          (field fields "language") = inl l) as [l El].
      { destruct Hl as [-> | [l ->]]; eexists; reflexivity. }
      assert (exists m, Zod.string_optional_default "codellama" ["model"]
                          (field fields "model") = inl m) as [m Em].
      { destruct Hm as [-> | [m ->]]; eexists; reflexivity. }
      exists (mkJob s l m). apply generateCodeSchema_accepts.
      exists fields. cbn [prompt language model].
      repeat split; try assumption. now apply string_min_accepts.
  - intros job Hjob. split; [unfold parse; now rewrite Hjob|].
    apply generateCodeSchema_accepts in Hjob as (fields & -> & Hp & Hl & Hm).
    apply string_min_accepts in Hp as [Hp _].
    apply string_optional_default_accepts in Hl, Hm.
    cbn [property]. split; [exact Hp|].
    split; unfold filled; split.
    + intros E. destruct Hl as [[_ Hl] | Hl]; congruence.
    + intros s E. destruct Hl as [[Hl _] | Hl]; congruence.
    + intros E. destruct Hm as [[_ Hm] | Hm]; congruence.
    + intros s E. destruct Hm as [[Hm _] | Hm]; congruence.
  - intros issues Hi. split; [exact (generateCodeSchema_rejects _ _ Hi)|].
    split; [unfold parse; now rewrite Hi|].
    intros env. exact (handler_responds_invalid env input issues Hi).
Qed.

(** Defaults at work: a request with only a prompt. *)
Example validation_fills_defaults :
  generateCodeSchema prompt_only_request = inl default_job.
Proof. reflexivity. Qed.

(** ** The outbound request *)

Lemma avoids_requests {A} (m : M A) : avoids is_fetch m -> requests (events m) = [].
Proof.
  unfold avoids. induction 1 as [|ev log Hev _ IH]; [reflexivity|].
  destruct ev; try discriminate; exact IH.
Qed.

Lemma requests_bind_quiet {A B} (m : M A) (k : A -> M B) :
  (forall a, avoids is_fetch (k a)) ->
  requests (events (bind m k)) = requests (events m).
Proof.
  intros Hk. destruct m as [log [a|e|]]; try reflexivity.
  rewrite bind_returns, events_after, requests_app, (avoids_requests _ (Hk a)).
  apply app_nil_r.
Qed.

Lemma requests_try_quiet {A} (m : M A) (h : JsError -> M A) :
  (forall e, avoids is_fetch (h e)) ->
  requests (events (try_catch m h)) = requests (events m).
Proof.
  intros Hh. destruct m as [log [a|e|]]; try reflexivity.
  rewrite try_throws, events_after, requests_app, (avoids_requests _ (Hh e)).
  apply app_nil_r.
Qed.

(** [fetch] with a URL issues exactly one request, whatever follows. *)
Lemma requests_fetch env u headers body abort_after :
  requests (events (fetch env (Some u) headers body abort_after))
  = [mkRequest u "POST" headers body].
Proof.
  unfold fetch.
  destruct (provider env _) as [ms r | ms e |];
    try destruct (ms <? abort_after)%N; reflexivity.
Qed.

(** Every dispatch to a registry endpoint sends one request, to the
    endpoint's URL, with the endpoint's headers. *)
Lemma generateCode_requests env p l m ep :
  own_endpoint (modelEndpoints (process_env env)) m = Some ep ->
  requests (events (generateCode env p l m)) = [outbound ep l p].
Proof.
  intros Hown. unfold generateCode. rewrite (lookup_own _ _ _ Hown).
  rewrite requests_try_quiet.
  2:{ intros e. apply avoids_bind; [now apply avoids_emit|].
      intros _. apply avoids_pure. }
  unfold emit at 1. rewrite bind_returns, events_after, requests_app.
  cbn [requests app].
  rewrite requests_try_quiet.
  2:{ intros e. destruct (err_name e =? "AbortError"); apply avoids_pure. }
  rewrite requests_bind_quiet.
  2:{ intros response.
      apply (avoids_handle_response is_fetch (process_env env) m (Own ep) response
               eq_refl (lookup_own _ _ _ Hown)). }
  apply requests_fetch.
Qed.

Lemma json_escape_app (a b : string) :
  Str.json_escape (a ++ b) = Str.json_escape a ++ Str.json_escape b.
Proof.
  induction a as [|c a IH]; [reflexivity|].
  cbn [Str.json_escape append]. now rewrite IH, append_assoc.
Qed.

(** The text of the request body. *)
Lemma request_body_text l p :
  JSON.stringify (request_payload l p)
  = "{" ++ quoted "prompt" ++ ":" ++ Str.dquote
    ++ "Write " ++ Str.json_escape l ++ " code for: " ++ Str.json_escape p
    ++ Str.backslash ++ "nOnly respond with code, no explanations."
    ++ Str.dquote
    ++ "," ++ quoted "max_new_tokens" ++ ":1000"
    ++ "," ++ quoted "temperature" ++ ":0.2"
    ++ "," ++ quoted "top_p" ++ ":0.95}".
Proof.
  unfold JSON.stringify, request_payload, instruction.
  cbn [JSON.serialize JSON.wrap Str.is_empty JSON.join String.concat].
  unfold Str.json_quote.
  rewrite !json_escape_app. unfold quoted. rewrite !append_assoc. reflexivity.
Qed.

(** C8. Whatever the provider does, the body sent to a registry endpoint
    is the JSON text of [{ prompt, max_new_tokens, temperature, top_p }]
    where the prompt is "Write <language> code for: <prompt>", a line
    feed and "Only respond with code, no explanations.", and the three
    parameters are 1000, 0.2 and 0.95; the body is the same for every
    endpoint of the registry. *)
Theorem request_body_wraps_the_prompt :
  forall env p l m ep,
    own_endpoint (modelEndpoints (process_env env)) m = Some ep ->
    requests (events (generateCode env p l m))
    = [mkRequest (url ep) "POST" (headers ep)
         (JSON.stringify
            (JObj [("prompt",
                    JStr ("Write " ++ l ++ " code for: " ++ p ++ Str.nl
                          ++ "Only respond with code, no explanations."));
                   ("max_new_tokens", JNum "1000");
                   ("temperature", JNum "0.2");
                   ("top_p", JNum "0.95")]))]
    /\ JSON.stringify
         (JObj [("prompt",
                 JStr ("Write " ++ l ++ " code for: " ++ p ++ Str.nl
                       ++ "Only respond with code, no explanations."));
                ("max_new_tokens", JNum "1000");
                ("temperature", JNum "0.2");
                ("top_p", JNum "0.95")])
       = "{" ++ quoted "prompt" ++ ":" ++ Str.dquote
         ++ "Write " ++ Str.json_escape l ++ " code for: " ++ Str.json_escape p
         ++ Str.backslash ++ "nOnly respond with code, no explanations."
         ++ Str.dquote
         ++ "," ++ quoted "max_new_tokens" ++ ":1000"
         ++ "," ++ quoted "temperature" ++ ":0.2"
         ++ "," ++ quoted "top_p" ++ ":0.95}"
    /\ (forall m' ep',
           own_endpoint (modelEndpoints (process_env env)) m' = Some ep' ->
           map req_body (requests (events (generateCode env p l m')))
           = map req_body (requests (events (generateCode env p l m)))).
Proof.
  intros env p l m ep Hown.
  split; [exact (generateCode_requests env p l m ep Hown)|].
  split; [exact (request_body_text l p)|].
  intros m' ep' Hown'.
  now rewrite (generateCode_requests env p l m ep Hown),
    (generateCode_requests env p l m' ep' Hown').
Qed.

(** The hypothesis of C8 holds for each key of the registry; here the
    request of a wizard-coder job to a silent provider. *)
Lemma request_body_wraps_the_prompt_witness :
  map req_url
    (requests (events (generateCode (plain_env Silent) "fizzbuzz" "go" "wizard-coder")))
  = ["https://api.together.xyz/inference"]
  /\ map req_body
       (requests (events (generateCode (plain_env Silent) "fizzbuzz" "go" "wizard-coder")))
     = map req_body
         (requests (events (generateCode (plain_env Silent) "fizzbuzz" "go" "codellama"))).
Proof.
  destruct (request_body_wraps_the_prompt (plain_env Silent) "fizzbuzz" "go"
              "codellama" codellama_endpoint eq_refl) as (_ & _ & Hsame).
  split; [reflexivity|].
  exact (Hsame "wizard-coder"
           (mkEndpoint "https://api.together.xyz/inference"
              [("Authorization", "Bearer undefined");
               ("Content-Type", "application/json")]
              transform_wizard_coder)
           eq_refl).
Defined.

(** ** Nothing escapes the handler *)

Lemma avoids_res_json env status body : avoids is_next (res_json env status body).
Proof.
  unfold res_json. apply avoids_bind; [now apply avoids_emit | intros _].
  destruct (res_json_throws env status body); apply avoids_pure.
Qed.

(** Only the outermost handler calls [next]. *)
Lemma validation_block_no_next env body :
  avoids is_next (validation_block env body).
Proof.
  unfold validation_block. apply avoids_try.
  - apply avoids_bind.
    { unfold parse. destruct (generateCodeSchema body); apply avoids_pure. }
    intros job. unfold generation_block. apply avoids_try.
    + apply avoids_bind; [|intros code; apply avoids_res_json].
      apply (avoids_weaken is_reply is_next _ is_reply_next).
      apply generateCode_quiet.
    + intros e. apply avoids_bind; [now apply avoids_emit | intros _].
      apply avoids_res_json.
  - intros e. apply avoids_bind; [now apply avoids_emit | intros _].
    apply avoids_res_json.
Qed.

Lemma zod_message_not_empty issues : err_message (Zod.ZodError issues) <> "".
Proof.
  unfold Zod.ZodError, JSON.stringify2. cbn [err_message JSON.serialize].
  destruct issues; discriminate.
Qed.

(** The innermost block writes with status 200 or 500 only. *)
Lemma generation_block_statuses env job :
  Forall (fun r => fst r <> 400%N)
    (responses (events (generation_block env job))).
Proof.
  unfold generation_block.
  pose proof (generateCode_no_response env (prompt job) (language job) (model job)) as Q.
  destruct (generateCode env (prompt job) (language job) (model job))
    as [lg [code | ge |]]; cbn [events fst] in Q.
  - unfold res_json at 1. js_simp.
    destruct (res_json_throws env 200 _); js_simp.
    + unfold res_json. js_simp.
      destruct (res_json_throws env 500 _); js_simp; cbn [events fst];
        rewrite !responses_app, Q; cbn;
        repeat constructor; cbn; discriminate.
    + cbn [events fst]. rewrite !responses_app, Q. cbn.
      repeat constructor; cbn; discriminate.
  - js_simp. unfold res_json. js_simp.
    destruct (res_json_throws env 500 _); js_simp; cbn [events fst];
      rewrite !responses_app, Q; cbn; repeat constructor; cbn; discriminate.
  - js_simp. cbn [events fst]. rewrite Q. constructor.
Qed.

(** The middle block either ends as its body did, without a 400, or
    reports the exception of its body with a 400 write and ends as that
    write does. *)
Lemma validation_block_shape env body :
  (exists log o,
      validation_block env body = (log, o)
      /\ (forall e, o <> Throws e)
      /\ Forall (fun r => fst r <> 400%N) (responses log))
  \/ (exists log ve reply,
         validation_block env body
         = ((log ++ [EConsoleError "Validation error:" ve; EResJson 400 reply])%list,
            match res_json_throws env 400 reply with
            | Some e => Throws e
            | None => Returns tt
            end)
         /\ Forall (fun r => fst r <> 400%N) (responses log)).
Proof.
  unfold validation_block, parse.
  destruct (generateCodeSchema body) as [job | issues].
  - js_simp. pose proof (generation_block_statuses env job) as Q.
    destruct (generation_block env job) as [l [[] | ve |]]; cbn [events fst] in Q.
    + left. exists l, (Returns tt). js_simp. repeat split; [discriminate | exact Q].
    + right. exists l, ve, (validation_failure_body ve).
      unfold res_json. js_simp.
      destruct (res_json_throws env 400 _); js_simp;
        rewrite <- ?app_assoc, ?app_nil_r; cbn [app];
        (split; [reflexivity | exact Q]).
    + left. exists l, Pending. js_simp. repeat split; [discriminate | exact Q].
  - right. exists [], (Zod.ZodError issues), (validation_failure_body (Zod.ZodError issues)).
    unfold res_json. js_simp.
    destruct (res_json_throws env 400 _); js_simp;
      rewrite <- ?app_assoc, ?app_nil_r; cbn [app];
      (split; [reflexivity | constructor]).
Qed.

Lemma no_400_in (l : list (N * JsValue)) reply :
  Forall (fun r => fst r <> 400%N) l -> ~ In (400%N, reply) l.
Proof.
  intros H Hin. rewrite Forall_forall in H. now apply (H _ Hin).
Qed.

(** C9. No run of the handler ends in an exception.  A validation
    failure makes it write a 400 response with [error] and the message
    of the validation error; a failure of [generateCode] makes it write
    a 500 response with [error], the model id and the message of the
    failure, or "Unknown error occurred" when the failure has an empty
    message.  The handler calls [next] exactly when its 400 write throws,
    with what that write threw; it has then logged the exception, and it
    returns. *)
Theorem handler_contains_every_failure :
  forall env body,
    (forall e, outcome (generateCodeHandler env body) <> Throws e)
    /\ (forall issues,
           generateCodeSchema body = inr issues ->
           responds_with env (generateCodeHandler env body) 400
             (JObj [("error", JStr "Invalid request data");
                    ("message", JStr (err_message (Zod.ZodError issues)))]))
    /\ (forall job e,
           generateCodeSchema body = inl job ->
           outcome (generateCode env (prompt job) (language job) (model job))
           = Throws e ->
           (err_message e <> "" ->
            responds_with env (generateCodeHandler env body) 500
              (JObj [("error", JStr "Failed to generate code");
                     ("message", JStr (err_message e));
                     ("model", JStr (model job))]))
           /\ (err_message e = "" ->
               responds_with env (generateCodeHandler env body) 500
                 (JObj [("error", JStr "Failed to generate code");
                        ("message", JStr "Unknown error occurred");
                        ("model", JStr (model job))])))
    /\ (forall e,
           In (ENext e) (events (generateCodeHandler env body))
           <-> exists reply,
                 In (400%N, reply) (responses (events (generateCodeHandler env body)))
                 /\ res_json_throws env 400 reply = Some e)
    /\ (forall e,
           In (ENext e) (events (generateCodeHandler env body)) ->
           exists log,
             generateCodeHandler env body
             = ((log ++ [EConsoleError "Unexpected error in generateCodeHandler:" e;
                         ENext e])%list,
                Returns tt)
             /\ forall e', ~ In (ENext e') log).
Proof.
  intros env body.
  split; [exact (handler_never_throws env body)|].
  split.
  { intros issues Hv.
    pose proof (handler_responds_invalid env body issues Hv) as R.
    unfold validation_failure_body, message_or in R.
    destruct (err_message (Zod.ZodError issues)) eqn:E; [|exact R].
    now elim (zod_message_not_empty issues). }
  split.
  { intros job e Hv He.
    pose proof (handler_responds_failure env body job e Hv He) as R.
    unfold generation_failure_body, message_or in R.
    split; intros Hm.
    - destruct (err_message e); [now elim Hm | exact R].
    - rewrite Hm in R. exact R. }
  pose proof (validation_block_no_next env body) as Hq. unfold avoids in Hq.
  destruct (validation_block_shape env body)
    as [(log & o & V & Ho & Hs) | (log & ve & reply & V & Hs)].
  - rewrite V in Hq. cbn [events fst] in Hq.
    rewrite (handler_passes env body log o V Ho). cbn [events fst].
    split.
    + intros e. split.
      * intros Hin. now elim (no_next_in log e Hq).
      * intros (r & Hin & _). now elim (no_400_in _ r Hs).
    + intros e Hin. now elim (no_next_in log e Hq).
  - rewrite V in Hq. cbn [events fst] in Hq.
    destruct (res_json_throws env 400 reply) as [e'|] eqn:W.
    + rewrite (handler_forwards env body _ e' V). cbn [events fst].
      rewrite !responses_app. cbn [responses]. rewrite app_nil_r.
      split.
      * intros e. split.
        -- intros Hin. apply in_app_or in Hin as [Hin | Hin];
             [now elim (no_next_in _ e Hq)|].
           destruct Hin as [Hin | [Hin | []]]; [discriminate|].
           injection Hin as ->. exists reply. split; [|exact W].
           apply in_or_app. right. now left.
        -- intros (r & Hin & Hr). apply in_app_or in Hin as [Hin | Hin];
             [now elim (no_400_in _ r Hs)|].
           destruct Hin as [Hin | []]. injection Hin as <-.
           rewrite W in Hr. injection Hr as ->.
           apply in_or_app. right. right. now left.
      * intros e Hin. apply in_app_or in Hin as [Hin | Hin];
          [now elim (no_next_in _ e Hq)|].
        destruct Hin as [Hin | [Hin | []]]; [discriminate|].
        injection Hin as ->. eexists. split; [reflexivity|].
        intros e''. now apply no_next_in.
    + rewrite (handler_passes env body _ _ V) by discriminate. cbn [events fst].
      rewrite !responses_app. cbn [responses].
      split.
      * intros e. split.
        -- intros Hin. now elim (no_next_in _ e Hq).
        -- intros (r & Hin & Hr). apply in_app_or in Hin as [Hin | Hin];
             [now elim (no_400_in _ r Hs)|].
           destruct Hin as [Hin | []]. injection Hin as <-. congruence.
      * intros e Hin. now elim (no_next_in _ e Hq).
Qed.

(** A response object that throws on every write: the failure of the
    400 write reaches the outermost handler and goes to [next]. *)
Example handler_forwards_a_failed_write :
  generateCodeHandler (broken_res_env Silent write_failed) empty_prompt_request
  = ([EConsoleError "Validation error:" (mkError "ZodError" prompt_required_text);
      EResJson 400
        (JObj [("error", JStr "Invalid request data");
               ("message", JStr prompt_required_text)]);
      EConsoleError "Unexpected error in generateCodeHandler:" write_failed;
      ENext write_failed],
     Returns tt).
Proof. reflexivity. Qed.

(** With the same response object a generation failure is written as
    500, the failure of that write as 400, and the failure of that one
    goes to [next]. *)
Example handler_falls_through_its_handlers :
  responses
    (events (generateCodeHandler (broken_res_env Silent write_failed)
               unknown_model_request))
  = [(500%N, JObj [("error", JStr "Failed to generate code");
                   ("message", JStr "Unsupported model: unknown-model");
                   ("model", JStr "unknown-model")]);
     (400%N, JObj [("error", JStr "Invalid request data");
                   ("message", JStr "write after end")])]
  /\ In (ENext write_failed)
       (events (generateCodeHandler (broken_res_env Silent write_failed)
                  unknown_model_request)).
Proof. split; [reflexivity | cbn; tauto]. Qed.

(** ** Bodies without the field the transform reads *)

Lemma get_prop_property data key :
  data <> JNull -> data <> JUndefined ->
  get_prop data key = ret (property data key).
Proof.
  intros Hn Hu. destruct data; try reflexivity; try congruence.
  cbn [get_prop property]. unfold field.
  destruct (own_property fields key); reflexivity.
Qed.

Lemma get_prop_opt_property v key :
  get_prop_opt v key = ret (property v key).
Proof.
  destruct v; try reflexivity.
  cbn [get_prop_opt get_prop property]. unfold field.
  destruct (own_property fields key); reflexivity.
Qed.

Lemma js_or_absent v fallback : absent_or_null v -> js_or v fallback = fallback.
Proof. now intros [-> | ->]. Qed.

(** On a body that is not [null], a transform whose field is absent or
    [null] yields the empty string. *)
Lemma transform_of_missing_field penv m ep data :
  own_endpoint (modelEndpoints penv) m = Some ep ->
  data <> JNull -> data <> JUndefined ->
  absent_or_null (field_read m data) ->
  transform ep data = ret (JStr "").
Proof.
  intros Hown Hn Hu. unfold field_read.
  apply own_endpoint_cases in Hown as [[-> ->] | [[-> ->] | [-> ->]]];
    cbn [String.eqb Ascii.eqb Bool.eqb]; intros Ha.
  - unfold transform_codellama.
    rewrite (get_prop_property data "output" Hn Hu). js_simp.
    now rewrite (js_or_absent _ _ Ha).
  - unfold transform_starcoder.
    rewrite (get_prop_property data "generated_text" Hn Hu). js_simp.
    now rewrite (js_or_absent _ _ Ha).
  - unfold transform_wizard_coder.
    rewrite (get_prop_property data "output" Hn Hu). js_simp.
    rewrite get_prop_opt_property. js_simp.
    now rewrite (js_or_absent _ _ Ha).
Qed.

(** C10, as stated, fails: the body [null] has no [output], yet a
    codellama dispatch that receives it fails with a [TypeError] thrown
    by the transform, not with the empty-result error. *)
Lemma null_body_is_not_an_empty_result :
  ~ (absent_or_null (field_read "codellama" JNull) ->
     outcome (generateCode null_body_env "fizzbuzz" "javascript" "codellama")
     = Throws (Error "Empty response from AI model")).
Proof.
  intros H. assert (A : absent_or_null (field_read "codellama" JNull))
    by (left; reflexivity).
  specialize (H A). vm_compute in H. discriminate H.
Qed.

(** What the code does with the body [null]. *)
Example null_body_throws_type_error :
  outcome (generateCode null_body_env "fizzbuzz" "javascript" "codellama")
  = Throws (TypeError "Cannot read properties of null (reading 'output')").
Proof. reflexivity. Qed.

(** C10, amended.  For a success response whose JSON body is not [null]
    and in which the field the transform reads ([output] for codellama,
    [generated_text] for starcoder, [output.text] for wizard-coder) is
    absent or [null], the transform returns the empty string and
    [generateCode] fails with "Empty response from AI model". *)
Theorem missing_field_is_an_empty_result :
  forall env p l m ep ms r data,
    own_endpoint (modelEndpoints (process_env env)) m = Some ep ->
    provider env (outbound ep l p) = Responds ms r ->
    (ms < TIMEOUT_MS)%N ->
    ok r = true ->
    json r = Returns data ->
    data <> JNull ->
    data <> JUndefined ->
    absent_or_null (field_read m data) ->
    transform ep data = ret (JStr "")
    /\ outcome (generateCode env p l m)
       = Throws (Error "Empty response from AI model").
Proof.
  intros env p l m ep ms r data Hown Hp Hms Hok Hj Hn Hu Ha.
  assert (Ht := transform_of_missing_field _ m ep data Hown Hn Hu Ha).
  split; [exact Ht|].
  now rewrite (generateCode_empty env p l m ep Hown ms r data "" Hp Hms Hok Hj Ht
                 eq_refl).
Qed.

(** The hypotheses of C10 hold for a wizard-coder body whose [output]
    has no [text]. *)
Lemma missing_field_is_an_empty_result_witness :
  outcome
    (generateCode
       (plain_env (Responds 5 (json_response (JObj [("output", JObj [])]))))
       "fizzbuzz" "javascript" "wizard-coder")
  = Throws (Error "Empty response from AI model").
Proof.
  refine (proj2 (missing_field_is_an_empty_result
                   (plain_env (Responds 5 (json_response (JObj [("output", JObj [])]))))
                   "fizzbuzz" "javascript" "wizard-coder"
                   (mkEndpoint "https://api.together.xyz/inference"
                      [("Authorization", "Bearer undefined");
                       ("Content-Type", "application/json")]
                      transform_wizard_coder)
                   5%N (json_response (JObj [("output", JObj [])]))
                   (JObj [("output", JObj [])])
                   eq_refl eq_refl eq_refl eq_refl eq_refl _ _ _)).
  - discriminate.
  - discriminate.
  - left. reflexivity.
Defined.

(** ** Runs outside the claims *)

(** The timer guards the wait for the response, not the reading of its
    body: once the headers are in the timer is cleared, and a body that
    never ends leaves [generateCode] pending. *)
Example stalled_body_leaves_the_run_pending :
  generateCode (plain_env (Responds 10 stalled_body)) "fizzbuzz" "javascript"
    "codellama"
  = ([ESetTimeout 30000; EFetch (outbound codellama_endpoint "javascript" "fizzbuzz");
      EResponse 200; EClearTimeout],
     Pending).
Proof. reflexivity. Qed.

(** A connection that breaks before the timer fires is rethrown as it
    is; the handler answers 500 with its message. *)
Example network_failure_is_rethrown :
  generateCode (plain_env (Fails 10 refused)) "fizzbuzz" "javascript" "codellama"
  = ([ESetTimeout 30000; EFetch (outbound codellama_endpoint "javascript" "fizzbuzz");
      ENetworkError refused;
      EConsoleError "Error generating code with codellama:" refused],
     Throws refused).
Proof. reflexivity. Qed.

(** A transformed value that is not a string (an array of chunks, say)
    has no [trim]: the run fails with a [TypeError]. *)
Example array_output_has_no_trim :
  outcome
    (generateCode
       (plain_env (Responds 10 (json_response (JObj [("output", JArr [JStr "x"])]))))
       "fizzbuzz" "javascript" "codellama")
  = Throws (TypeError "result.trim is not a function").
Proof. reflexivity. Qed.

(** * Further properties of the route *)

(** ** Every way a dispatch can go *)

Section Behaviours.
Variables (env : Env) (p l m : string) (ep : ModelEndpoint).
Hypothesis registered :
  own_endpoint (modelEndpoints (process_env env)) m = Some ep.

(** The timer fires, also on a response due at the very millisecond. *)
Lemma generateCode_aborted :
  match provider env (outbound ep l p) with
  | Responds ms _ | Fails ms _ => (ms <? TIMEOUT_MS)%N = false
  | Silent => True
  end ->
  generateCode env p l m
  = ([ESetTimeout TIMEOUT_MS; EFetch (outbound ep l p); EAbort;
      EConsoleError (log_label m) (timeout_error m)],
     Throws (timeout_error m)).
Proof.
  intros H. unfold generateCode. rewrite (lookup_own _ _ _ registered).
  unfold member_url, member_headers, fetch. fold (outbound ep l p).
  destruct (provider env (outbound ep l p)) as [ms r | ms e |];
    try rewrite H; js_simp; reflexivity.
Qed.

(** The connection breaks before the timer fires. *)
Lemma generateCode_network_failure ms e :
  provider env (outbound ep l p) = Fails ms e -> (ms < TIMEOUT_MS)%N ->
  generateCode env p l m
  = ([ESetTimeout TIMEOUT_MS; EFetch (outbound ep l p); ENetworkError e;
      EConsoleError (log_label m)
        (if err_name e =? "AbortError" then timeout_error m else e)],
     Throws (if err_name e =? "AbortError" then timeout_error m else e)).
Proof.
  intros Hp Hms. unfold generateCode. rewrite (lookup_own _ _ _ registered).
  unfold member_url, member_headers, fetch. fold (outbound ep l p).
  rewrite Hp. apply N.ltb_lt in Hms. rewrite Hms. js_simp.
  destruct (err_name e =? "AbortError"); js_done.
Qed.

End Behaviours.

(** The two handlers inside [generateCode] rethrow: they neither settle a
    pending run nor leave one pending. *)
Lemma outcome_try_pending {A} (m : M A) (h : JsError -> M A) :
  (forall e, outcome (h e) <> Pending) ->
  (outcome (try_catch m h) = Pending <-> outcome m = Pending).
Proof.
  intros Hh. destruct m as [log [a|e|]]; cbn.
  - tauto.
  - specialize (Hh e). destruct (h e) as [log' o]. cbn in *.
    split; [tauto | discriminate].
  - tauto.
Qed.

Lemma outcome_bind_pending {A B} (m : M A) (k : A -> M B) :
  outcome (bind m k) = Pending <->
  outcome m = Pending \/ exists a, outcome m = Returns a /\ outcome (k a) = Pending.
Proof.
  destruct m as [log [a|e|]]; cbn.
  - destruct (k a) as [log' o] eqn:E. cbn. split.
    + intros ->. right. exists a. now rewrite E.
    + intros [H | [a' [[= <-] H]]]; [discriminate|]. now rewrite E in H.
  - split; [discriminate|]. intros [H | [a [H _]]]; discriminate.
  - split; [auto|reflexivity].
Qed.

(** Reading the body is the only step of [handle_response] that can stay
    pending. *)
Lemma handle_response_pending penv m ep r :
  own_endpoint (modelEndpoints penv) m = Some ep ->
  (outcome (handle_response (Own ep) r) = Pending <-> body_stalls r).
Proof.
  intros Hown. unfold handle_response, body_stalls, member_transform.
  unfold emit. rewrite bind_returns, outcome_after.
  destruct (ok r); cbn [negb].
  - unfold ret. rewrite bind_returns, after_nil.
    destruct (json r) as [data| e |]; unfold await.
    + rewrite bind_returns, after_nil.
      destruct (transform_pure penv m ep data Hown) as [[v ->] | [e ->]];
        unfold ret, throw.
      * rewrite bind_returns, after_nil.
        split; [|intros [[H _] | [_ H]]; discriminate].
        destruct (negb (truthy v)); [discriminate|].
        destruct v; cbn; try discriminate.
        destruct (Str.is_empty (Str.trim s)); discriminate.
      * rewrite bind_throws. split; [discriminate|].
        intros [[H _] | [_ H]]; discriminate.
    + rewrite bind_throws. split; [discriminate|].
      intros [[H _] | [_ H]]; discriminate.
    + rewrite bind_pending. split; [now right | reflexivity].
  - unfold text_or_statusText, await.
    destruct (text r) as [t | e |].
    + rewrite try_returns, bind_returns, after_nil. unfold throw.
      rewrite bind_throws. split; [discriminate|].
      intros [[_ H] | [H _]]; discriminate.
    + rewrite try_throws, after_nil. unfold ret.
      rewrite bind_returns, after_nil. unfold throw. rewrite bind_throws.
      split; [discriminate|]. intros [[_ H] | [H _]]; discriminate.
    + rewrite try_pending, !bind_pending. split; [now left | reflexivity].
Qed.

Lemma lookup_cases registry m :
  (exists ep, own_endpoint registry m = Some ep /\ lookup registry m = Some (Own ep))
  \/ lookup registry m = Some Inherited
  \/ lookup registry m = None.
Proof.
  unfold lookup. destruct (own_endpoint registry m) as [ep|]; [left; eauto|].
  destruct (inherited m); auto.
Qed.

Lemma events_try_prefix {A} (m : M A) (h : JsError -> M A) :
  exists rest, events (try_catch m h) = (events m ++ rest)%list.
Proof.
  destruct m as [log [a|e|]]; cbn; try (exists []; now rewrite app_nil_r).
  destruct (h e) as [log' o]. now exists log'.
Qed.

Lemma handle_response_clears endpoint r :
  exists rest, events (handle_response endpoint r) = EClearTimeout :: rest.
Proof.
  unfold handle_response, emit. rewrite bind_returns, events_after. cbn [app]. eauto.
Qed.

(** ** Where a request can hang *)

(** X2. [generateCode] stays pending exactly when a registered model's
    provider answers before the timer fires and the read of the body
    never ends; the handler stays pending exactly when that happens to a
    validated job.  Every other request is settled. *)
Theorem run_hangs_only_on_a_stalled_body :
  forall env body p l m,
    (outcome (generateCode env p l m) = Pending <->
     exists r, answered_in_time env p l m r /\ body_stalls r)
    /\ (outcome (generateCodeHandler env body) = Pending <->
        exists job r,
          generateCodeSchema body = inl job
          /\ answered_in_time env (prompt job) (language job) (model job) r
          /\ body_stalls r).
Proof.
  assert (G : forall env p l m,
             outcome (generateCode env p l m) = Pending <->
             exists r, answered_in_time env p l m r /\ body_stalls r).
  { intros env p l m. unfold answered_in_time.
    destruct (lookup_cases (modelEndpoints (process_env env)) m)
      as [[ep [Hown L]] | [L | L]].
    - destruct (provider env (outbound ep l p)) as [ms r | ms e |] eqn:Hp.
      + destruct (N.ltb_spec ms TIMEOUT_MS) as [Hms | Hms].
        * rewrite (generateCode_answered env p l m ep Hown ms r Hp Hms).
          rewrite outcome_after.
          rewrite outcome_try_pending
            by (intros e; unfold console_error, emit, throw; discriminate).
          rewrite outcome_try_pending
            by (intros e; destruct (err_name e =? "AbortError"); discriminate).
          rewrite (handle_response_pending _ m ep r Hown).
          split.
          -- intros Hs. exists r. split; [|exact Hs]. now exists ep, ms.
          -- intros [r' [[ep' [ms' [Hown' [Hp' _]]]] Hs]].
             rewrite Hown in Hown'. injection Hown' as <-.
             rewrite Hp in Hp'. now injection Hp' as <- <-.
        * rewrite (generateCode_aborted env p l m ep Hown)
            by (rewrite Hp; apply N.ltb_ge; exact Hms).
          split; [discriminate|].
          intros [r' [[ep' [ms' [Hown' [Hp' Hms']]]] _]].
          rewrite Hown in Hown'. injection Hown' as <-.
          rewrite Hp in Hp'. injection Hp' as <- <-. lia.
      + split.
        * destruct (N.ltb_spec ms TIMEOUT_MS) as [Hms | Hms].
          -- rewrite (generateCode_network_failure env p l m ep Hown ms e Hp Hms).
             discriminate.
          -- rewrite (generateCode_aborted env p l m ep Hown)
               by (rewrite Hp; apply N.ltb_ge; exact Hms).
             discriminate.
        * intros [r' [[ep' [ms' [Hown' [Hp' _]]]] _]].
          rewrite Hown in Hown'. injection Hown' as <-. congruence.
      + rewrite (generateCode_aborted env p l m ep Hown) by now rewrite Hp.
        split; [discriminate|].
        intros [r' [[ep' [ms' [Hown' [Hp' _]]]] _]].
        rewrite Hown in Hown'. injection Hown' as <-. congruence.
    - rewrite (generateCode_inherited env p l m L). split; [discriminate|].
      intros [r [[ep [ms [Hown _]]] _]].
      apply lookup_own in Hown. congruence.
    - rewrite (generateCode_unsupported env p l m L). split; [discriminate|].
      intros [r [[ep [ms [Hown _]]] _]].
      apply lookup_own in Hown. congruence. }
  intros env body p l m. split; [apply G|].
  destruct (generateCodeSchema body) as [job | issues] eqn:Hv.
  - destruct (generateCode env (prompt job) (language job) (model job))
      as [log o] eqn:Hg.
    assert (Ho : outcome (generateCode env (prompt job) (language job) (model job)) = o)
      by now rewrite Hg.
    destruct o as [code | e |].
    + assert (V := validation_block_success env body job Hv code Ho).
      split.
      * intros H. exfalso. revert H. unfold generateCodeHandler. rewrite V.
        unfold report_success, report_failure, report_invalid.
        destruct (res_json_throws env 200 _); [|discriminate].
        destruct (res_json_throws env 500 _); [|discriminate].
        destruct (res_json_throws env 400 _); discriminate.
      * intros [job' [r [[= <-] H]]].
        assert (Hp := proj2 (G _ _ _ _) (ex_intro _ r H)). congruence.
    + assert (V := validation_block_failure env body job Hv e Ho).
      split.
      * intros H. exfalso. revert H. unfold generateCodeHandler. rewrite V.
        unfold report_failure, report_invalid.
        destruct (res_json_throws env 500 _); [|discriminate].
        destruct (res_json_throws env 400 _); discriminate.
      * intros [job' [r [[= <-] H]]].
        assert (Hp := proj2 (G _ _ _ _) (ex_intro _ r H)). congruence.
    + assert (V := validation_block_pending env body job Hv Ho).
      split.
      * intros _. exists job. apply G in Ho as [r Hr]. exists r. now split.
      * intros _. unfold generateCodeHandler. now rewrite V.
  - split.
    + intros H. exfalso. revert H. unfold generateCodeHandler.
      rewrite (validation_block_invalid env body issues Hv). unfold report_invalid.
      destruct (res_json_throws env 400 _); discriminate.
    + intros [job [r [H _]]]. discriminate.
Qed.

(** ** The timer *)

(** X3. [generateCode] sets the timer for every model that passes the
    guard and clears it exactly when the provider's response arrives
    before the timer fires.  A call that fails on its own, a model id
    inherited from [Object.prototype]: the timer is set and stays armed. *)
Theorem timer_is_cleared_only_on_a_response :
  forall env p l m,
    (In (ESetTimeout 30000) (events (generateCode env p l m)) <->
     lookup (modelEndpoints (process_env env)) m <> None)
    /\ (In EClearTimeout (events (generateCode env p l m)) <->
        exists r, answered_in_time env p l m r).
Proof.
  intros env p l m. unfold answered_in_time.
  destruct (lookup_cases (modelEndpoints (process_env env)) m)
    as [[ep [Hown L]] | [L | L]].
  - assert (Hset : lookup (modelEndpoints (process_env env)) m <> None)
      by (rewrite L; discriminate).
    destruct (provider env (outbound ep l p)) as [ms r | ms e |] eqn:Hp.
    + destruct (N.ltb_spec ms TIMEOUT_MS) as [Hms | Hms].
      * rewrite (generateCode_answered env p l m ep Hown ms r Hp Hms).
        rewrite events_after.
        destruct (events_try_prefix
                    (try_catch (handle_response (Own ep) r)
                       (fun fetchError =>
                          if err_name fetchError =? "AbortError"
                          then throw (timeout_error m) else throw fetchError))
                    (fun error =>
                       bind (console_error (log_label m) error)
                         (fun _ => throw error))) as [rest1 ->].
        destruct (events_try_prefix (handle_response (Own ep) r)
                    (fun fetchError =>
                       if err_name fetchError =? "AbortError"
                       then throw (timeout_error m) else throw fetchError))
          as [rest2 ->].
        destruct (handle_response_clears (Own ep) r) as [rest3 ->].
        split; split; intros _; try exact Hset.
        -- now left.
        -- exists r, ep, ms. auto.
        -- cbn. auto.
      * rewrite (generateCode_aborted env p l m ep Hown)
          by (rewrite Hp; apply N.ltb_ge; exact Hms).
        split; split; intros H; try exact Hset; [now left | |].
        -- cbn in H. intuition discriminate.
        -- destruct H as [r' [ep' [ms' [Hown' [Hp' Hms']]]]].
           rewrite Hown in Hown'. injection Hown' as <-.
           rewrite Hp in Hp'. injection Hp' as <- <-. lia.
    + assert (Hno : ~ exists r ep' ms',
                 own_endpoint (modelEndpoints (process_env env)) m = Some ep'
                 /\ provider env (outbound ep' l p) = Responds ms' r
                 /\ (ms' < TIMEOUT_MS)%N).
      { intros [r' [ep' [ms' [Hown' [Hp' _]]]]].
        rewrite Hown in Hown'. injection Hown' as <-. congruence. }
      destruct (N.ltb_spec ms TIMEOUT_MS) as [Hms | Hms].
      * rewrite (generateCode_network_failure env p l m ep Hown ms e Hp Hms).
        split; split; intros H; try exact Hset; [now left | | now elim Hno].
        cbn in H. intuition discriminate.
      * rewrite (generateCode_aborted env p l m ep Hown)
          by (rewrite Hp; apply N.ltb_ge; exact Hms).
        split; split; intros H; try exact Hset; [now left | | now elim Hno].
        cbn in H. intuition discriminate.
    + rewrite (generateCode_aborted env p l m ep Hown) by now rewrite Hp.
      split; split; intros H; try exact Hset; [now left | |].
      * cbn in H. intuition discriminate.
      * destruct H as [r' [ep' [ms' [Hown' [Hp' _]]]]].
        rewrite Hown in Hown'. injection Hown' as <-. congruence.
  - rewrite (generateCode_inherited env p l m L). rewrite L.
    split; split; intros H; try discriminate; [now left | |].
    + cbn in H. intuition discriminate.
    + destruct H as [r [ep [ms [Hown _]]]]. apply lookup_own in Hown. congruence.
  - rewrite (generateCode_unsupported env p l m L). rewrite L.
    split; split; intros H; try contradiction; try (now elim H).
    destruct H as [r [ep [ms [Hown _]]]]. apply lookup_own in Hown. congruence.
Qed.

(** A connection refused at once: the timer is set and never cleared. *)
Example refused_connection_leaves_the_timer_armed :
  In (ESetTimeout 30000)
    (events (generateCode (plain_env (Fails 10 refused)) "fizzbuzz" "javascript"
               "codellama"))
  /\ ~ In EClearTimeout
         (events (generateCode (plain_env (Fails 10 refused)) "fizzbuzz"
                    "javascript" "codellama")).
Proof. split; [now left | cbn; intuition discriminate]. Qed.

(** ** One answer per request *)

Lemma delivered_app env (l1 l2 : list Event) :
  delivered env (l1 ++ l2) = (delivered env l1 ++ delivered env l2)%list.
Proof.
  induction l1 as [|ev l1 IH]; [reflexivity|].
  destruct ev; cbn; try exact IH.
  destruct (res_json_throws env status0 body); cbn; now rewrite IH.
Qed.

Lemma forwarded_app (l1 l2 : list Event) :
  forwarded (l1 ++ l2) = (forwarded l1 ++ forwarded l2)%list.
Proof.
  induction l1 as [|ev l1 IH]; [reflexivity|].
  destruct ev; cbn; now rewrite IH.
Qed.

Lemma quiet_log_delivers_nothing env (log : list Event) :
  Forall (fun ev => is_reply ev = false) log ->
  delivered env log = [] /\ forwarded log = [].
Proof.
  induction 1 as [|ev log Hev _ [IHd IHf]]; [now split|].
  destruct ev; try discriminate; cbn; now split.
Qed.

(** X4. A run of the handler that returns has either delivered exactly
    one response and called [next] for nothing, or delivered none and
    called [next] once; a run that stays pending has done neither.  So
    no request is answered twice, and none is both answered and
    forwarded. *)
Theorem one_answer_per_request :
  forall env body,
    let log := events (generateCodeHandler env body) in
    (outcome (generateCodeHandler env body) = Returns tt ->
     (length (delivered env log) = 1 /\ forwarded log = [])
     \/ (delivered env log = [] /\ length (forwarded log) = 1))
    /\ (outcome (generateCodeHandler env body) = Pending ->
        delivered env log = [] /\ forwarded log = [])
    /\ length (delivered env log) + length (forwarded log) <= 1.
Proof.
  intros env body log. subst log.
  assert (T : forall pre (tail : M unit),
             Forall (fun ev => is_reply ev = false) pre ->
             validation_block env body = after pre tail ->
             forall d f o,
               (let full := try_catch tail
                              (fun error =>
                                 bind (console_error
                                         "Unexpected error in generateCodeHandler:" error)
                                   (fun _ => next error)) in
                delivered env (events full) = d /\ forwarded (events full) = f
                /\ outcome full = o) ->
               delivered env (events (generateCodeHandler env body)) = d
               /\ forwarded (events (generateCodeHandler env body)) = f
               /\ outcome (generateCodeHandler env body) = o).
  { intros pre tail Hpre V d f o [<- [<- <-]].
    unfold generateCodeHandler. rewrite V, try_after, events_after, outcome_after.
    rewrite delivered_app, forwarded_app.
    destruct (quiet_log_delivers_nothing env pre Hpre) as [-> ->].
    cbn [app]. auto. }
  destruct (generateCodeSchema body) as [job | issues] eqn:Hv.
  - pose proof (generateCode_quiet env (prompt job) (language job) (model job)) as Q.
    unfold avoids in Q.
    destruct (generateCode env (prompt job) (language job) (model job))
      as [glog o] eqn:Hg.
    assert (Ho : outcome (generateCode env (prompt job) (language job) (model job)) = o)
      by now rewrite Hg.
    cbn [events fst] in Q.
    destruct o as [code | e |].
    + assert (V := validation_block_success env body job Hv code Ho).
      rewrite Hg in V. cbn [events fst] in V.
      unfold report_success, report_failure, report_invalid in V.
      destruct (res_json_throws env 200 _) eqn:W2;
        [destruct (res_json_throws env 500 _) eqn:W5;
         [destruct (res_json_throws env 400 _) eqn:W4|]|];
        destruct (T glog _ Q V _ _ _
                    (conj eq_refl (conj eq_refl eq_refl))) as [-> [-> ->]];
        cbn; rewrite ?W2, ?W5, ?W4; cbn;
        (split; [intros _; auto | split; [try discriminate | lia]]).
    + assert (V := validation_block_failure env body job Hv e Ho).
      rewrite Hg in V. cbn [events fst] in V.
      unfold report_failure, report_invalid in V.
      destruct (res_json_throws env 500 _) eqn:W5;
        [destruct (res_json_throws env 400 _) eqn:W4|];
        destruct (T glog _ Q V _ _ _
                    (conj eq_refl (conj eq_refl eq_refl))) as [-> [-> ->]];
        cbn; rewrite ?W5, ?W4; cbn;
        (split; [intros _; auto | split; [try discriminate | lia]]).
    + assert (V := validation_block_pending env body job Hv Ho).
      rewrite Hg in V. cbn [events fst] in V.
      assert (V' : validation_block env body = after glog (([], Pending) : M unit)).
      { rewrite V. unfold after. cbn. now rewrite app_nil_r. }
      destruct (T glog _ Q V' _ _ _
                  (conj eq_refl (conj eq_refl eq_refl))) as [-> [-> ->]].
      cbn. split; [discriminate | split; [auto | lia]].
  - assert (V := validation_block_invalid env body issues Hv).
    rewrite <- (after_nil (report_invalid env (Zod.ZodError issues))) in V.
    unfold report_invalid in V.
    destruct (res_json_throws env 400 _) eqn:W4;
      destruct (T [] _ (Forall_nil _) V _ _ _
                  (conj eq_refl (conj eq_refl eq_refl))) as [-> [-> ->]];
      cbn; rewrite ?W4; cbn;
      (split; [intros _; auto | split; [try discriminate | lia]]).
Qed.

(** ** What the transforms hand on *)

(** X5. On a JSON body that is not [null] the transform of a registry
    model returns the field it reads ([output], [generated_text],
    [output.text]) when that field is truthy, whatever its type, and the
    empty string otherwise; on [null] it throws a [TypeError]. *)
Theorem transform_reads_its_field :
  forall penv m ep data,
    own_endpoint (modelEndpoints penv) m = Some ep ->
    data <> JUndefined ->
    (data <> JNull ->
     transform ep data
     = ret (if truthy (field_read m data) then field_read m data else JStr ""))
    /\ (data = JNull ->
        exists message, transform ep data = throw (TypeError message)).
Proof.
  intros penv m ep data Hown Hu. unfold field_read.
  apply own_endpoint_cases in Hown as [[-> ->] | [[-> ->] | [-> ->]]];
    cbn [String.eqb Ascii.eqb Bool.eqb]; split; intros Hn.
  - unfold transform_codellama.
    rewrite (get_prop_property data "output" Hn Hu). js_simp. reflexivity.
  - subst data. eexists. reflexivity.
  - unfold transform_starcoder.
    rewrite (get_prop_property data "generated_text" Hn Hu). js_simp. reflexivity.
  - subst data. eexists. reflexivity.
  - unfold transform_wizard_coder.
    rewrite (get_prop_property data "output" Hn Hu). js_simp.
    rewrite get_prop_opt_property. js_simp. reflexivity.
  - subst data. eexists. reflexivity.
Qed.

Lemma transform_reads_its_field_witness :
  transform codellama_endpoint (JObj [("output", JArr [JStr "a"; JStr "b"])])
  = ret (JArr [JStr "a"; JStr "b"]).
Proof.
  exact (proj1 (transform_reads_its_field no_variables "codellama"
                  codellama_endpoint (JObj [("output", JArr [JStr "a"; JStr "b"])])
                  eq_refl (fun H => ltac:(discriminate H)))
           (fun H => ltac:(discriminate H))).
Defined.

(** X6. A transformed value that is truthy and not a string (an array of
    chunks, a number, an object) is never returned: [generateCode] throws
    the [TypeError] of calling a missing [trim], and the handler answers
    500 with its message. *)
Theorem non_string_result_is_a_type_error :
  forall env body job ep ms r data result,
    generateCodeSchema body = inl job ->
    own_endpoint (modelEndpoints (process_env env)) (model job) = Some ep ->
    provider env (outbound ep (language job) (prompt job)) = Responds ms r ->
    (ms < TIMEOUT_MS)%N ->
    ok r = true ->
    json r = Returns data ->
    transform ep data = ret result ->
    truthy result = true ->
    (forall s, result <> JStr s) ->
    outcome (generateCode env (prompt job) (language job) (model job))
    = Throws (TypeError "result.trim is not a function")
    /\ responds_with env (generateCodeHandler env body) 500
         (JObj [("error", JStr "Failed to generate code");
                ("message", JStr "result.trim is not a function");
                ("model", JStr (model job))]).
Proof.
  intros env body job ep ms r data result Hv Hown Hp Hms Hok Hj Ht Htr Hns.
  assert (Ho : outcome (generateCode env (prompt job) (language job) (model job))
               = Throws (TypeError "result.trim is not a function")).
  { rewrite (generateCode_answered env _ _ _ ep Hown ms r Hp Hms).
    unfold handle_response, member_transform. rewrite Hok, Hj. js_simp.
    rewrite Ht. js_simp. rewrite Htr. cbn [negb].
    destruct result; try discriminate Htr; try (now elim (Hns s));
      js_simp; reflexivity. }
  split; [exact Ho|].
  exact (handler_responds_failure env body job _ Hv Ho).
Qed.

Lemma non_string_result_is_a_type_error_witness :
  outcome (generateCode chunked_output_env "fizzbuzz" "javascript" "codellama")
  = Throws (TypeError "result.trim is not a function").
Proof.
  refine (proj1 (non_string_result_is_a_type_error chunked_output_env
                   prompt_only_request default_job codellama_endpoint 10%N
                   (json_response (JObj [("output", JArr [JStr "def f():"; JStr " pass"])]))
                   (JObj [("output", JArr [JStr "def f():"; JStr " pass"])])
                   (JArr [JStr "def f():"; JStr " pass"])
                   eq_refl eq_refl eq_refl eq_refl eq_refl eq_refl eq_refl eq_refl _)).
  intros s H. discriminate H.
Defined.

(** ** Validation as a normal form *)

(** X7. A job that validation produced validates to itself: sent back as
    [{ prompt, language, model }] it is accepted unchanged. *)
Theorem validated_job_validates_to_itself :
  forall input job,
    generateCodeSchema input = inl job ->
    generateCodeSchema (job_object job) = inl job.
Proof.
  intros input job H.
  apply generateCodeSchema_accepts in H as (fields & -> & Hp & _ & _).
  apply string_min_accepts in Hp as [_ Hlen].
  apply generateCodeSchema_accepts. unfold job_object.
  eexists. split; [reflexivity|]. cbn [field own_property String.eqb Ascii.eqb Bool.eqb].
  split; [|split; reflexivity].
  apply string_min_accepts. split; [reflexivity | exact Hlen].
Qed.

Lemma validated_job_validates_to_itself_witness :
  generateCodeSchema (job_object default_job) = inl default_job.
Proof.
  exact (validated_job_validates_to_itself prompt_only_request default_job eq_refl).
Defined.

(** ** Configuration *)





(** * The request log and the development logger *)

(** ** Cutting a line *)

Lemma length_append (a b : string) :
  String.length (a ++ b) = String.length a + String.length b.
Proof. induction a as [|c a IH]; cbn; [reflexivity | now rewrite IH]. Qed.

Lemma substring_0_cons n c s :
  substring 0 (S n) (String c s) = String c (substring 0 n s).
Proof. reflexivity. Qed.

Lemma substring_0_length n s : String.length (substring 0 n s) = Nat.min n (String.length s).
Proof.
  revert s. induction n as [|n IH]; intros s.
  - destruct s; reflexivity.
  - destruct s as [|c s]; [reflexivity|].
    rewrite substring_0_cons. cbn [String.length]. now rewrite IH.
Qed.

Lemma substring_0_all n s : String.length s <= n -> substring 0 n s = s.
Proof.
  revert s. induction n as [|n IH]; intros s Hlen.
  - destruct s; [reflexivity | cbn in Hlen; lia].
  - destruct s as [|c s]; [reflexivity|].
    rewrite substring_0_cons. cbn in Hlen. rewrite IH by lia. reflexivity.
Qed.

Lemma substring_0_app n a b :
  String.length a = n -> substring 0 n (a ++ b) = a.
Proof.
  revert a. induction n as [|n IH]; intros a Hlen.
  - destruct a; [|discriminate]. destruct b; reflexivity.
  - destruct a as [|c a]; [discriminate|].
    cbn [append]. rewrite substring_0_cons. injection Hlen as Hlen.
    now rewrite IH.
Qed.

(** X9. The logging middleware logs nothing for a path outside [/api].
    For a path under [/api] it logs one line, "[server] " and a text of
    at most 80 code units, or 79 and the ellipsis; the text starts with
    the same 79 code units as the uncut line, is the uncut line when that
    has at most 80 code units, and ends with the ellipsis otherwise. *)
Theorem request_log_line_is_bounded :
  forall ellipsis method path statusCode start finish captured,
    let full := full_log_line method path statusCode start finish captured in
    (prefix "/api" path = false ->
     on_finish ellipsis method path statusCode start finish captured = [])
    /\ (prefix "/api" path = true ->
        exists line,
          on_finish ellipsis method path statusCode start finish captured
          = [ConsoleLog ("[server] " ++ line)]
          /\ String.length line <= Nat.max 80 (79 + String.length ellipsis)
          /\ substring 0 79 line = substring 0 79 full
          /\ (String.length full <= 80 -> line = full)
          /\ (80 < String.length full ->
              line = substring 0 79 full ++ ellipsis
              /\ String.length line = 79 + String.length ellipsis)).
Proof.
  intros ellipsis method path statusCode start finish captured full.
  unfold on_finish. fold full. split; intros ->; [reflexivity|].
  exists (cut_log_line ellipsis full). split; [reflexivity|].
  unfold cut_log_line.
  destruct (Nat.ltb_spec 80 (String.length full)) as [Hlong | Hshort].
  - assert (H79 : String.length (substring 0 79 full) = 79).
    { rewrite substring_0_length. lia. }
    split; [rewrite length_append, H79; lia|].
    split; [now apply substring_0_app|].
    split; [lia|]. intros _. split; [reflexivity|].
    now rewrite length_append, H79.
  - split; [lia|]. split; [reflexivity|]. split; [reflexivity | lia].
Qed.

Lemma request_log_line_is_bounded_witness :
  on_finish "..." "GET" "/healthz" 200 1000 1004 JUndefined = []
  /\ exists line,
       on_finish "..." "POST" "/api/generate-code" 400 1000 1007
         (JObj [("error", JStr "Invalid request data");
                ("message", JStr "Validation failed")])
       = [ConsoleLog ("[server] " ++ line)]
       /\ String.length line <= 82.
Proof.
  split.
  - exact (proj1 (request_log_line_is_bounded "..." "GET" "/healthz" 200 1000
                    1004 JUndefined) eq_refl).
  - destruct (proj2 (request_log_line_is_bounded "..." "POST"
                       "/api/generate-code" 400 1000 1007
                       (JObj [("error", JStr "Invalid request data");
                              ("message", JStr "Validation failed")]))
                eq_refl) as [line (H & Hlen & _)].
    exists line. split; [exact H | exact Hlen].
Defined.

(** A long line, cut. *)
Example request_log_line_cut :
  on_finish "..." "POST" "/api/generate-code" 400 1000 1007
    (JObj [("error", JStr "Invalid request data");
           ("message", JStr "Validation failed")])
  = [ConsoleLog
       ("[server] POST /api/generate-code 400 in 7ms :: {" ++ Str.dquote ++ "error"
        ++ Str.dquote ++ ":" ++ Str.dquote ++ "Invalid request data" ++ Str.dquote
        ++ "," ++ Str.dquote ++ "message" ++ Str.dquote ++ "...")].
Proof. reflexivity. Qed.

(** ** The development logger *)

Lemma prefix_append (needle hay : string) :
  prefix needle hay = true <-> exists post, hay = needle ++ post.
Proof.
  revert hay. induction needle as [|c needle IH]; intros hay.
  - split; [intros _; now exists hay | intros _; destruct hay; reflexivity].
  - destruct hay as [|d hay]; cbn.
    + split; [discriminate | intros [post H]; discriminate].
    + destruct (ascii_dec c d) as [-> | Hcd].
      * rewrite IH. split; intros [post H]; exists post; [now rewrite H|].
        now injection H.
      * split; [discriminate|]. intros [post H]. injection H as H _. congruence.
Qed.

(** [includes] decides [Str.contains]. *)
Lemma includes_contains (hay needle : string) :
  includes hay needle = true <-> Str.contains hay needle.
Proof.
  unfold Str.contains. induction hay as [|c hay IH].
  - cbn [includes]. rewrite orb_false_r, prefix_append. split.
    + intros [post H]. now exists "", post.
    + intros [pre [post H]]. destruct pre; [now exists post|discriminate].
  - cbn [includes]. rewrite orb_true_iff, prefix_append, IH. split.
    + intros [[post H] | [pre [post H]]].
      * now exists "", post.
      * exists (String c pre), post. cbn. now rewrite H.
    + intros [pre [post H]]. destruct pre as [|d pre].
      * left. now exists post.
      * right. injection H as _ H. now exists pre, post.
Qed.

Lemma warn_when_warned msg options st :
  hasWarned st = true ->
  viteLogger_warn msg options st
  = (if clear_requested options then [warn_line (msg, options)] else [], st).
Proof.
  destruct st as [w e]. cbn. intros ->. unfold viteLogger_warn.
  destruct (clear_requested options); reflexivity.
Qed.

Lemma warn_when_fresh msg options st :
  hasWarned st = false ->
  viteLogger_warn msg options st
  = ([warn_line (msg, options)], mkLogger true (hasErrorLogged st)).
Proof.
  destruct st as [w e]. cbn. intros ->. unfold viteLogger_warn.
  destruct (clear_requested options); reflexivity.
Qed.

Lemma error_when_logged msg options st :
  hasErrorLogged st = true ->
  viteLogger_error msg options st
  = (if clear_requested options then [error_line (msg, options)] else [], st).
Proof.
  destruct st as [w e]. cbn. intros ->. unfold viteLogger_error.
  destruct (clear_requested options); reflexivity.
Qed.

Lemma error_when_fresh msg options st :
  hasErrorLogged st = false ->
  viteLogger_error msg options st
  = ([error_line (msg, options)], mkLogger (hasWarned st) true).
Proof.
  destruct st as [w e]. cbn. intros ->. unfold viteLogger_error.
  destruct (clear_requested options); reflexivity.
Qed.

Lemma warn_once_warned calls st :
  hasWarned st = true ->
  run_logger viteLogger_warn calls st
  = (map warn_line (clearing calls), st).
Proof.
  intros Hw. induction calls as [|[msg options] rest IH]; [reflexivity|].
  cbn [run_logger clearing filter snd].
  rewrite (warn_when_warned msg options st Hw). fold (clearing rest). rewrite IH.
  destruct (clear_requested options); reflexivity.
Qed.

Lemma error_once_logged calls st :
  hasErrorLogged st = true ->
  run_logger viteLogger_error calls st
  = (map error_line (clearing calls), st).
Proof.
  intros Hw. induction calls as [|[msg options] rest IH]; [reflexivity|].
  cbn [run_logger clearing filter snd].
  rewrite (error_when_logged msg options st Hw). fold (clearing rest). rewrite IH.
  destruct (clear_requested options); reflexivity.
Qed.

(** X10. [viteLogger.warn] prints the first warning it is given and,
    after that, only the warnings that ask for [clear]; every other
    warning is dropped.  [viteLogger.error] does the same with its own
    flag, and neither touches the flag of the other. *)
Theorem logger_prints_once_until_cleared :
  forall first rest st,
    hasWarned st = false ->
    hasErrorLogged st = false ->
    run_logger viteLogger_warn (first :: rest) st
    = (warn_line first :: map warn_line (clearing rest), mkLogger true false)
    /\ run_logger viteLogger_error (first :: rest) st
       = (error_line first :: map error_line (clearing rest), mkLogger false true).
Proof.
  intros [msg options] rest [w e] Hw He. cbn in Hw, He. subst w e. split.
  - cbn [run_logger]. rewrite (warn_when_fresh msg options (mkLogger false false) eq_refl).
    cbn [hasErrorLogged hasWarned]. now rewrite (warn_once_warned rest (mkLogger true false) eq_refl).
  - cbn [run_logger]. rewrite (error_when_fresh msg options (mkLogger false false) eq_refl).
    cbn [hasErrorLogged hasWarned]. now rewrite (error_once_logged rest (mkLogger false true) eq_refl).
Qed.

Lemma logger_prints_once_until_cleared_witness :
  fst (run_logger viteLogger_warn
         [("a", None); ("b", Some None); ("c", Some (Some true));
          ("d", Some (Some false))]
         fresh_logger)
  = [ConsoleWarn "[vite] a"; ConsoleWarn "[vite] c"].
Proof.
  exact (f_equal fst
           (proj1 (logger_prints_once_until_cleared ("a", None)
                     [("b", Some None); ("c", Some (Some true));
                      ("d", Some (Some false))]
                     fresh_logger eq_refl eq_refl))).
Defined.

Lemma custom_when_logged msg options st :
  hasErrorLogged st = true ->
  customLogger_error msg options st
  = (((if clear_requested options then [error_line (msg, options)] else [])
      ++ critical_line msg)%list, st).
Proof.
  intros Hw. unfold customLogger_error.
  rewrite (error_when_logged msg options st Hw). unfold critical_line.
  destruct (compilation_error msg); rewrite ?app_nil_r; reflexivity.
Qed.

Lemma custom_when_fresh msg options st :
  hasErrorLogged st = false ->
  customLogger_error msg options st
  = (error_line (msg, options) :: critical_line msg, mkLogger (hasWarned st) true).
Proof.
  intros Hw. unfold customLogger_error.
  rewrite (error_when_fresh msg options st Hw). unfold critical_line.
  destruct (compilation_error msg); reflexivity.
Qed.

Lemma custom_once_logged calls st :
  hasErrorLogged st = true ->
  run_logger customLogger_error calls st
  = (flat_map (fun c => (if clear_requested (snd c) then [error_line c] else [])
                        ++ critical_line (fst c))%list calls,
     st).
Proof.
  intros Hw. induction calls as [|[msg options] rest IH]; [reflexivity|].
  cbn [run_logger flat_map snd fst].
  now rewrite (custom_when_logged msg options st Hw), IH.
Qed.

Lemma compilation_error_contains msg :
  compilation_error msg = true
  <-> Str.contains msg "Could not resolve"
      \/ Str.contains msg "Failed to compile"
      \/ Str.contains msg "syntax error"
      \/ Str.contains msg "module not found".
Proof.
  unfold compilation_error. rewrite !orb_true_iff, !includes_contains. tauto.
Qed.

(** X11. Of the errors Vite reports through [customLogger.error], the
    first is printed with the [[vite]] prefix; a later one is printed
    with that prefix only when it asks for [clear].  After it comes what
    is added for the message: nothing when the message contains "Could
    not resolve", "Failed to compile", "syntax error" or "module not
    found", and the line "Critical Vite error: ..." when it contains
    none of the four, first or not.  So a message with one of the four
    phrases, after the first and without [clear], prints nothing. *)
Theorem custom_logger_reports :
  forall first rest st,
    hasErrorLogged st = false ->
    exists added : string -> list ConsoleCall,
      (forall msg,
          Str.contains msg "Could not resolve"
          \/ Str.contains msg "Failed to compile"
          \/ Str.contains msg "syntax error"
          \/ Str.contains msg "module not found" ->
          added msg = [])
      /\ (forall msg,
             ~ Str.contains msg "Could not resolve" ->
             ~ Str.contains msg "Failed to compile" ->
             ~ Str.contains msg "syntax error" ->
             ~ Str.contains msg "module not found" ->
             added msg = [ConsoleErrorLine ("Critical Vite error: " ++ msg)])
      /\ fst (run_logger customLogger_error (first :: rest) st)
         = ((ConsoleErrorLine ("[vite] " ++ fst first) :: added (fst first))
            ++ flat_map
                 (fun c =>
                    (if clear_requested (snd c)
                     then [ConsoleErrorLine ("[vite] " ++ fst c)] else [])
                    ++ added (fst c))
                 rest)%list.
Proof.
  intros [msg options] rest st He.
  exists critical_line. split; [|split].
  - intros m H. unfold critical_line.
    now rewrite (proj2 (compilation_error_contains m) H).
  - intros m H1 H2 H3 H4. unfold critical_line.
    destruct (compilation_error m) eqn:E; [|reflexivity].
    apply compilation_error_contains in E. tauto.
  - cbn [run_logger fst snd]. rewrite (custom_when_fresh msg options st He).
    now rewrite (custom_once_logged rest (mkLogger (hasWarned st) true) eq_refl).
Qed.

Lemma custom_logger_reports_witness :
  fst (run_logger customLogger_error
         [("Failed to compile a.ts", None);
          ("a syntax error in b.ts", None);
          ("port in use", None)]
         fresh_logger)
  = [ConsoleErrorLine "[vite] Failed to compile a.ts";
     ConsoleErrorLine "Critical Vite error: port in use"].
Proof.
  destruct (custom_logger_reports ("Failed to compile a.ts", None)
              [("a syntax error in b.ts", None); ("port in use", None)]
              fresh_logger eq_refl)
    as (added & Hnone & Hline & Hrun).
  refine (eq_trans Hrun _). cbn [fst snd flat_map clear_requested app].
  rewrite (Hnone "Failed to compile a.ts").
  2:{ right. left. now exists "", " a.ts". }
  rewrite (Hnone "a syntax error in b.ts").
  2:{ right. right. left. now exists "a ", " in b.ts". }
  rewrite (Hline "port in use").
  - reflexivity.
  - intros H. apply includes_contains in H. discriminate H.
  - intros H. apply includes_contains in H. discriminate H.
  - intros H. apply includes_contains in H. discriminate H.
  - intros H. apply includes_contains in H. discriminate H.
Defined.

(** * The other routes *)

(** ** Seeding the tables *)

(** X12.  [POST /api/init-plans] only ever reads the plans table: the
    first object it would store has [price: 0], which the insert schema
    refuses, so with an empty table the route answers 500 and stores
    nothing, whatever the database does; with rows in the table it
    answers "Plans already exist". *)
Theorem init_plans_stores_nothing (db : DbClient) :
  let run := Routes.init_plans db in
  Routes.statements (Run.events run)
  = match db with
    | Drizzle _ => [SelectFrom "plans" None]
    | Skipped => []
    end
  /\ Routes.replies (Run.events run)
     = match db with
       | Drizzle database =>
           match database (SelectFrom "plans" None) with
           | Returns (_ :: _) =>
               [(200%N, JObj [("message", JStr "Plans already exist")])]
           | Returns [] | Throws _ =>
               [(500%N, JObj [("error", JStr "Failed to initialize plans")])]
           | Pending => []
           end
       | Skipped =>
           [(500%N, JObj [("error", JStr "Failed to initialize plans")])]
       end.
Proof.
  destruct db as [database|]; cbn zeta.
  - unfold Routes.init_plans, Storage.getAllPlans, run_statement.
    cbn [Run.emit Run.await Run.bind app].
    destruct (database (SelectFrom "plans" None)) as [[|row rows] | e |];
      split; reflexivity.
  - split; reflexivity.
Qed.

(** X13.  [POST /api/init-models] only ever reads the models table: the
    objects it would store have no [type], which the insert schema
    requires, so with an empty table the route answers 500 and stores
    nothing; with rows in the table it answers "AI models already
    exist". *)
Theorem init_models_stores_nothing (db : DbClient) :
  let run := Routes.init_models db in
  Routes.statements (Run.events run)
  = match db with
    | Drizzle _ => [SelectFrom "ai_models" None]
    | Skipped => []
    end
  /\ Routes.replies (Run.events run)
     = match db with
       | Drizzle database =>
           match database (SelectFrom "ai_models" None) with
           | Returns (_ :: _) =>
               [(200%N, JObj [("message", JStr "AI models already exist")])]
           | Returns [] | Throws _ =>
               [(500%N, JObj [("error", JStr "Failed to initialize AI models")])]
           | Pending => []
           end
       | Skipped =>
           [(500%N, JObj [("error", JStr "Failed to initialize AI models")])]
       end.
Proof.
  destruct db as [database|]; cbn zeta.
  - unfold Routes.init_models, Storage.getAllAIModels, run_statement.
    cbn [Run.emit Run.await Run.bind app].
    destruct (database (SelectFrom "ai_models" None)) as [[|row rows] | e |];
      split; reflexivity.
  - split; reflexivity.
Qed.

(** ** Listing the models *)

(** X14.  [GET /api/ai-models] sends one select and answers the rows it
    got with status 200; when the statement fails, or the connection is
    skipped, it answers the fixed 500 body, in which nothing of the
    failure appears; it answers nothing while the database is silent,
    and it never throws. *)
Theorem ai_models_lists_rows_or_a_fixed_error (db : DbClient) :
  let run := Routes.get_ai_models db in
  Routes.statements (Run.events run)
  = match db with
    | Drizzle _ => [SelectFrom "ai_models" None]
    | Skipped => []
    end
  /\ Routes.replies (Run.events run)
     = match db with
       | Drizzle database =>
           match database (SelectFrom "ai_models" None) with
           | Returns rows => [(200%N, JArr rows)]
           | Throws _ =>
               [(500%N, JObj [("error", JStr "Failed to fetch AI models")])]
           | Pending => []
           end
       | Skipped =>
           [(500%N, JObj [("error", JStr "Failed to fetch AI models")])]
       end
  /\ (forall e, Run.outcome run <> Throws e).
Proof.
  destruct db as [database|]; cbn zeta.
  - unfold Routes.get_ai_models, Storage.getAllAIModels, run_statement.
    cbn [Run.emit Run.await Run.bind app].
    destruct (database (SelectFrom "ai_models" None)) as [rows | e |];
      (split; [reflexivity | split; [reflexivity | discriminate]]).
  - split; [reflexivity | split; [reflexivity | discriminate]].
Qed.

(** ** Subscribing *)

Lemma own_property_assign fields key value :
  own_property (Routes.assign fields key value) key = Some value.
Proof.
  induction fields as [|[k v] rest IH]; cbn.
  - now rewrite String.eqb_refl.
  - destruct (k =? key) eqn:E; cbn; rewrite E; [reflexivity | exact IH].
Qed.

Lemma own_property_assign_other fields key value other :
  other <> key ->
  own_property (Routes.assign fields key value) other = own_property fields other.
Proof.
  intros Hne. induction fields as [|[k v] rest IH]; cbn.
  - destruct (key =? other) eqn:E; [|reflexivity].
    apply String.eqb_eq in E. congruence.
  - destruct (k =? key) eqn:E; cbn.
    + apply String.eqb_eq in E. subst k.
      destruct (key =? other) eqn:E'; [|reflexivity].
      apply String.eqb_eq in E'. congruence.
    + now rewrite IH.
Qed.

Lemma run_bind_ret {E A B} (a : A) (k : A -> Run.t E B) :
  Run.bind (Run.ret a) k = k a.
Proof. unfold Run.bind, Run.ret. now destruct (k a). Qed.

(** What is left of [POST /api/subscribe] once the request has passed
    its three guards. *)
Lemma subscribe_shape Number db req :
  Routes.isAuthenticated req = true ->
  truthy (Routes.user req) = true ->
  truthy (property (Routes.body req) "planId") = true ->
  Routes.subscribe Number db req
  = Run.try_catch
      (Run.bind
         (Storage.getPlan db (Number (property (Routes.body req) "planId")))
         (fun plan =>
            if negb (truthy plan)
            then Routes.respond 404 (JObj [("error", JStr "Plan not found")])
            else
              Run.bind
                (Storage.updateUserSubscription db
                   (property (Routes.user req) "id") true None)
                (fun _ =>
                   Routes.respond 200
                     (JObj [ ("message", JStr "Subscription updated successfully");
                             ("user",
                              JObj (Routes.assign (Routes.spread (Routes.user req))
                                      "isSubscribed" (JBool true))) ]))))
      (fun error =>
         Run.bind (Routes.console_error "Error updating subscription:" error)
           (fun _ =>
              Routes.respond 500
                (JObj [("error", JStr "Failed to update subscription")]))).
Proof.
  intros Ha Hu Hp. unfold Routes.subscribe, Routes.requireAuth.
  rewrite Ha, Hu. cbn [negb].
  destruct (Routes.body req) eqn:Hb; cbn in Hp; try discriminate;
    unfold Routes.destructure; rewrite run_bind_ret; cbn [property];
    rewrite Hp; reflexivity.
Qed.

(** The runs of [POST /api/subscribe] that stop at a guard send nothing
    to the database. *)
Lemma subscribe_guarded Number db req :
  Routes.isAuthenticated req = false
  \/ truthy (Routes.user req) = false
  \/ truthy (property (Routes.body req) "planId") = false ->
  Routes.statements (Run.events (Routes.subscribe Number db req)) = []
  /\ (forall e, Run.outcome (Routes.subscribe Number db req) <> Throws e)
  /\ Run.outcome (Routes.subscribe Number db req) <> Pending
  /\ exists status reply,
       Routes.replies (Run.events (Routes.subscribe Number db req))
       = [(status, reply)]
       /\ In status [400%N; 401%N; 500%N].
Proof.
  destruct req as [auth u b]. cbn [Routes.isAuthenticated Routes.user Routes.body].
  unfold Routes.subscribe, Routes.requireAuth.
  cbn [Routes.isAuthenticated Routes.user Routes.body].
  destruct auth; cbn [negb].
  2:{ intros _. cbn. repeat split; try discriminate.
      exists 401%N. eexists. split; [reflexivity | cbn; tauto]. }
  destruct (truthy u) eqn:Hu; cbn [negb].
  2:{ intros _. cbn. repeat split; try discriminate.
      exists 401%N. eexists. split; [reflexivity | cbn; tauto]. }
  intros [H | [H | H]]; try discriminate.
  destruct b; cbn [property] in H; unfold Routes.destructure;
    try rewrite run_bind_ret; cbn [property]; rewrite ?H; cbn;
    (repeat split; try discriminate;
     first [ exists 400%N; eexists; split; [reflexivity | cbn; tauto]
           | exists 500%N; eexists; split; [reflexivity | cbn; tauto] ]).
Qed.

(** The runs that pass the guards, by what the database answers. *)
Lemma subscribe_passed Number database req :
  Routes.isAuthenticated req = true ->
  truthy (Routes.user req) = true ->
  truthy (property (Routes.body req) "planId") = true ->
  let lookup :=
    SelectFrom "plans"
      (Some ("id", Number (property (Routes.body req) "planId"))) in
  let update :=
    UpdateSet "users" (JObj [("isSubscribed", JBool true)]) "id"
      (property (Routes.user req) "id") in
  let run := Routes.subscribe Number (Drizzle database) req in
  let found :=
    match database lookup with
    | Returns rows => truthy (Storage.first rows)
    | _ => false
    end in
  Routes.statements (Run.events run)
  = (if found then [lookup; update] else [lookup])
  /\ Routes.replies (Run.events run)
     = match database lookup with
       | Returns rows =>
           if truthy (Storage.first rows)
           then match database update with
                | Returns _ =>
                    [(200%N,
                      JObj [ ("message", JStr "Subscription updated successfully");
                             ("user",
                              JObj (Routes.assign (Routes.spread (Routes.user req))
                                      "isSubscribed" (JBool true))) ])]
                | Throws _ =>
                    [(500%N, JObj [("error", JStr "Failed to update subscription")])]
                | Pending => []
                end
           else [(404%N, JObj [("error", JStr "Plan not found")])]
       | Throws _ =>
           [(500%N, JObj [("error", JStr "Failed to update subscription")])]
       | Pending => []
       end
  /\ Run.outcome run
     = match database lookup with
       | Returns rows =>
           if truthy (Storage.first rows)
           then match database update with
                | Pending => Pending
                | _ => Returns tt
                end
           else Returns tt
       | Throws _ => Returns tt
       | Pending => Pending
       end.
Proof.
  intros Ha Hu Hp lookup update run found. subst run found.
  rewrite (subscribe_shape Number (Drizzle database) req Ha Hu Hp).
  unfold Storage.getPlan, Storage.updateUserSubscription, run_statement.
  fold lookup. fold update.
  cbn [Run.emit Run.await Run.bind app].
  destruct (database lookup) as [rows | e |]; cbn.
  - destruct (truthy (Storage.first rows)); cbn.
    + destruct (database update) as [rows' | e |]; cbn; repeat split.
    + repeat split.
  - repeat split.
  - repeat split.
Qed.

Lemma subscribe_skipped Number req :
  Routes.isAuthenticated req = true ->
  truthy (Routes.user req) = true ->
  truthy (property (Routes.body req) "planId") = true ->
  let run := Routes.subscribe Number Skipped req in
  Routes.statements (Run.events run) = []
  /\ Routes.replies (Run.events run)
     = [(500%N, JObj [("error", JStr "Failed to update subscription")])]
  /\ Run.outcome run = Returns tt.
Proof.
  intros Ha Hu Hp run. subst run.
  rewrite (subscribe_shape Number Skipped req Ha Hu Hp).
  repeat split.
Qed.

Lemma truthy_cases v : truthy v = true \/ truthy v = false.
Proof. destruct (truthy v); auto. Qed.

(** X15.  [POST /api/subscribe] writes to the database only for an
    authenticated request with a user and a plan id whose plan the
    database returned, and what it writes is one update of that user's
    row setting [isSubscribed] to true. *)
Theorem subscription_is_written_only_for_a_found_plan
    (Number : JsValue -> JsValue) (db : DbClient) (req : Routes.Request)
    (q : DbStatement) :
  In q (Routes.statements (Run.events (Routes.subscribe Number db req))) ->
  Routes.writes q = true ->
  Routes.isAuthenticated req = true
  /\ truthy (Routes.user req) = true
  /\ truthy (property (Routes.body req) "planId") = true
  /\ (exists database plan rest,
         db = Drizzle database
         /\ database (SelectFrom "plans"
                        (Some ("id", Number (property (Routes.body req) "planId"))))
            = Returns (plan :: rest)
         /\ truthy plan = true)
  /\ q = UpdateSet "users" (JObj [("isSubscribed", JBool true)]) "id"
           (property (Routes.user req) "id").
Proof.
  intros Hin Hw.
  destruct (Routes.isAuthenticated req) eqn:Ha.
  2:{ destruct (subscribe_guarded Number db req) as [E _]; [now left|].
      rewrite E in Hin. contradiction. }
  destruct (truthy_cases (Routes.user req)) as [Hu | Hu].
  2:{ destruct (subscribe_guarded Number db req) as [E _]; [now right; left|].
      rewrite E in Hin. contradiction. }
  destruct (truthy_cases (property (Routes.body req) "planId")) as [Hp | Hp].
  2:{ destruct (subscribe_guarded Number db req) as [E _]; [now right; right|].
      rewrite E in Hin. contradiction. }
  destruct db as [database|].
  2:{ destruct (subscribe_skipped Number req Ha Hu Hp) as [E _].
      rewrite E in Hin. contradiction. }
  destruct (subscribe_passed Number database req Ha Hu Hp) as [E _].
  rewrite E in Hin. clear E.
  destruct (database _) as [rows | e |] eqn:Hq in Hin.
  - destruct rows as [|plan rest]; cbn [Storage.first truthy] in Hin.
    + destruct Hin as [<- | []]. discriminate.
    + destruct (truthy plan) eqn:Hplan.
      * destruct Hin as [<- | [<- | []]]; [discriminate|].
        repeat split; try assumption.
        exists database, plan, rest. now repeat split.
      * destruct Hin as [<- | []]. discriminate.
  - destruct Hin as [<- | []]. discriminate.
  - destruct Hin as [<- | []]. discriminate.
Qed.

Lemma subscription_is_written_only_for_a_found_plan_witness :
  let database := fun q : DbStatement =>
    match q with
    | SelectFrom _ _ => Returns [JObj [("id", JNum "2")]]
    | _ => Returns []
    end in
  let req := Routes.mkRequest true (JObj [("id", JNum "7")])
               (JObj [("planId", JStr "2")]) in
  let q := UpdateSet "users" (JObj [("isSubscribed", JBool true)]) "id" (JNum "7") in
  In q (Routes.statements
          (Run.events (Routes.subscribe (fun _ => JNum "2") (Drizzle database) req)))
  /\ Routes.writes q = true
  /\ truthy (property (Routes.body req) "planId") = true.
Proof.
  cbn zeta.
  assert (Hin : In (UpdateSet "users" (JObj [("isSubscribed", JBool true)]) "id" (JNum "7"))
            (Routes.statements
               (Run.events
                  (Routes.subscribe (fun _ => JNum "2")
                     (Drizzle (fun q : DbStatement =>
                        match q with
                        | SelectFrom _ _ => Returns [JObj [("id", JNum "2")]]
                        | _ => Returns []
                        end))
                     (Routes.mkRequest true (JObj [("id", JNum "7")])
                        (JObj [("planId", JStr "2")])))))).
  { cbn. right. left. reflexivity. }
  split; [exact Hin|]. split; [reflexivity|].
  exact (proj1 (proj2 (proj2
    (subscription_is_written_only_for_a_found_plan _ _ _ _ Hin eq_refl)))).
Defined.

(** X16.  [POST /api/subscribe] never throws and answers at most once,
    with one of the statuses 200, 400, 401, 404 and 500; it has answered
    exactly once when it returns, and not at all while the database is
    silent.  It answers 200 only after the database has acknowledged the
    update, and the user in that answer has [isSubscribed] true; when
    [req.user] is an object, every other key of the answer's user has
    the value it has in [req.user], and when [req.user] is a number or a
    boolean the answer's user has no other key. *)
Theorem subscribe_answers_once
    (Number : JsValue -> JsValue) (db : DbClient) (req : Routes.Request) :
  let run := Routes.subscribe Number db req in
  let sent := Routes.replies (Run.events run) in
  (forall e, Run.outcome run <> Throws e)
  /\ (Run.outcome run = Returns tt ->
      exists status reply,
        sent = [(status, reply)]
        /\ In status [200%N; 400%N; 401%N; 404%N; 500%N])
  /\ (Run.outcome run = Pending -> sent = [])
  /\ (forall reply,
         In (200%N, reply) sent ->
         (exists database rows,
             db = Drizzle database
             /\ database (UpdateSet "users" (JObj [("isSubscribed", JBool true)])
                            "id" (property (Routes.user req) "id"))
                = Returns rows)
         /\ exists fields,
              property reply "user" = JObj fields
              /\ own_property fields "isSubscribed" = Some (JBool true)
              /\ (forall stored key,
                     Routes.user req = JObj stored ->
                     key <> "isSubscribed" ->
                     own_property fields key = own_property stored key)
              /\ (forall key,
                     (exists t, Routes.user req = JNum t)
                     \/ (exists b, Routes.user req = JBool b) ->
                     key <> "isSubscribed" ->
                     own_property fields key = None)).
Proof.
  cbn zeta.
  assert (G : Routes.isAuthenticated req = false
              \/ truthy (Routes.user req) = false
              \/ truthy (property (Routes.body req) "planId") = false
              \/ (Routes.isAuthenticated req = true
                  /\ truthy (Routes.user req) = true
                  /\ truthy (property (Routes.body req) "planId") = true)).
  { destruct (Routes.isAuthenticated req); [|now left].
    destruct (truthy (Routes.user req)); [|now right; left].
    destruct (truthy (property (Routes.body req) "planId")); [|now right; right; left].
    now right; right; right. }
  assert (G' : (Routes.isAuthenticated req = false
                \/ truthy (Routes.user req) = false
                \/ truthy (property (Routes.body req) "planId") = false)
               \/ (Routes.isAuthenticated req = true
                   /\ truthy (Routes.user req) = true
                   /\ truthy (property (Routes.body req) "planId") = true))
    by tauto.
  clear G. destruct G' as [G | (Ha & Hu & Hp)].
  - destruct (subscribe_guarded Number db req G)
      as (_ & Hthrow & Hpend & status & reply & Hsent & Hstatus).
    split; [exact Hthrow|]. split; [|split].
    + intros _. exists status, reply. split; [exact Hsent|].
      cbn in Hstatus |- *. tauto.
    + intros H. contradiction.
    + intros r Hin. rewrite Hsent in Hin. destruct Hin as [E | []].
      inversion E; subst. cbn in Hstatus.
      destruct Hstatus as [H | [H | [H | []]]]; discriminate.
  - destruct db as [database|].
    + destruct (subscribe_passed Number database req Ha Hu Hp) as (_ & Hsent & Hout).
      rewrite Hsent, Hout. clear Hsent Hout.
      destruct (database (SelectFrom _ _)) as [rows | e |].
      * destruct (truthy (Storage.first rows)).
        -- destruct (database (UpdateSet _ _ _ _)) as [rows' | e |] eqn:Hupdate.
           ++ split; [discriminate|]. split; [|split].
              ** intros _. eexists _, _. split; [reflexivity | cbn; tauto].
              ** discriminate.
              ** intros r [E | []]. inversion E; subst r. split.
                 --- now exists database, rows'.
                 --- eexists. split; [reflexivity|]. split; [|split].
                     +++ apply own_property_assign.
                     +++ intros stored key Hstored Hkey.
                         rewrite (own_property_assign_other _ _ _ _ Hkey).
                         now rewrite Hstored.
                     +++ intros key Hkind Hkey.
                         rewrite (own_property_assign_other _ _ _ _ Hkey).
                         destruct Hkind as [[t ->] | [b' ->]]; reflexivity.
           ++ split; [discriminate|]. split; [|split].
              ** intros _. eexists _, _. split; [reflexivity | cbn; tauto].
              ** discriminate.
              ** intros r [E | []]. discriminate.
           ++ split; [discriminate|]. split; [|split].
              ** discriminate.
              ** reflexivity.
              ** intros r [].
        -- split; [discriminate|]. split; [|split].
           ++ intros _. eexists _, _. split; [reflexivity | cbn; tauto].
           ++ discriminate.
           ++ intros r [E | []]. discriminate.
      * split; [discriminate|]. split; [|split].
        -- intros _. eexists _, _. split; [reflexivity | cbn; tauto].
        -- discriminate.
        -- intros r [E | []]. discriminate.
      * split; [discriminate|]. split; [|split].
        -- discriminate.
        -- reflexivity.
        -- intros r [].
    + destruct (subscribe_skipped Number req Ha Hu Hp) as (_ & Hsent & Hout).
      rewrite Hsent, Hout. split; [discriminate|]. split; [|split].
      * intros _. eexists _, _. split; [reflexivity | cbn; tauto].
      * discriminate.
      * intros r [E | []]. discriminate.
Qed.

(** ** The database client *)

Lemma match_development {A} (s : string) (a b : A) :
  match s with "development" => a | _ => b end
  = if s =? "development" then a else b.
Proof.
  do 12 (try (destruct s as [|[[] [] [] [] [] [] [] []] s]; try reflexivity)).
Qed.

Lemma match_true {A} (s : string) (a b : A) :
  match s with "true" => a | _ => b end = if s =? "true" then a else b.
Proof.
  do 5 (try (destruct s as [|[[] [] [] [] [] [] [] []] s]; try reflexivity)).
Qed.

Lemma skipDbConnection_true penv :
  skipDbConnection penv = true
  <-> penv "NODE_ENV" = Some "development"
      /\ (penv "SKIP_DB_CONNECTION" = Some "true"
          \/ penv "DATABASE_URL" = None
          \/ penv "DATABASE_URL" = Some "").
Proof.
  unfold skipDbConnection.
  destruct (penv "NODE_ENV") as [mode|].
  2:{ split; [discriminate | intros [H _]; discriminate]. }
  assert (E : forall a b : bool,
             match mode with "development" => a | _ => b end
             = if mode =? "development" then a else b)
    by (intros; apply match_development).
  rewrite E. clear E.
  destruct (String.eqb_spec mode "development") as [-> | Hmode].
  2:{ split; [discriminate | intros [H _]; congruence]. }
  assert (D : match penv "DATABASE_URL" with
              | Some "" | None => true
              | Some _ => false
              end = true
              <-> penv "DATABASE_URL" = None \/ penv "DATABASE_URL" = Some "").
  { destruct (penv "DATABASE_URL") as [[|c u]|].
    - split; auto.
    - split; [discriminate | intros [H | H]; discriminate].
    - split; auto. }
  destruct (penv "SKIP_DB_CONNECTION") as [flag|].
  - assert (E : forall a b : bool,
               match flag with "true" => a | _ => b end
               = if flag =? "true" then a else b)
      by (intros; apply match_true).
    rewrite E. clear E.
    destruct (String.eqb_spec flag "true") as [-> | Hflag].
    + split; auto.
    + rewrite D. split.
      * intros H. split; [reflexivity | now right].
      * intros [_ [H | H]]; [congruence | exact H].
  - rewrite D. split.
    + intros H. split; [reflexivity | now right].
    + intros [_ [H | H]]; [discriminate | exact H].
Qed.

(** X17.  Loading db.ts throws exactly when [DATABASE_URL] is unset or
    empty outside development, whatever [SKIP_DB_CONNECTION] says; it
    exports the stand-in client exactly in development with
    [SKIP_DB_CONNECTION] equal to "true" or without a [DATABASE_URL]; and
    in every other case it exports the client of the database. *)
Theorem load_db_modes
    (penv : string -> option string)
    (database : DbStatement -> Outcome (list JsValue)) :
  let no_url := penv "DATABASE_URL" = None \/ penv "DATABASE_URL" = Some "" in
  let development := penv "NODE_ENV" = Some "development" in
  let skip := penv "SKIP_DB_CONNECTION" = Some "true" in
  ((exists e, load_db penv database = inl e) <-> no_url /\ ~ development)
  /\ (load_db penv database = inr Skipped <-> development /\ (skip \/ no_url))
  /\ (load_db penv database = inr (Drizzle database)
      <-> ~ no_url /\ ~ (development /\ skip)).
Proof.
  cbn zeta. pose proof (skipDbConnection_true penv) as S.
  unfold load_db.
  destruct (skipDbConnection penv) eqn:Hskip.
  - destruct (proj1 S eq_refl) as [Hdev Hwhy].
    destruct (penv "DATABASE_URL") as [[|c u]|] eqn:Hurl.
    + split; [|split].
      * split; [intros [e H]; discriminate | intros [_ H]; contradiction].
      * split; [intros _; split; [exact Hdev | now right; right] | reflexivity].
      * split; [discriminate | intros [H _]; exfalso; apply H; now right].
    + split; [|split].
      * split; [intros [e H]; discriminate | intros [_ H]; contradiction].
      * split; [intros _; split; [exact Hdev | tauto] | reflexivity].
      * split; [discriminate|].
        intros [_ H]. exfalso. apply H. split; [exact Hdev|].
        destruct Hwhy as [H' | [H' | H']]; [exact H' | discriminate | discriminate].
    + split; [|split].
      * split; [intros [e H]; discriminate | intros [_ H]; contradiction].
      * split; [intros _; split; [exact Hdev | now right; left] | reflexivity].
      * split; [discriminate | intros [H _]; exfalso; apply H; now left].
  - assert (N : ~ (penv "NODE_ENV" = Some "development"
                   /\ (penv "SKIP_DB_CONNECTION" = Some "true"
                       \/ penv "DATABASE_URL" = None
                       \/ penv "DATABASE_URL" = Some "")))
      by (intros H; apply S in H; discriminate).
    destruct (penv "DATABASE_URL") as [[|c u]|] eqn:Hurl.
    + split; [|split].
      * split; [intros _; split; [now right | tauto] | intros _; eexists; reflexivity].
      * split; [discriminate | intros [Hdev H]; exfalso; apply N; tauto].
      * split; [discriminate | intros [H _]; exfalso; apply H; now right].
    + split; [|split].
      * split; [intros [e H]; discriminate|].
        intros [[H | H] _]; discriminate.
      * split; [discriminate | intros [Hdev [H | [H | H]]]; try discriminate].
        exfalso. apply N. tauto.
      * split; [|reflexivity].
        intros _. split; [intros [H | H]; discriminate | tauto].
    + split; [|split].
      * split; [intros _; split; [now left | tauto] | intros _; eexists; reflexivity].
      * split; [discriminate | intros [Hdev H]; exfalso; apply N; tauto].
      * split; [discriminate | intros [H _]; exfalso; apply H; now left].
Qed.

(** X18.  With the stand-in client, that is in development with the
    connection skipped, no storage call reaches a database: each logs
    the type error of the missing builder method and throws its own
    fixed error. *)
Theorem skipped_connection_fails_every_storage_call
    (penv : string -> option string)
    (database : DbStatement -> Outcome (list JsValue)) (db : DbClient) :
  load_db penv database = inr db ->
  penv "NODE_ENV" = Some "development" ->
  penv "SKIP_DB_CONNECTION" = Some "true"
  \/ penv "DATABASE_URL" = None \/ penv "DATABASE_URL" = Some "" ->
  let missing := fun method => TypeError ("db." ++ method ++ " is not a function") in
  Storage.getAllAIModels db
  = ([RConsoleError "Error fetching all AI models:" (missing "select")],
     Throws (Error "Failed to fetch AI models"))
  /\ Storage.getAllPlans db
     = ([RConsoleError "Error fetching all plans:" (missing "select")],
        Throws (Error "Failed to fetch subscription plans"))
  /\ (forall id,
         Storage.getPlan db id
         = ([RConsoleError "Error fetching plan:" (missing "select")],
            Throws (Error "Failed to fetch subscription plan")))
  /\ (forall model,
         Storage.createAIModel db model
         = ([RConsoleError "Error creating AI model:" (missing "insert")],
            Throws (Error "Failed to create AI model")))
  /\ (forall plan,
         Storage.createPlan db plan
         = ([RConsoleError "Error creating plan:" (missing "insert")],
            Throws (Error "Failed to create subscription plan")))
  /\ (forall userId isSubscribed endDate,
         Storage.updateUserSubscription db userId isSubscribed endDate
         = ([RConsoleError "Error updating user subscription:" (missing "update")],
            Throws (Error "Failed to update user subscription"))).
Proof.
  intros Hload Hdev Hwhy missing.
  assert (E : db = Skipped).
  { pose proof (proj2 (skipDbConnection_true penv) (conj Hdev Hwhy)) as Hskip.
    unfold load_db in Hload. rewrite Hskip in Hload.
    destruct (penv "DATABASE_URL") as [[|c u]|]; now inversion Hload. }
  subst db missing. repeat split.
Qed.

Lemma skipped_connection_fails_every_storage_call_witness :
  let penv := fun name : string =>
    if name =? "NODE_ENV" then Some "development" else None in
  load_db penv (fun _ => Pending) = inr Skipped
  /\ Storage.getAllPlans Skipped
     = ([RConsoleError "Error fetching all plans:"
           (TypeError "db.select is not a function")],
        Throws (Error "Failed to fetch subscription plans")).
Proof.
  cbn zeta. split; [reflexivity|].
  exact (proj1 (proj2
    (skipped_connection_fails_every_storage_call
       (fun name : string => if name =? "NODE_ENV" then Some "development" else None)
       (fun _ => Pending) Skipped eq_refl eq_refl (or_intror (or_introl eq_refl))))).
Defined.
